(** * Verification of the fundamentals extractor and the gather orchestrator

    Shallow embedding of
    - [skills/gradient-data-gathering/scripts/gather_fundamentals.py]
      ([_extract_concept_data], [_get_latest_value] and the derived figures
      computed inside [format_fundamentals_markdown]; further on
      [resolve_cik], [extract_financials], [_format_trend], the annual
      history table of the report and the metric count of
      [gather_fundamentals]);
    - [skills/gradient-research-assistant/scripts/gather.py]
      ([run_source], [store_source_result], [trigger_reindex], [gather];
      further on [_source_label] and [main]).

    Modelling conventions.
    - Python [str] is [string]; the strings that matter here (form names,
      ISO dates, source names) are ASCII, and [<] on [str] is the
      lexicographic order on code points, i.e. [String.leb].
    - Python [dict]s used as maps are [gmap string _]; [d.get(k, dflt)] is
      [default dflt (d !! k)].
    - JSON fields are read at the types the facts provider documents:
      strings for forms and dates, numbers or [null] for values.
    - A JSON number or [null] is a [pyval]. A Python [float] is an IEEE 754
      binary64 number, a [spec_float] with the operations of the Standard
      Library's [SpecFloat] at precision 53 and maximal exponent 1024;
      [float(n)] rounds an integer to the nearest double, ties to even, and
      raises [OverflowError] when the result is not finite.
    - A Python exception is the [Raise] result of the [exc] monad.
    - Of the text that [format_fundamentals_markdown] renders only the
      figures and the exceptions are kept: [_format_number] is modelled by
      whether it returns.
    - The external collaborators of [gather.py] (the per-source gather
      functions, [store.upload_to_spaces], [store.trigger_kb_reindex],
      [time.sleep]) are fields of an environment record acting on an
      abstract world; the steps of an invocation are recorded in a
      trace. *)

From Stdlib Require Import ZArith String Ascii List Bool.
From Stdlib Require Import Floats.SpecFloat.
From Stdlib Require Import Sorting.Sorted Sorting.Permutation.
From stdpp Require Import base option list gmap strings pretty.

Local Open Scope string_scope.
Local Open Scope Z_scope.

(** ** Python values and exceptions *)

Inductive pyexn :=
| TypeError
| ValueError
| OverflowError
| ZeroDivisionError.

Inductive exc (A : Type) :=
| Ok (a : A)
| Raise (e : pyexn).
Arguments Ok {A} a.
Arguments Raise {A} e.

Global Instance exc_ret : MRet exc := fun A a => Ok a.

Global Instance exc_bind : MBind exc := fun A B f m =>
  match m with
  | Ok a => f a
  | Raise e => Raise e
  end.

(** *** Floats

    A Python [float] is a binary64 number. *)

(** The double nearest to an integer, ties to even; an infinity when the
    integer is beyond the range of the finite doubles. *)
Definition f64_of_Z (z : Z) : spec_float := binary_normalize 53 1024 z 0 false.

Definition f64_zero : spec_float := S754_zero false.

(** The literal [100] as an operand of a float operation. *)
Definition f64_hundred : spec_float := f64_of_Z 100.

(** [x == y], [x < y], [x - y], [x * y] and [abs(x)] on floats. *)
Definition f64_eqb : spec_float -> spec_float -> bool := SFeqb.
Definition f64_ltb : spec_float -> spec_float -> bool := SFltb.
Definition f64_sub : spec_float -> spec_float -> spec_float := SFsub 53 1024.
Definition f64_mul : spec_float -> spec_float -> spec_float := SFmul 53 1024.
Definition f64_abs : spec_float -> spec_float := SFabs.

(** [x / y]: raises [ZeroDivisionError] when [y == 0]. *)
Definition f64_div (x y : spec_float) : exc spec_float :=
  if f64_eqb y f64_zero then Raise ZeroDivisionError
  else Ok (SFdiv 53 1024 x y).

(** A JSON scalar as the facts provider delivers it: [null] (or an absent
    key read with [.get]), an integer, or a float. *)
Inductive pyval :=
| PNone
| PInt (z : Z)
| PFloat (x : spec_float).

(** [bool(v)]: [None], [0] and a float equal to zero are falsy; a NaN is
    truthy. *)
Definition truthy (v : pyval) : bool :=
  match v with
  | PNone => false
  | PInt z => negb (z =? 0)
  | PFloat x => negb (f64_eqb x f64_zero)
  end.

(** [v is not None] *)
Definition is_not_none (v : pyval) : bool :=
  match v with
  | PNone => false
  | _ => true
  end.

(** [float(v)]: raises [TypeError] on [None] and [OverflowError] on an
    integer too large for a double. *)
Definition float (v : pyval) : exc spec_float :=
  match v with
  | PNone => Raise TypeError
  | PInt z =>
      match f64_of_Z z with
      | S754_infinity _ => Raise OverflowError
      | x => Ok x
      end
  | PFloat x => Ok x
  end.

(** ** String helpers *)

Module PyStr.

(** [s.replace("/A", empty)]: every non-overlapping occurrence of ["/A"],
    scanned left to right, is removed. *)
Fixpoint replace_amend (s : string) : string :=
  match s with
  | String "/" (String "A" rest) => replace_amend rest
  | String c rest => String c (replace_amend rest)
  | EmptyString => EmptyString
  end.

(** [s[:n]] *)
Definition take (n : nat) (s : string) : string := substring 0 n s.

(** White space as [str.strip] sees it, on ASCII characters: tab to
    carriage return, the separators [0x1c] to [0x1f] and the space. *)
Definition is_space (c : ascii) : bool :=
  let n := N_of_ascii c in
  ((9 <=? n) && (n <=? 13) || (28 <=? n) && (n <=? 32))%N.

(** White space as [int] skips it around the digits of an ASCII string:
    tab to carriage return and the space only, the separators [0x1c] to
    [0x1f] are not. *)
Definition is_int_space (c : ascii) : bool :=
  let n := N_of_ascii c in
  ((9 <=? n) && (n <=? 13) || (n =? 32))%N.

Fixpoint lstrip_with (space : ascii -> bool) (s : string) : string :=
  match s with
  | String c rest => if space c then lstrip_with space rest else s
  | EmptyString => EmptyString
  end.

Definition strip_with (space : ascii -> bool) (s : string) : string :=
  String.rev (lstrip_with space (String.rev (lstrip_with space s))).

(** [s.strip()] *)
Definition strip (s : string) : string := strip_with is_space s.

Definition digit_val (c : ascii) : option Z :=
  let n := N_of_ascii c in
  if ((48 <=? n) && (n <=? 57))%N then Some (Z.of_N n - 48) else None.

(** Digits of a decimal literal, single underscores allowed between
    digits only. [prev] tells whether the previous character was a
    digit. *)
Fixpoint parse_digits (acc : Z) (prev : bool) (s : string) : option Z :=
  match s with
  | EmptyString => if prev then Some acc else None
  | String c rest =>
      match digit_val c with
      | Some d => parse_digits (acc * 10 + d) true rest
      | None =>
          if Ascii.eqb c "_" && prev then parse_digits acc false rest
          else None
      end
  end.

(** [int(s)] for a [str] argument, base 10; [None] stands for the
    [ValueError] the caller catches. *)
Definition int (s : string) : option Z :=
  match strip_with is_int_space s with
  | String "-" rest => Z.opp <$> parse_digits 0 false rest
  | String "+" rest => parse_digits 0 false rest
  | t => parse_digits 0 false t
  end.

(** [sep.join(parts)] *)
Fixpoint join (sep : string) (parts : list string) : string :=
  match parts with
  | [] => EmptyString
  | [p] => p
  | p :: rest => p ++ sep ++ join sep rest
  end.

(** [needle in s] as a proposition. *)
Definition contains (s needle : string) : Prop :=
  exists pre post, s = pre ++ needle ++ post.

End PyStr.

(** ** The facts payload and the observations extracted from it *)

Module Fundamentals.

(** One raw record of the facts provider; a field is [None] when the key
    is absent from the JSON object. *)
Record raw_entry := RawEntry {
  e_val : pyval;
  e_end : option string;
  e_form : option string;
  e_filed : option string;
  e_fy : option Z;
  e_fp : option string
}.

(** The dict appended to [results] in [_extract_concept_data]. *)
Record observation := Observation {
  value : pyval;
  end_date : string;
  form : string;
  filed : string;
  fiscal_year : option Z;
  fiscal_period : string
}.

(** [concept.get("units", {})]: unit kind to raw records. *)
Record concept := Concept {
  units : option (gmap string (list raw_entry))
}.

(** The companyfacts payload: [facts["facts"]], taxonomy to concept name
    to concept; [None] when the key ["facts"] is absent. *)
Record company_facts := CompanyFacts {
  facts_field : option (gmap string (gmap string concept))
}.

Definition accepted_forms : list string :=
  ["10-K"; "10-Q"; "10-K/A"; "10-Q/A"].

Definition unit_types : list string :=
  ["USD"; "USD/shares"; "shares"; "pure"].

(** The key used for deduplication:
    [(r["end_date"], r["form"].replace("/A", empty))]. *)
Definition dedup_key (r : observation) : string * string :=
  (end_date r, PyStr.replace_amend (form r)).

(** Body of the [for entry in entries] loop: [None] is [continue]. *)
Definition extract_entry (cutoff_year : Z) (entry : raw_entry)
  : option observation :=
  let form := default EmptyString (e_form entry) in
  if bool_decide (form ∈ accepted_forms) then
    let end_date := default EmptyString (e_end entry) in
    if bool_decide (end_date = EmptyString) then None
    else
      match PyStr.int (PyStr.take 4 end_date) with
      | None => None
      | Some end_year =>
          if end_year <? cutoff_year then None
          else Some {| value := e_val entry;
                       end_date := end_date;
                       form := form;
                       filed := default EmptyString (e_filed entry);
                       fiscal_year := e_fy entry;
                       fiscal_period := default EmptyString (e_fp entry) |}
      end
  else None.

(** The list [results] once the loop over [entries] is over. *)
Definition filter_entries (cutoff_year : Z) (entries : list raw_entry)
  : list observation :=
  omap (extract_entry cutoff_year) entries.

(** [results.sort(key=lambda x: x["end_date"])]. Python's sort is stable;
    the stable sort of a list is unique, here computed by insertion: an
    element is placed before the first element of the sorted tail whose
    key is not smaller. *)
Fixpoint insert_by_end (r : observation) (l : list observation)
  : list observation :=
  match l with
  | [] => [r]
  | x :: l' =>
      if String.leb (end_date r) (end_date x) then r :: l
      else x :: insert_by_end r l'
  end.

Definition sort_by_end_date (l : list observation) : list observation :=
  foldr insert_by_end [] l.

(** The loop [for r in results: if key not in seen: ...]. *)
Fixpoint dedup_loop (seen : gset (string * string)) (rs : list observation)
  : list observation :=
  match rs with
  | [] => []
  | r :: rest =>
      let key := dedup_key r in
      if decide (key ∈ seen) then dedup_loop seen rest
      else r :: dedup_loop ({[key]} ∪ seen) rest
  end.

Definition dedup (rs : list observation) : list observation :=
  dedup_loop ∅ rs.

(** Sort and deduplicate, the body of [if results:]. *)
Definition sort_dedup (results : list observation) : list observation :=
  dedup (sort_by_end_date results).

(** The loop over [unit_type]; [None] when the loop ends without
    [return]. *)
Fixpoint try_units (cutoff_year : Z) (us : gmap string (list raw_entry))
    (kinds : list string) : option (list observation) :=
  match kinds with
  | [] => None
  | unit_type :: kinds' =>
      match default [] (us !! unit_type) with
      | [] => try_units cutoff_year us kinds'
      | entries =>
          match filter_entries cutoff_year entries with
          | [] => try_units cutoff_year us kinds'
          | results => Some (sort_dedup results)
          end
      end
  end.

(** [facts.get("facts", {}).get("us-gaap", {})] *)
Definition us_gaap_of (facts : company_facts) : gmap string concept :=
  default ∅ (default ∅ (facts_field facts) !! "us-gaap").

(** [us_gaap.get(concept_name, {}).get("units", {})] *)
Definition units_of (us_gaap : gmap string concept) (concept_name : string)
  : gmap string (list raw_entry) :=
  default ∅ (units (default (Concept None) (us_gaap !! concept_name))).

(** The loop over [concept_names]. *)
Fixpoint try_concepts (cutoff_year : Z) (us_gaap : gmap string concept)
    (concept_names : list string) : list observation :=
  match concept_names with
  | [] => []
  | concept_name :: rest =>
      match try_units cutoff_year (units_of us_gaap concept_name)
              unit_types with
      | Some deduped => deduped
      | None => try_concepts cutoff_year us_gaap rest
      end
  end.

(** [_extract_concept_data(facts, concept_names, years)];
    [now_year] is [datetime.now().year]. *)
Definition _extract_concept_data (now_year : Z) (facts : company_facts)
    (concept_names : list string) (years : Z) : list observation :=
  try_concepts (now_year - years) (us_gaap_of facts) concept_names.

(** *** The metric aggregator *)

Definition INCOME_CONCEPTS : list (string * list string) :=
  [("revenue",
    ["RevenueFromContractWithCustomerExcludingAssessedTax";
     "RevenueFromContractWithCustomerIncludingAssessedTax";
     "Revenues"; "SalesRevenueNet"; "SalesRevenueGoodsNet"]);
   ("cost_of_revenue",
    ["CostOfGoodsAndServicesSold"; "CostOfRevenue"; "CostOfGoodsSold"]);
   ("gross_profit", ["GrossProfit"]);
   ("operating_income", ["OperatingIncomeLoss"]);
   ("net_income", ["NetIncomeLoss"; "ProfitLoss"]);
   ("eps_basic", ["EarningsPerShareBasic"]);
   ("eps_diluted", ["EarningsPerShareDiluted"])].

Definition BALANCE_SHEET_CONCEPTS : list (string * list string) :=
  [("total_assets", ["Assets"]);
   ("total_liabilities", ["Liabilities"]);
   ("stockholders_equity",
    ["StockholdersEquity";
     "StockholdersEquityIncludingPortionAttributableToNoncontrollingInterest"]);
   ("cash",
    ["CashAndCashEquivalentsAtCarryingValue";
     "CashCashEquivalentsAndShortTermInvestments"; "Cash"]);
   ("long_term_debt",
    ["LongTermDebt"; "LongTermDebtNoncurrent";
     "LongTermDebtAndCapitalLeaseObligations"]);
   ("short_term_debt", ["ShortTermBorrowings"; "DebtCurrent"]);
   ("current_assets", ["AssetsCurrent"]);
   ("current_liabilities", ["LiabilitiesCurrent"]);
   ("shares_outstanding",
    ["CommonStockSharesOutstanding"; "EntityCommonStockSharesOutstanding"])].

Definition CASH_FLOW_CONCEPTS : list (string * list string) :=
  [("operating_cash_flow", ["NetCashProvidedByOperatingActivities"]);
   ("capex",
    ["PaymentsToAcquirePropertyPlantAndEquipment";
     "PaymentsToAcquireProductiveAssets"]);
   ("dividends_paid", ["PaymentsOfDividends"; "PaymentsOfDividendsCommonStock"])].

(** One of the three loops of [extract_financials]:
    [if data: result[category][metric_name] = data]. *)
Definition extract_category (now_year : Z) (facts : company_facts)
    (years : Z) (table : list (string * list string))
  : gmap string (list observation) :=
  foldl (fun acc entry =>
           match _extract_concept_data now_year facts entry.2 years with
           | [] => acc
           | data => <[entry.1 := data]> acc
           end) ∅ table.

(** *** The report sections built from the metrics document

    The part of [format_fundamentals_markdown] that reads [financials]:
    the metric lines, the margins, the annual history table, the key
    ratios and the free cash flow. Each block yields the figures it
    derives, as label and double; the text of the report lines is left
    out, and of the calls that only render, what is kept is whether they
    return. *)

(** [_get_latest_value(data_points, form_filter)] *)
Definition _get_latest_value (data_points : list observation)
    (form_filter : string) : option observation :=
  match data_points with
  | [] => None
  | _ =>
      match List.filter
              (fun d => String.eqb (PyStr.replace_amend (form d)) form_filter)
              data_points with
      | [] => last data_points
      | filtered => last filtered
      end
  end.

(** [_get_latest_value(section.get(metric, []))] with the default
    [form_filter="10-K"]. *)
Definition latest_of (section : gmap string (list observation))
    (metric : string) : option observation :=
  _get_latest_value (default [] (section !! metric)) "10-K".

(** [_format_number(value, ...)], as far as it returns or raises: [None]
    is rendered without a conversion, and the conversion [float(value)]
    stands in a [try] that catches [TypeError] and [ValueError] only. *)
Definition _format_number (v : pyval) : exc unit :=
  match v with
  | PNone => mret tt
  | _ =>
      match float v with
      | Ok _ => mret tt
      | Raise TypeError => mret tt
      | Raise ValueError => mret tt
      | Raise e => Raise e
      end
  end.

Inductive direction :=
| Up
| Down
| Flat.

(** [_format_trend(data_points, form_filter)]: [None] stands for the empty
    string, [Some (arrow, pct_change)] for the rendered trend, the
    percentage taken before it is printed with one decimal. The two
    conversions stand in a [try] that catches [TypeError] and
    [ValueError] only. *)
Definition _format_trend (data_points : list observation)
    (form_filter : string) : exc (option (direction * spec_float)) :=
  let filtered :=
    List.filter
      (fun d => String.eqb (PyStr.replace_amend (form d)) form_filter)
      data_points in
  match reverse filtered with
  | curr :: prev :: _ =>
      if is_not_none (value prev) && is_not_none (value curr) then
        match (prev_val ← float (value prev);
               curr_val ← float (value curr);
               mret (prev_val, curr_val)) with
        | Ok (prev_val, curr_val) =>
            if f64_eqb prev_val f64_zero then mret None
            else
              q ← f64_div (f64_sub curr_val prev_val) (f64_abs prev_val);
              let pct_change := f64_mul q f64_hundred in
              let arrow :=
                if f64_ltb f64_zero pct_change then Up
                else if f64_ltb pct_change f64_zero then Down
                else Flat in
              mret (Some (arrow, pct_change))
        | Raise TypeError => mret None
        | Raise ValueError => mret None
        | Raise e => Raise e
        end
      else mret None
  | _ => mret None
  end.

(** A loop [for x in l: f(x)] of calls that return nothing. *)
Fixpoint for_each {A} (f : A -> exc unit) (l : list A) : exc unit :=
  match l with
  | [] => mret tt
  | x :: rest => _ ← f x; for_each f rest
  end.

(** The body of the loops over the metrics of a section: the trend and
    the latest value of the metric are rendered when the metric has
    data. *)
Definition metric_line (section : gmap string (list observation))
    (metric : string) : exc unit :=
  match default [] (section !! metric) with
  | [] => mret tt
  | data =>
      match _get_latest_value data "10-K" with
      | Some latest =>
          _ ← _format_trend data "10-K";
          _format_number (value latest)
      | None => mret tt
      end
  end.

(** The metrics of the three loops, in the order of the report. *)
Definition INCOME_LINES : list string :=
  ["revenue"; "gross_profit"; "operating_income"; "net_income";
   "eps_diluted"].

Definition BALANCE_SHEET_LINES : list string :=
  ["total_assets"; "total_liabilities"; "stockholders_equity"; "cash";
   "long_term_debt"; "current_assets"; "current_liabilities";
   "shares_outstanding"].

Definition CASH_FLOW_LINES : list string :=
  ["operating_cash_flow"; "capex"; "dividends_paid"].

(** One of the three guarded margin computations:
    [if x_latest and x_latest["value"]: margins.append(...)]. *)
Definition margin_of (label : string) (x_latest : option observation)
    (rev_val : spec_float) : exc (list (string * spec_float)) :=
  match x_latest with
  | Some o =>
      if truthy (value o) then
        x ← float (value o);
        q ← f64_div x rev_val;
        mret [(label, f64_mul q f64_hundred)]
      else mret []
  | None => mret []
  end.

(** The list [margins] built in the income section. *)
Definition margins_block (income : gmap string (list observation))
  : exc (list (string * spec_float)) :=
  match latest_of income "revenue" with
  | Some rev_latest =>
      if truthy (value rev_latest) then
        rev_val ← float (value rev_latest);
        if f64_ltb f64_zero rev_val then
          gm ← margin_of "Gross" (latest_of income "gross_profit") rev_val;
          om ← margin_of "Operating" (latest_of income "operating_income")
                 rev_val;
          nm ← margin_of "Net" (latest_of income "net_income") rev_val;
          mret (gm ++ om ++ nm)%list
        else mret []
      else mret []
  | None => mret []
  end.

(** **** The annual revenue history *)

(** [seen_years[fy] = d] on a dict kept in insertion order: a key that is
    already there keeps its place. *)
Fixpoint dict_set (fy : Z) (d : observation) (seen : list (Z * observation))
  : list (Z * observation) :=
  match seen with
  | [] => [(fy, d)]
  | (k, v) :: rest =>
      if bool_decide (k = fy) then (k, d) :: rest
      else (k, v) :: dict_set fy d rest
  end.

(** [fy in seen_years] *)
Definition dict_has (fy : Z) (seen : list (Z * observation)) : bool :=
  bool_decide (fy ∈ map fst seen).

(** Body of the loop [for d in annual_data]. *)
Definition seen_years_step (seen : list (Z * observation)) (d : observation)
  : list (Z * observation) :=
  match fiscal_year d with
  | None => seen
  | Some fy =>
      if negb (dict_has fy seen) || String.eqb (fiscal_period d) "FY"
      then dict_set fy d seen
      else seen
  end.

(** The sort key [x.get("fiscal_year", 0)]. *)
Definition fy_key (d : observation) : Z := default 0 (fiscal_year d).

(** [sorted(..., key=...)], a stable sort, computed by insertion. *)
Fixpoint insert_by_fy (d : observation) (l : list observation)
  : list observation :=
  match l with
  | [] => [d]
  | x :: l' =>
      if fy_key d <=? fy_key x then d :: l else x :: insert_by_fy d l'
  end.

Definition sort_by_fy (l : list observation) : list observation :=
  foldr insert_by_fy [] l.

(** The list [annual_data] after the sort: one revenue observation per
    fiscal year. *)
Definition annual_history (rev_data : list observation) : list observation :=
  let annual_data :=
    List.filter (fun d => String.eqb (PyStr.replace_amend (form d)) "10-K")
      rev_data in
  let seen_years := foldl seen_years_step [] annual_data in
  sort_by_fy (map snd seen_years).

(** [l[-5:]] *)
Definition last_five {A} (l : list A) : list A := drop (length l - 5) l.

(** A row of the table: the revenue observation, and the values of net
    income and diluted EPS found for its period end; [None] is the dash
    printed when there is no match. *)
Record history_row := HistoryRow {
  row_revenue : observation;
  row_net_income : option pyval;
  row_eps : option pyval
}.

(** The loop [for x in data: if x["end_date"] == end_date and
    x["form"].replace("/A", empty) == "10-K": ...; break]. *)
Definition match_annual (data : list observation) (period_end : string)
  : option pyval :=
  value <$>
    find (fun x => String.eqb (end_date x) period_end
                   && String.eqb (PyStr.replace_amend (form x)) "10-K")
      data.

(** The rows of the table "Annual Revenue History"; no rows when the
    table is left out. *)
Definition history_rows (income : gmap string (list observation))
  : list history_row :=
  let rev_data := default [] (income !! "revenue") in
  let ni_data := default [] (income !! "net_income") in
  let eps_data := default [] (income !! "eps_diluted") in
  let annual_data := annual_history rev_data in
  if (2 <=? length annual_data)%nat then
    map (fun rev_entry =>
           HistoryRow rev_entry
             (match_annual ni_data (end_date rev_entry))
             (match_annual eps_data (end_date rev_entry)))
      (last_five annual_data)
  else [].

(** The numbers rendered for a row: revenue, then the net income and the
    EPS that were found. *)
Definition history_line (row : history_row) : exc unit :=
  _ ← _format_number (value (row_revenue row));
  _ ← from_option _format_number (mret tt) (row_net_income row);
  from_option _format_number (mret tt) (row_eps row).

(** **** Key ratios and free cash flow *)

(** [if equity and liabilities and equity["value"] and
    float(equity["value"]) != 0: ...] *)
Definition debt_to_equity (liabilities equity : option observation)
  : exc (list (string * spec_float)) :=
  match equity, liabilities with
  | Some eq_o, Some li_o =>
      if truthy (value eq_o) then
        e ← float (value eq_o);
        if negb (f64_eqb e f64_zero) then
          l ← float (value li_o);
          e' ← float (value eq_o);
          q ← f64_div l e';
          mret [("D/E", q)]
        else mret []
      else mret []
  | _, _ => mret []
  end.

(** [if curr_assets and curr_liab and curr_liab["value"] and
    float(curr_liab["value"]) != 0: ...] *)
Definition current_ratio (curr_assets curr_liab : option observation)
  : exc (list (string * spec_float)) :=
  match curr_assets, curr_liab with
  | Some ca_o, Some cl_o =>
      if truthy (value cl_o) then
        d ← float (value cl_o);
        if negb (f64_eqb d f64_zero) then
          a ← float (value ca_o);
          d' ← float (value cl_o);
          q ← f64_div a d';
          mret [("Current", q)]
        else mret []
      else mret []
  | _, _ => mret []
  end.

(** [if cash and lt_debt and lt_debt["value"]: ...]; the figure is
    rendered by [_format_number]. *)
Definition net_debt (cash lt_debt : option observation)
  : exc (list (string * spec_float)) :=
  match cash, lt_debt with
  | Some cash_o, Some debt_o =>
      if truthy (value debt_o) then
        d ← float (value debt_o);
        c ← float (value cash_o);
        let nd := f64_sub d c in
        _ ← _format_number (PFloat nd);
        mret [("Net Debt", nd)]
      else mret []
  | _, _ => mret []
  end.

(** The list [ratios] built in the balance sheet section. *)
Definition ratios_block (balance : gmap string (list observation))
  : exc (list (string * spec_float)) :=
  let liabilities := latest_of balance "total_liabilities" in
  let equity := latest_of balance "stockholders_equity" in
  let cash := latest_of balance "cash" in
  let lt_debt := latest_of balance "long_term_debt" in
  let curr_assets := latest_of balance "current_assets" in
  let curr_liab := latest_of balance "current_liabilities" in
  de ← debt_to_equity liabilities equity;
  cr ← current_ratio curr_assets curr_liab;
  nd ← net_debt cash lt_debt;
  mret (de ++ cr ++ nd)%list.

(** The free cash flow line of the cash flow section. *)
Definition fcf_block (cash_flow : gmap string (list observation))
  : exc (list (string * spec_float)) :=
  match latest_of cash_flow "operating_cash_flow",
        latest_of cash_flow "capex" with
  | Some ocf, Some capex =>
      if is_not_none (value ocf) && is_not_none (value capex) then
        o ← float (value ocf);
        c ← float (value capex);
        let fcf := f64_sub o (f64_abs c) in
        _ ← _format_number (PFloat fcf);
        mret [("Free Cash Flow", fcf)]
      else mret []
  | _, _ => mret []
  end.

(** The metrics document: [financials["income"]] and so on. *)
Record financials := Financials {
  income : gmap string (list observation);
  balance_sheet : gmap string (list observation);
  cash_flow : gmap string (list observation)
}.

(** [extract_financials(facts, years)]; [facts] is [None] for a missing
    payload. *)
Definition extract_financials (now_year : Z) (facts : option company_facts)
    (years : Z) : financials :=
  match facts with
  | None => Financials ∅ ∅ ∅
  | Some facts =>
      Financials (extract_category now_year facts years INCOME_CONCEPTS)
        (extract_category now_year facts years BALANCE_SHEET_CONCEPTS)
        (extract_category now_year facts years CASH_FLOW_CONCEPTS)
  end.

Record derived := Derived {
  margins : list (string * spec_float);
  ratios : list (string * spec_float);
  free_cash_flow : list (string * spec_float)
}.

(** The three sections, entered only when their dict is not empty
    ([if income:], [if balance:], [if cash_flow:]). *)
Definition income_section (income : gmap string (list observation))
  : exc (list (string * spec_float)) :=
  if decide (income = ∅) then mret []
  else
    _ ← for_each (metric_line income) INCOME_LINES;
    m ← margins_block income;
    _ ← for_each history_line (history_rows income);
    mret m.

Definition balance_section (balance : gmap string (list observation))
  : exc (list (string * spec_float)) :=
  if decide (balance = ∅) then mret []
  else
    _ ← for_each (metric_line balance) BALANCE_SHEET_LINES;
    ratios_block balance.

Definition cash_flow_section (cash_flow : gmap string (list observation))
  : exc (list (string * spec_float)) :=
  if decide (cash_flow = ∅) then mret []
  else
    _ ← for_each (metric_line cash_flow) CASH_FLOW_LINES;
    fcf_block cash_flow.

(** The derived figures in the order [format_fundamentals_markdown]
    computes them, once the company overview, which reads only
    [supplementary], is written. An exception raised in a section leaves
    the function. *)
Definition derive (fin : financials) : exc derived :=
  m ← income_section (income fin);
  r ← balance_section (balance_sheet fin);
  f ← cash_flow_section (cash_flow fin);
  mret (Derived m r f).

(** *** Vocabulary of the properties proved below *)

(** Observations ordered by period end, as [str] compares them. *)
Definition by_end_date : relation observation :=
  fun a b => String.le (end_date a) (end_date b).

(** A period end in the ISO form YYYY-MM-DD, read as year, month and
    day. *)
Definition is_digit (c : ascii) : bool :=
  ((48 <=? N_of_ascii c) && (N_of_ascii c <=? 57))%N.

Definition digit (c : ascii) : N := (N_of_ascii c - 48)%N.

Definition iso_date (s : string) : option (N * N * N) :=
  match list_ascii_of_string s with
  | [y1; y2; y3; y4; h1; m1; m2; h2; d1; d2] =>
      if forallb is_digit [y1; y2; y3; y4; m1; m2; d1; d2]
         && Ascii.eqb h1 "-" && Ascii.eqb h2 "-"
      then Some (1000 * digit y1 + 100 * digit y2 + 10 * digit y3 + digit y4,
                 10 * digit m1 + digit m2,
                 10 * digit d1 + digit d2)%N
      else None
  | _ => None
  end.

(** Calendar order on (year, month, day). *)
Definition date_le (a b : N * N * N) : Prop :=
  let '(y1, m1, d1) := a in
  let '(y2, m2, d2) := b in
  (y1 < y2 \/ (y1 = y2 /\ (m1 < m2 \/ (m1 = m2 /\ d1 <= d2))))%N.

(** The observations of alias [a] under unit kind [u] that survive the
    form, date and look-back filters. *)
Definition surviving (now_year : Z) (facts : company_facts) (years : Z)
    (a u : string) : list observation :=
  filter_entries (now_year - years)
    (default [] (units_of (us_gaap_of facts) a !! u)).

(** Alias [a] has data: some unit kind of the priority list has a
    surviving observation. *)
Definition has_data (now_year : Z) (facts : company_facts) (years : Z)
    (a : string) : Prop :=
  exists u, u ∈ unit_types /\ surviving now_year facts years a u <> [].

(** A value that is exactly zero: the integer [0] or a float zero of
    either sign. *)
Definition is_zero (v : pyval) : Prop :=
  v = PInt 0 \/ exists sign, v = PFloat (S754_zero sign).

(** An integer that [float] cannot convert. *)
Definition overflows (v : pyval) : bool :=
  match v with
  | PInt z =>
      match f64_of_Z z with
      | S754_infinity _ => true
      | _ => false
      end
  | _ => false
  end.

(** The observations of a metrics document. *)
Definition observation_of (fin : financials) (o : observation) : Prop :=
  exists section metric data,
    section ∈ [income fin; balance_sheet fin; cash_flow fin] /\
    section !! metric = Some data /\ o ∈ data.

(** The numerator metric behind each margin label. *)
Definition margin_table : list (string * string) :=
  [("gross_profit", "Gross"); ("operating_income", "Operating");
   ("net_income", "Net")].

End Fundamentals.

(** ** The gather orchestrator *)

Module Orchestrator.

(** *** Results exchanged with the collaborators *)

(** The dict an external gather function returns, as far as [run_source]
    reads it; a field is [None] when the key is absent. *)
Record source_payload := SourcePayload {
  p_markdown : option string;
  p_article_count : option Z;
  p_filing_count : option Z;
  p_metric_count : option Z;
  p_post_count : option Z;
  p_signal_count : option Z
}.

(** Outcome of the [try] body of [run_source], which imports the module
    of the source, looks its gather function up and calls it: the
    payload, or an exception whose [str(e)] is [msg], raised by the
    import, the lookup or the call. *)
Inductive call_outcome :=
| Returned (payload : source_payload)
| Raised (msg : string).

(** Outcome of [from store import f; f(...)]. *)
Inductive sink_outcome (A : Type) :=
| SinkReturned (a : A)
| SinkImportError
| SinkRaised (msg : string).
Arguments SinkReturned {A} a.
Arguments SinkImportError {A}.
Arguments SinkRaised {A} msg.

(** The sink was called: its import did not fail. *)
Definition reached {A} (o : sink_outcome A) : bool :=
  match o with
  | SinkImportError => false
  | _ => true
  end.

(** The dict [run_source] returns. *)
Record gather_result := GatherResult {
  source : string;
  success : bool;
  markdown : string;
  metric_count : Z;
  error : option string
}.

(** The dict [store_source_result] returns. *)
Record store_result := StoreResult {
  sr_success : bool;
  sr_key : option string;
  sr_message : option string
}.

(** The dict [trigger_reindex] returns. *)
Record reindex_result := ReindexResult {
  rx_success : bool;
  rx_message : string
}.

(** *** Effects: a world, and a trace of the calls made *)

(** The observable steps of an invocation:
    - [EvRunSource s]: [run_source] is entered for source [s];
    - [EvFetch s]: the [try] body of [run_source] is entered for [s], that
      is, the import of its module and the call of its gather function
      are attempted;
    - [EvSleep]: [time.sleep(0.2)];
    - [EvUpload s]: [upload_to_spaces] is called for [s]; nothing is
      recorded when [from store import upload_to_spaces] fails, since the
      sink is not reached;
    - [EvReindex]: [trigger_kb_reindex] is called; nothing is recorded
      when its import fails. *)
Inductive event :=
| EvRunSource (source : string)
| EvFetch (source : string)
| EvSleep
| EvUpload (source : string)
| EvReindex.

Global Instance event_eq_dec : EqDecision event.
Proof. solve_decision. Defined.

(** The collaborators, acting on a world [W]. *)
Record env (W : Type) := Env {
  utc_now_isoformat : W -> string;
  gather_func : string -> string -> string -> string -> option string ->
                option string -> W -> call_outcome * W;
  upload_to_spaces : string -> string -> string -> string -> W ->
                     sink_outcome store_result * W;
  trigger_kb_reindex : W -> sink_outcome reindex_result * W;
  sleep : W -> W
}.
Arguments utc_now_isoformat {W} _ _.
Arguments gather_func {W} _ _ _ _ _ _ _ _.
Arguments upload_to_spaces {W} _ _ _ _ _ _.
Arguments trigger_kb_reindex {W} _ _.
Arguments sleep {W} _ _.

(** A computation returns a value, the events it emitted in order, and
    the new world. *)
Definition M (W A : Type) : Type := W -> A * list event * W.

Definition ret {W A} (a : A) : M W A := fun w => (a, [], w).

Definition bind {W A B} (m : M W A) (f : A -> M W B) : M W B :=
  fun w =>
    let '(a, t1, w1) := m w in
    let '(b, t2, w2) := f a w1 in
    (b, (t1 ++ t2)%list, w2).

Definition emit {W} (e : event) : M W unit := fun w => (tt, [e], w).

Definition result_of {A W} (r : A * list event * W) : A := r.1.1.
Definition trace_of {A W} (r : A * list event * W) : list event := r.1.2.
Definition world_of {A W} (r : A * list event * W) : W := r.2.

Declare Scope orch_scope.
Delimit Scope orch_scope with orch.
Notation "x <~ m ;; k" := (bind m (fun x => k))
  (at level 100, m at next level, right associativity) : orch_scope.
Notation "m ;;; k" := (bind m (fun _ => k))
  (at level 100, right associativity) : orch_scope.
Local Open Scope orch_scope.

Section WithEnv.
Context {W : Type} (E : env W).

(** *** Registry *)

Definition SOURCE_REGISTRY : gmap string (string * string) :=
  list_to_map [("web", ("gather_web", "gather_web"));
               ("fundamentals", ("gather_fundamentals", "gather_fundamentals"));
               ("social", ("gather_social", "gather_social"));
               ("technicals", ("gather_technicals", "gather_technicals"))].

Definition AGENT_SOURCES : gmap string (list string) :=
  list_to_map [("nova", ["web"; "fundamentals"]);
               ("luna", ["social"]);
               ("ace", ["technicals"]);
               ("max", [])].

(** *** Calls to the collaborators *)

(** The [try] body of [run_source]: the environment imports the module,
    looks the gather function up and calls it; the step is recorded when
    the body is entered. *)
Definition call_gather (source module_name func_name ticker
    company_name : string) (theme directive : option string)
  : M W call_outcome :=
  fun w =>
    let '(o, w') := gather_func E module_name func_name ticker
                      company_name theme directive w in
    (o, [EvFetch source], w').

(** [from store import upload_to_spaces] followed by the call; the call
    is recorded when the import lets it happen. *)
Definition call_upload (markdown ticker source timestamp : string)
  : M W (sink_outcome store_result) :=
  fun w =>
    let '(o, w') := upload_to_spaces E markdown ticker source timestamp w in
    (o, if reached o then [EvUpload source] else [], w').

(** [from store import trigger_kb_reindex] followed by the call. *)
Definition call_reindex : M W (sink_outcome reindex_result) :=
  fun w =>
    let '(o, w') := trigger_kb_reindex E w in
    (o, if reached o then [EvReindex] else [], w').

Definition call_sleep : M W unit :=
  fun w => (tt, [EvSleep], sleep E w).

(** *** [run_source] *)

Definition count_of (source : string) (result : source_payload) : Z :=
  if bool_decide (source = "web") then
    default 0 (p_article_count result) + default 0 (p_filing_count result)
  else if bool_decide (source = "fundamentals") then
    default 0 (p_metric_count result)
  else if bool_decide (source = "social") then
    default 0 (p_post_count result)
  else if bool_decide (source = "technicals") then
    default 0 (p_signal_count result)
  else 0.

Definition run_source (source ticker company_name : string)
    (theme directive : option string) : M W gather_result :=
  emit (EvRunSource source) ;;;
  match SOURCE_REGISTRY !! source with
  | None =>
      ret {| source := source; success := false; markdown := EmptyString;
             metric_count := 0;
             error := Some ("Unknown source: " ++ source) |}
  | Some (module_name, func_name) =>
      o <~ call_gather source module_name func_name ticker company_name
             theme directive ;;
      match o with
      | Returned result =>
          ret {| source := source; success := true;
                 markdown := default EmptyString (p_markdown result);
                 metric_count := count_of source result;
                 error := None |}
      | Raised msg =>
          ret {| source := source; success := false; markdown := EmptyString;
                 metric_count := 0; error := Some msg |}
      end
  end.

(** *** [store_source_result] and [trigger_reindex] *)

Definition store_source_result (ticker source markdown timestamp : string)
    (dry_run : bool) : M W store_result :=
  if dry_run then
    let date_str := PyStr.take 10 timestamp in
    let key := "research/" ++ date_str ++ "/" ++ ticker ++ "_" ++ source
               ++ ".md" in
    ret {| sr_success := true; sr_key := Some key;
           sr_message := Some ("[DRY RUN] Would upload to " ++ key) |}
  else
    o <~ call_upload markdown ticker source timestamp ;;
    match o with
    | SinkReturned result => ret result
    | SinkImportError =>
        ret {| sr_success := false; sr_key := Some EmptyString;
               sr_message :=
                 Some "store.py not available — cannot upload to Spaces" |}
    | SinkRaised msg =>
        ret {| sr_success := false; sr_key := Some EmptyString;
               sr_message := Some ("Upload failed: " ++ msg) |}
    end.

Definition trigger_reindex (dry_run : bool) : M W reindex_result :=
  if dry_run then
    ret {| rx_success := true;
           rx_message := "[DRY RUN] Would trigger KB reindex" |}
  else
    o <~ call_reindex ;;
    match o with
    | SinkReturned result => ret result
    | SinkImportError =>
        ret {| rx_success := false;
               rx_message :=
                 "store.py not available — cannot trigger reindex" |}
    | SinkRaised msg =>
        ret {| rx_success := false;
               rx_message := "Reindex failed: " ++ msg |}
    end.

(** *** [gather] *)

(** [_source_label(source, count)] *)
Definition _source_label (source : string) (count : Z) : string :=
  let labels : gmap string string :=
    list_to_map [("web", pretty count ++ " articles/filings");
                 ("fundamentals", pretty count ++ " financial metrics");
                 ("social", pretty count ++ " social posts");
                 ("technicals", pretty count ++ " technical signals")] in
  default (pretty count ++ " items from " ++ source) (labels !! source).

(** Entries of the returned dict. *)
Record gather_entry := GatherEntry {
  ge_source : string;
  ge_success : bool;
  ge_metric_count : Z;
  ge_error : option string
}.

Record store_entry := StoreEntry {
  se_source : string;
  se_success : bool;
  se_key : string;
  se_message : string
}.

(** The dict [gather] returns; [r_dry_run] is [None] on the early
    return, which has no such key. *)
Record report := Report {
  r_ticker : string;
  r_company : string;
  r_agent : string;
  r_timestamp : string;
  r_sources : list string;
  r_gather_results : list gather_entry;
  r_store_results : list store_entry;
  r_reindex : reindex_result;
  r_summary : string;
  r_success : bool;
  r_dry_run : option bool
}.

(** Step 1, the loop [for source in sources]; [last_source] is
    [sources[-1]]. *)
Fixpoint gather_loop (last_source ticker company_name : string)
    (theme directive : option string) (srcs : list string)
  : M W (list gather_result) :=
  match srcs with
  | [] => ret []
  | source :: rest =>
      result <~ run_source source ticker company_name theme directive ;;
      (if bool_decide (source ≠ last_source) then call_sleep else ret tt) ;;;
      results <~ gather_loop last_source ticker company_name theme
                   directive rest ;;
      ret (result :: results)
  end.

(** The test [gr["success"] and gr["markdown"]]. *)
Definition storable (gr : gather_result) : bool :=
  success gr && negb (bool_decide (markdown gr = EmptyString)).

(** Step 2, the loop [for gr in gather_results]; the pair returned is
    [(store_results, any_stored)]. *)
Fixpoint store_loop (ticker timestamp : string) (dry_run : bool)
    (any_stored : bool) (grs : list gather_result)
  : M W (list store_result * bool) :=
  match grs with
  | [] => ret ([], any_stored)
  | gr :: rest =>
      if storable gr then
        sr <~ store_source_result ticker (source gr) (markdown gr)
                timestamp dry_run ;;
        r <~ store_loop ticker timestamp dry_run
               (if sr_success sr then true else any_stored) rest ;;
        ret (sr :: r.1, r.2)
      else
        r <~ store_loop ticker timestamp dry_run any_stored rest ;;
        ret ({| sr_success := false; sr_key := Some EmptyString;
                sr_message :=
                  Some ("Skipped: " ++ source gr ++ " gather failed") |}
               :: r.1, r.2)
  end.

(** Step 3 *)
Definition reindex_step (dry_run any_stored : bool) : M W reindex_result :=
  if any_stored then trigger_reindex dry_run
  else ret {| rx_success := false;
              rx_message := "No data stored — skipping reindex" |}.

(** Step 4, the digest. *)
Definition succeeded_of (grs : list gather_result) : list gather_result :=
  List.filter success grs.

Definition failed_of (grs : list gather_result) : list gather_result :=
  List.filter (fun gr => negb (success gr)) grs.

Definition summary_head (ticker : string) (grs : list gather_result)
  : string :=
  match map (fun gr => _source_label (source gr) (metric_count gr))
          (succeeded_of grs) with
  | [] => "$" ++ ticker ++ ": no data gathered"
  | summary_parts => "$" ++ ticker ++ ": " ++ PyStr.join ", " summary_parts
  end.

Definition failed_clause (grs : list gather_result) : string :=
  match failed_of grs with
  | [] => EmptyString
  | failed => " (failed: " ++ PyStr.join ", " (map source failed) ++ ")"
  end.

Definition build_summary (ticker : string) (grs : list gather_result)
  : string :=
  summary_head ticker grs ++ failed_clause grs.

(** [sources = AGENT_SOURCES.get(agent, [])] when [sources is None]. *)
Definition resolve_sources (agent : string) (sources : option (list string))
  : list string :=
  match sources with
  | Some l => l
  | None => default [] (AGENT_SOURCES !! agent)
  end.

(** The dict returned at the end of [gather]. *)
Definition final_report (ticker company_name agent timestamp : string)
    (sources : list string) (gather_results : list gather_result)
    (store_results : list store_result) (reindex_result : reindex_result)
    (dry_run : bool) : report :=
  {| r_ticker := ticker; r_company := company_name;
     r_agent := agent; r_timestamp := timestamp;
     r_sources := sources;
     r_gather_results :=
       map (fun gr => GatherEntry (source gr) (success gr)
                        (metric_count gr) (error gr))
         gather_results;
     r_store_results :=
       imap (fun i sr =>
               StoreEntry (default "unknown" (sources !! i))
                 (sr_success sr)
                 (default EmptyString (sr_key sr))
                 (default EmptyString (sr_message sr)))
         store_results;
     r_reindex := reindex_result;
     r_summary := build_summary ticker gather_results;
     r_success :=
       bool_decide (0 < length (succeeded_of gather_results))%nat;
     r_dry_run := Some dry_run |}.

(** The dict returned when there is no source to run. *)
Definition no_sources_report (ticker company_name agent timestamp : string)
  : report :=
  {| r_ticker := ticker; r_company := company_name;
     r_agent := agent; r_timestamp := timestamp;
     r_sources := []; r_gather_results := [];
     r_store_results := [];
     r_reindex := {| rx_success := false;
                     rx_message := "No sources to gather" |};
     r_summary := "No sources configured for agent '" ++ agent ++ "'";
     r_success := false; r_dry_run := None |}.

(** [gather(ticker, company_name, agent, sources, theme, directive,
    dry_run)] *)
Definition gather (ticker company_name agent : string)
    (sources : option (list string)) (theme directive : option string)
    (dry_run : bool) : M W report :=
  fun w0 =>
  let timestamp := utc_now_isoformat E w0 in
  let sources := resolve_sources agent sources in
  match sources with
  | [] => ret (no_sources_report ticker company_name agent timestamp) w0
  | _ =>
      (gather_results <~ gather_loop (List.last sources EmptyString) ticker
                           company_name theme directive sources ;;
       stored <~ store_loop ticker timestamp dry_run false gather_results ;;
       reindex_result <~ reindex_step dry_run stored.2 ;;
       ret (final_report ticker company_name agent timestamp sources
              gather_results stored.1 reindex_result dry_run)) w0
  end.

End WithEnv.

(** *** Vocabulary of the properties proved below *)

(** What one call of [run_source] emits: its own entry, then the fetch
    when the source is registered. *)
Definition run_events (s : string) : list event :=
  EvRunSource s ::
  (if decide (is_Some (SOURCE_REGISTRY !! s)) then [EvFetch s] else []).

(** The pause after source [s], as the loop decides it. *)
Definition pacing (last_source s : string) : list event :=
  if bool_decide (s ≠ last_source) then [EvSleep] else [].

(** The sinks can be imported from the store module: no call of
    [upload_to_spaces], respectively of [trigger_kb_reindex], ends in an
    [ImportError]. *)
Definition upload_importable {W} (E : env W) : Prop :=
  forall markdown ticker source timestamp w,
    reached (upload_to_spaces E markdown ticker source timestamp w).1 = true.

Definition reindex_importable {W} (E : env W) : Prop :=
  forall w, reached (trigger_kb_reindex E w).1 = true.

(** The reindex sink is reached if and only if some store result of the
    report succeeded. *)
Definition reindex_iff_stored {W} (r : report * list event * W) : Prop :=
  EvReindex ∈ trace_of r <->
  exists se, se ∈ r_store_results (result_of r) /\ se_success se = true.

End Orchestrator.

(** ** Concrete inputs used in the evaluations below *)

Module Inputs.
Import Fundamentals.

(** A 10-K figure and its later amendment for the same period. *)
Definition original_filing : raw_entry :=
  RawEntry (PInt 100) (Some "2024-12-31") (Some "10-K") (Some "2025-02-01")
    (Some 2024) (Some "FY").

Definition amended_filing : raw_entry :=
  RawEntry (PInt 110) (Some "2024-12-31") (Some "10-K/A") (Some "2025-06-01")
    (Some 2024) (Some "FY").

Definition facts_of (concept_name unit_type : string)
    (entries : list raw_entry) : company_facts :=
  CompanyFacts
    (Some {[ "us-gaap" :=
               {[ concept_name := Concept (Some {[ unit_type := entries ]}) ]} ]}).

Definition amended_facts : company_facts :=
  facts_of "Revenues" "USD" [original_filing; amended_filing].

Definition obs (v : pyval) (end_date form : string) : observation :=
  Observation v end_date form "2025-02-01" (Some 2024) "FY".

(** A balance sheet payload whose liabilities record carries no ["val"]
    key, next to a regular equity record. *)
Definition liabilities_without_val : raw_entry :=
  RawEntry PNone (Some "2024-12-31") (Some "10-K") (Some "2025-02-01")
    (Some 2024) (Some "FY").

Definition equity_entry : raw_entry :=
  RawEntry (PInt 100) (Some "2024-12-31") (Some "10-K") (Some "2025-02-01")
    (Some 2024) (Some "FY").

Definition null_liabilities_facts : company_facts :=
  CompanyFacts
    (Some {[ "us-gaap" :=
               {[ "Liabilities" :=
                    Concept (Some {[ "USD" := [liabilities_without_val] ]});
                  "StockholdersEquity" :=
                    Concept (Some {[ "USD" := [equity_entry] ]}) ]} ]}).

(** Revenue of 1000 with a gross profit of exactly zero. *)
Definition zero_gross_income : gmap string (list observation) :=
  {[ "revenue" := [obs (PInt 1000) "2024-12-31" "10-K"];
     "gross_profit" := [obs (PInt 0) "2024-12-31" "10-K"] ]}.

End Inputs.

(** Concrete collaborators over a one-point world. *)

Module Worlds.
Import Orchestrator.

Definition sample_payload : source_payload :=
  SourcePayload (Some "# Report") (Some 3) (Some 2) (Some 16) (Some 10)
    (Some 4).

Definition stored_ok : store_result :=
  StoreResult true (Some "research/2026-11-03/CAKE_web.md") (Some "Uploaded").

(** Every source answers, the sinks accept. *)
Definition all_up : env unit :=
  Env unit
    (fun _ => "2026-11-03T10:00:00+00:00")
    (fun _ _ _ _ _ _ w => (Returned sample_payload, w))
    (fun _ _ _ _ w => (SinkReturned stored_ok, w))
    (fun w => (SinkReturned (ReindexResult true "Indexing started"), w))
    (fun w => w).

(** As [all_up], but the web gatherer raises. *)
Definition web_down : env unit :=
  Env unit
    (fun _ => "2026-11-03T10:00:00+00:00")
    (fun module_name _ _ _ _ _ w =>
       if bool_decide (module_name = "gather_web")
       then (Raised "API unavailable", w)
       else (Returned sample_payload, w))
    (fun _ _ _ _ w => (SinkReturned stored_ok, w))
    (fun w => (SinkReturned (ReindexResult true "Indexing started"), w))
    (fun w => w).

End Worlds.

(** ** Reading a trace *)

Module Traces.
Import Orchestrator.

(** The sources for which [run_source] was entered, in order. *)
Definition runs (t : list event) : list string :=
  omap (fun e => match e with EvRunSource s => Some s | _ => None end) t.

(** The sources for which the [try] body of [run_source] was entered,
    that is, whose import and call were attempted, in order. *)
Definition fetches (t : list event) : list string :=
  omap (fun e => match e with EvFetch s => Some s | _ => None end) t.

(** The sources for which the storage sink was called, in order. *)
Definition uploads (t : list event) : list string :=
  omap (fun e => match e with EvUpload s => Some s | _ => None end) t.

(** The runs and the pauses of a trace, everything else left out. *)
Definition run_or_sleep (e : event) : bool :=
  match e with
  | EvRunSource _ | EvSleep => true
  | _ => false
  end.

(** [source in SOURCE_REGISTRY] *)
Definition registered (s : string) : bool :=
  bool_decide (is_Some (SOURCE_REGISTRY !! s)).

(** The key a dry run announces for a source. *)
Definition dry_run_key (ticker timestamp source : string) : string :=
  "research/" ++ PyStr.take 10 timestamp ++ "/" ++ ticker ++ "_" ++ source
  ++ ".md".

(** The fixed endings of the labels of [_source_label]. *)
Definition label_suffixes : list string :=
  [" articles/filings"; " financial metrics"; " social posts";
   " technical signals"].

(** The store result recorded for a gather result that is not stored. *)
Definition skipped_result (gr : gather_result) : store_result :=
  {| sr_success := false; sr_key := Some EmptyString;
     sr_message := Some ("Skipped: " ++ source gr ++ " gather failed") |}.

(** The store result a dry run records for a gather result it would
    store. *)
Definition dry_result (ticker timestamp : string) (gr : gather_result)
  : store_result :=
  {| sr_success := true;
     sr_key := Some (dry_run_key ticker timestamp (source gr));
     sr_message :=
       Some ("[DRY RUN] Would upload to "
             ++ dry_run_key ticker timestamp (source gr)) |}.

(** The entry of the report made from a store result. *)
Definition entry_of (src : string) (sr : store_result) : store_entry :=
  StoreEntry src (sr_success sr) (default EmptyString (sr_key sr))
    (default EmptyString (sr_message sr)).

(** The entry of the report for a source that was not stored. *)
Definition skipped_entry (s : string) : store_entry :=
  StoreEntry s false EmptyString ("Skipped: " ++ s ++ " gather failed").

End Traces.

(** A world in which every gather function raises. *)
Module MoreWorlds.
Import Orchestrator.

Definition all_down : env unit :=
  Env unit
    (fun _ => "2026-11-03T10:00:00+00:00")
    (fun _ _ _ _ _ _ w => (Raised "API unavailable", w))
    (fun _ _ _ _ w => (SinkReturned Worlds.stored_ok, w))
    (fun w => (SinkReturned (ReindexResult true "Indexing started"), w))
    (fun w => w).

(** Every source answers, but the store module cannot be imported. *)
Definition store_missing : env unit :=
  Env unit
    (fun _ => "2026-11-03T10:00:00+00:00")
    (fun _ _ _ _ _ _ w => (Returned Worlds.sample_payload, w))
    (fun _ _ _ _ w => (SinkImportError, w))
    (fun w => (SinkImportError, w))
    (fun w => w).

(** Every source answers and is stored, but the store module has no
    [trigger_kb_reindex] to import. *)
Definition reindex_missing : env unit :=
  Env unit
    (fun _ => "2026-11-03T10:00:00+00:00")
    (fun _ _ _ _ _ _ w => (Returned Worlds.sample_payload, w))
    (fun _ _ _ _ w => (SinkReturned Worlds.stored_ok, w))
    (fun w => (SinkImportError, w))
    (fun w => w).

End MoreWorlds.

(** ** The command line of the orchestrator *)

Module Cli.
Import Orchestrator.

(** [s.upper()] on ASCII letters. *)
Definition upper_char (c : ascii) : ascii :=
  let n := N_of_ascii c in
  if ((97 <=? n) && (n <=? 122))%N then ascii_of_N (n - 32) else c.

Fixpoint upper (s : string) : string :=
  match s with
  | String c rest => String (upper_char c) (upper rest)
  | EmptyString => EmptyString
  end.

(** [s.lstrip("$")] *)
Fixpoint lstrip_dollar (s : string) : string :=
  match s with
  | String "$" rest => lstrip_dollar rest
  | _ => s
  end.

(** [s.split(",")]: the pieces between commas, at least one. *)
Fixpoint split_comma (s : string) : list string :=
  match s with
  | EmptyString => [EmptyString]
  | String c rest =>
      if Ascii.eqb c "," then EmptyString :: split_comma rest
      else
        match split_comma rest with
        | p :: ps => String c p :: ps
        | [] => [String c EmptyString]
        end
  end.

(** [VALID_AGENTS], the choices of [--agent]. *)
Definition VALID_AGENTS : list string := ["nova"; "luna"; "ace"; "max"].

(** The values of the options on the command line; the three required
    ones are present. [--json] and [--output] only change what is printed
    and are left out. *)
Record cli_args := CliArgs {
  a_ticker : string;
  a_name : string;
  a_agent : string;
  a_sources : option string;
  a_theme : option string;
  a_directive : option string;
  a_dry_run : bool
}.

(** The list [sources] of [main]: [None] without [--sources] or with an
    empty one. *)
Definition parse_sources (arg : option string) : option (list string) :=
  match arg with
  | Some s =>
      if bool_decide (s = EmptyString) then None
      else Some (map PyStr.strip (split_comma s))
  | None => None
  end.

(** [invalid = [s for s in sources if s not in SOURCE_REGISTRY]] *)
Definition invalid_sources (sources : list string) : list string :=
  List.filter (fun s => negb (Traces.registered s)) sources.

(** [ticker = args.ticker.upper().lstrip("$")] *)
Definition cli_ticker (args : cli_args) : string :=
  lstrip_dollar (upper (a_ticker args)).

Section WithEnv.
Context {W : Type} (E : env W).

(** [main()], as the exit status of the process: 2 when [parse_args]
    rejects an agent outside [VALID_AGENTS], [sys.exit(1)] on an unknown
    source or when nothing succeeded, 0 otherwise. What [main] prints is
    left out. *)
Definition main (args : cli_args) : M W Z :=
  if bool_decide (a_agent args ∈ VALID_AGENTS) then
    let ticker := cli_ticker args in
    let sources := parse_sources (a_sources args) in
    match invalid_sources (default [] sources) with
    | _ :: _ => ret 1
    | [] =>
        bind (gather E ticker (a_name args) (a_agent args) sources
                (a_theme args) (a_directive args) (a_dry_run args))
          (fun result => ret (if r_success result then 0 else 1))
    end
  else ret 2.

End WithEnv.

End Cli.

(** ** Further functions of the fundamentals module *)

Module FundamentalsMore.
Import Fundamentals.

(** The test of the dedup loop on a key. *)
Definition has_key (k : string * string) (r : observation) : bool :=
  bool_decide (dedup_key r = k).

(** [table.get(metric)] on one of the concept tables. *)
Fixpoint aliases_of (table : list (string * list string)) (metric : string)
  : option (list string) :=
  match table with
  | [] => None
  | (m, names) :: rest =>
      if bool_decide (m = metric) then Some names else aliases_of rest metric
  end.

(** The series a category holds for a metric: the extracted data of its
    aliases when there is any, no entry otherwise. *)
Definition expected_series (now_year : Z) (facts : company_facts) (years : Z)
    (table : list (string * list string)) (metric : string)
  : option (list observation) :=
  match aliases_of table metric with
  | Some names =>
      match _extract_concept_data now_year facts names years with
      | [] => None
      | data => Some data
      end
  | None => None
  end.

(** The count of extracted metrics in [gather_fundamentals]:
    [len(financials["income"]) + len(financials["balance_sheet"])
     + len(financials["cash_flow"])]. *)
Definition metric_count_of (fin : financials) : nat :=
  (size (income fin) + size (balance_sheet fin) + size (cash_flow fin))%nat.

(** The metrics whose latest value is a numerator of a key ratio. *)
Definition ratio_numerators : list string :=
  ["total_liabilities"; "current_assets"; "cash"].

End FundamentalsMore.

(** ** The CIK lookup of the fundamentals module *)

Module Cik.
Import Cli.

(** The field [cik_str] of an entry of [company_tickers.json]: absent, a
    number or a string. *)
Inductive cik_field :=
| CikMissing
| CikInt (n : Z)
| CikStr (s : string).

(** A value of [data.values()]: an object with its fields [ticker] and
    [cik_str], or a value on which [entry.get] or [.upper()] raises. *)
Inductive tickers_item :=
| TickerEntry (ticker : option string) (cik_str : cik_field)
| Malformed.

(** What the request for the ticker file comes to: an exception of
    [requests.get], [raise_for_status] or [json], or the values of the
    decoded object. *)
Inductive response :=
| RequestFailed
| Payload (items : list tickers_item).

(** [str(entry.get("cik_str", empty))] *)
Definition str_of (c : cik_field) : string :=
  match c with
  | CikMissing => EmptyString
  | CikInt n => pretty n
  | CikStr s => s
  end.

Fixpoint zeros (n : nat) : string :=
  match n with
  | O => EmptyString
  | S n' => String "0" (zeros n')
  end.

(** [s.zfill(width)]: zeros on the left up to [width] characters, after a
    leading sign. *)
Definition zfill (width : nat) (s : string) : string :=
  let fill := zeros (width - String.length s) in
  match s with
  | String c rest =>
      if Ascii.eqb c "+" || Ascii.eqb c "-" then String c (fill ++ rest)
      else fill ++ s
  | EmptyString => fill
  end.

(** The loop [for entry in data.values()] on [_CIK_CACHE]: the cache it
    leaves, and whether it ran to its end. *)
Fixpoint fill_cache (items : list tickers_item) (cache : gmap string string)
  : bool * gmap string string :=
  match items with
  | [] => (true, cache)
  | TickerEntry t c :: rest =>
      fill_cache rest
        (<[upper (default EmptyString t) := zfill 10 (str_of c)]> cache)
  | Malformed :: _ => (false, cache)
  end.

(** The outcome of a call: the value returned, [_CIK_CACHE] after it and
    the number of requests sent. *)
Record lookup := Lookup {
  l_cik : option string;
  l_cache : gmap string string;
  l_requests : nat
}.

(** [resolve_cik(ticker)], on the cache it finds and the response the
    request gets if it is sent. *)
Definition resolve_cik (resp : response) (cache : gmap string string)
    (ticker : string) : lookup :=
  let ticker_upper := upper ticker in
  match cache !! ticker_upper with
  | Some cik => Lookup (Some cik) cache 0
  | None =>
      match resp with
      | RequestFailed => Lookup None cache 1
      | Payload items =>
          let '(completed, cache') := fill_cache items cache in
          Lookup (if completed : bool then cache' !! ticker_upper else None)
            cache' 1
      end
  end.

(** Every cached CIK has ten characters or more. *)
Definition padded (cache : gmap string string) : Prop :=
  forall t cik, cache !! t = Some cik -> (10 <= String.length cik)%nat.

(** The file of the test suite. *)
Definition sample_tickers : response :=
  Payload [TickerEntry (Some "CAKE") (CikInt 887596);
           TickerEntry (Some "BNTX") (CikInt 1776661)].

End Cik.

(** ** Properties of the temporal extractor *)

Module FundamentalsProofs.
Import Fundamentals.

Global Instance by_end_date_trans : Transitive by_end_date.
Proof. intros a b c Hab Hbc. unfold by_end_date in *. by etrans. Qed.

Lemma by_end_date_total a b : by_end_date a b \/ by_end_date b a.
Proof. unfold by_end_date. apply (total String.le). Qed.

Lemma leb_by_end_date a b :
  String.leb (end_date a) (end_date b) = true <-> by_end_date a b.
Proof. unfold by_end_date, String.le. by rewrite Is_true_true. Qed.

(** On ISO dates the order of [str] is the order of the calendar. *)
Lemma is_digit_decomp c :
  is_digit c = true -> exists d, N_of_ascii c = (d + 48)%N /\ (d <= 9)%N.
Proof.
  unfold is_digit. rewrite andb_true_iff, !N.leb_le. intros [Hlo Hhi].
  exists (N_of_ascii c - 48)%N. lia.
Qed.

Lemma iso_date_order s1 s2 a b :
  iso_date s1 = Some a -> iso_date s2 = Some b ->
  (String.le s1 s2 <-> date_le a b).
Proof.
  unfold iso_date.
  destruct s1 as [|x1 [|x2 [|x3 [|x4 [|g1 [|p1 [|p2 [|g2 [|e1 [|e2 [|? ?]]]]]]]]]]];
    try done.
  destruct s2 as [|y1 [|y2 [|y3 [|y4 [|h1 [|q1 [|q2 [|h2 [|f1 [|f2 [|? ?]]]]]]]]]]];
    try done.
  cbn [list_ascii_of_string]. intros Hs1 Hs2.
  match type of Hs1 with
  | (if ?c then _ else _) = _ => destruct c eqn:H1; [|done]
  end.
  match type of Hs2 with
  | (if ?c then _ else _) = _ => destruct c eqn:H2; [|done]
  end.
  injection Hs1 as <-. injection Hs2 as <-.
  cbn [forallb] in H1, H2.
  rewrite !andb_true_iff in H1, H2.
  destruct H1 as [[(X1 & X2 & X3 & X4 & P1 & P2 & E1 & E2 & _) G1] G2].
  destruct H2 as [[(Y1 & Y2 & Y3 & Y4 & Q1 & Q2 & F1 & F2 & _) H1] H2].
  apply Ascii.eqb_eq in G1 as ->, G2 as ->, H1 as ->, H2 as ->.
  unfold String.le, String.leb, date_le, digit.
  cbn [String.compare]. unfold Ascii.compare.
  change (N_of_ascii "-" ?= N_of_ascii "-")%N with Eq.
  repeat match goal with
         | H : is_digit ?c = true |- _ =>
             apply is_digit_decomp in H as (? & -> & ?)
         end.
  rewrite !N.add_sub.
  repeat match goal with
         | |- context [(?n + 48 ?= ?m + 48)%N] =>
             destruct (N.compare_spec (n + 48) (m + 48)); cbv iota
         end; cbn [Is_true]; lia.
Qed.

Lemma by_end_date_iso (o1 o2 : observation) a b :
  iso_date (end_date o1) = Some a -> iso_date (end_date o2) = Some b ->
  (by_end_date o1 o2 <-> date_le a b).
Proof. apply iso_date_order. Qed.

(** *** The sort *)

Lemma insert_by_end_Permutation r l : insert_by_end r l ≡ₚ r :: l.
Proof.
  induction l as [|x l IH]; simpl; [done|].
  destruct (String.leb _ _); [done|].
  rewrite IH. apply Permutation_swap.
Qed.

Lemma sort_by_end_date_Permutation l : sort_by_end_date l ≡ₚ l.
Proof.
  induction l as [|x l IH]; simpl; [done|].
  by rewrite insert_by_end_Permutation, IH.
Qed.

Lemma insert_by_end_sorted r l :
  StronglySorted by_end_date l ->
  StronglySorted by_end_date (insert_by_end r l).
Proof.
  induction 1 as [|x l Hs IH Hall]; simpl.
  - repeat constructor.
  - destruct (String.leb (end_date r) (end_date x)) eqn:Hle.
    + apply leb_by_end_date in Hle.
      constructor; [by constructor|].
      constructor; [done|].
      eapply Forall_impl; [exact Hall|].
      intros y Hy. by etrans.
    + constructor; [done|].
      rewrite insert_by_end_Permutation. constructor; [|done].
      destruct (by_end_date_total x r) as [|Hrx]; [done|].
      apply leb_by_end_date in Hrx. congruence.
Qed.

Lemma sort_by_end_date_sorted l :
  StronglySorted by_end_date (sort_by_end_date l).
Proof.
  induction l; simpl; [constructor | by apply insert_by_end_sorted].
Qed.

(** The sort is stable: observations with one period end keep the order
    they had in the input. *)
Lemma insert_by_end_stable d r l :
  List.filter (fun x => String.eqb (end_date x) d) (insert_by_end r l) =
  List.filter (fun x => String.eqb (end_date x) d) (r :: l).
Proof.
  induction l as [|x l IH]; [done|].
  cbn [insert_by_end].
  destruct (String.leb (end_date r) (end_date x)) eqn:Hle; [done|].
  cbn [List.filter] in *. rewrite IH.
  destruct (String.eqb_spec (end_date r) d) as [Hr|];
    destruct (String.eqb_spec (end_date x) d) as [Hx|]; try done.
  assert (by_end_date r x) as Hrx
    by (unfold by_end_date; rewrite Hr, Hx; done).
  apply leb_by_end_date in Hrx. congruence.
Qed.

Lemma sort_by_end_date_stable d l :
  List.filter (fun x => String.eqb (end_date x) d) (sort_by_end_date l) =
  List.filter (fun x => String.eqb (end_date x) d) l.
Proof.
  induction l as [|x l IH]; [done|].
  cbn [sort_by_end_date foldr]. rewrite insert_by_end_stable.
  cbn [List.filter]. fold (sort_by_end_date l). by rewrite IH.
Qed.

(** *** Deduplication *)

Lemma dedup_loop_sublist seen l : dedup_loop seen l `sublist_of` l.
Proof.
  revert seen. induction l as [|r l IH]; intros seen; simpl; [done|].
  case_decide; [apply sublist_cons | apply sublist_skip]; apply IH.
Qed.

Lemma StronglySorted_sublist {A} (R : relation A) (k l : list A) :
  k `sublist_of` l -> StronglySorted R l -> StronglySorted R k.
Proof.
  induction 1 as [|x k l Hsub IH|x k l Hsub IH]; intros Hs; [done|..].
  - apply StronglySorted_inv in Hs as [Hs Hall].
    constructor; [by apply IH|].
    apply Forall_forall. intros y Hy.
    eapply Forall_forall in Hall; [exact Hall|].
    by apply (sublist_subseteq _ _ Hsub).
  - apply StronglySorted_inv in Hs as [Hs _]. by apply IH.
Qed.

Lemma dedup_loop_keys seen l :
  NoDup (dedup_key <$> dedup_loop seen l) /\
  forall k, k ∈ dedup_key <$> dedup_loop seen l -> k ∉ seen.
Proof.
  revert seen. induction l as [|r l IH]; intros seen; simpl.
  - split; [constructor|]. intros k Hk. by apply elem_of_nil in Hk.
  - case_decide as Hin; [apply IH|].
    destruct (IH ({[dedup_key r]} ∪ seen)) as [Hnd Hfresh].
    rewrite fmap_cons. split.
    + constructor; [|done]. intros Hk. apply Hfresh in Hk.
      apply Hk, elem_of_union_l, elem_of_singleton. done.
    + intros k [->|Hk]%elem_of_cons; [done|].
      apply Hfresh in Hk. intros Hs. apply Hk, elem_of_union_r, Hs.
Qed.

(** The first observation of the sorted list always survives: the loop
    keeps, for each key, the entry met first. *)
Lemma dedup_keeps_first r l :
  exists l', dedup (r :: l) = r :: l' /\
             forall x, x ∈ l' -> dedup_key x <> dedup_key r.
Proof.
  unfold dedup. cbn [dedup_loop].
  rewrite decide_False by apply not_elem_of_empty.
  eexists; split; [done|].
  intros x Hx Heq.
  destruct (dedup_loop_keys ({[dedup_key r]} ∪ ∅) l) as [_ Hfresh].
  apply (Hfresh (dedup_key x)).
  - apply list_elem_of_fmap. exists x. by split.
  - rewrite Heq. apply elem_of_union_l, elem_of_singleton. done.
Qed.

(** For every key, the entry kept is the first entry of the list that
    carries the key. *)
Lemma dedup_loop_first_wins k seen l :
  k ∉ seen ->
  find (fun r => bool_decide (dedup_key r = k)) (dedup_loop seen l) =
  find (fun r => bool_decide (dedup_key r = k)) l.
Proof.
  revert seen. induction l as [|r l IH]; intros seen Hk; [done|].
  cbn [dedup_loop find]. case_decide as Hin.
  - rewrite bool_decide_eq_false_2 by (intros <-; done). by apply IH.
  - cbn [find]. case_bool_decide as Hr; [done|].
    apply IH. intros [Hk'%elem_of_singleton|Hk']%elem_of_union; [|done].
    by apply Hr.
Qed.

Lemma dedup_first_wins k l :
  find (fun r => bool_decide (dedup_key r = k)) (dedup l) =
  find (fun r => bool_decide (dedup_key r = k)) l.
Proof. apply dedup_loop_first_wins, not_elem_of_empty. Qed.

(** *** Shape of the result *)

Lemma try_units_Some cutoff us kinds d :
  try_units cutoff us kinds = Some d ->
  exists results, results <> [] /\ d = sort_dedup results.
Proof.
  induction kinds as [|u kinds IH]; cbn [try_units]; [done|].
  destruct (default [] (us !! u)) as [|e es]; [exact IH|].
  destruct (filter_entries cutoff (e :: es)) as [|r rs] eqn:Hf; [exact IH|].
  intros [= <-]. by exists (r :: rs).
Qed.

Lemma try_concepts_shape cutoff us_gaap names :
  try_concepts cutoff us_gaap names = [] \/
  exists results, results <> [] /\
    try_concepts cutoff us_gaap names = sort_dedup results.
Proof.
  induction names as [|n names IH]; cbn [try_concepts]; [by left|].
  destruct (try_units _ _ _) as [d|] eqn:Hu; [|exact IH].
  right. by apply try_units_Some in Hu.
Qed.

Lemma sort_dedup_sorted results :
  StronglySorted by_end_date (sort_dedup results).
Proof.
  eapply StronglySorted_sublist; [apply dedup_loop_sublist|].
  apply sort_by_end_date_sorted.
Qed.

Lemma sort_dedup_NoDup results : NoDup (dedup_key <$> sort_dedup results).
Proof. apply dedup_loop_keys. Qed.

(** C7. Every observation sequence returned by [_extract_concept_data]
    has pairwise distinct keys (period end, form with the amendment
    suffix removed) and is sorted in non-decreasing order of period
    end. *)
Theorem extract_concept_data_distinct_sorted
    (now_year : Z) (facts : company_facts) (concept_names : list string)
    (years : Z) :
  let out := _extract_concept_data now_year facts concept_names years in
  NoDup (dedup_key <$> out) /\ StronglySorted by_end_date out.
Proof.
  simpl. unfold _extract_concept_data.
  destruct (try_concepts_shape (now_year - years) (us_gaap_of facts)
              concept_names) as [-> | (results & _ & ->)].
  - split; constructor.
  - split; [apply sort_dedup_NoDup | apply sort_dedup_sorted].
Qed.

(** C1 (evaluation at the failing input). For a 10-K figure followed by
    its 10-K/A amendment with the same period end, the extractor returns
    the original figure alone: the entry met first is kept and the
    amendment is dropped. *)
Theorem amended_filing_dropped :
  _extract_concept_data 2026 Inputs.amended_facts ["Revenues"] 5 =
  [Observation (PInt 100) "2024-12-31" "10-K" "2025-02-01" (Some 2024) "FY"].
Proof. vm_compute. reflexivity. Qed.

(** *** The concept resolver *)

Lemma sort_dedup_nonempty results : results <> [] -> sort_dedup results <> [].
Proof.
  intros Hne. unfold sort_dedup.
  destruct (sort_by_end_date results) as [|r l] eqn:Hs.
  - destruct results as [|x xs]; [done|].
    pose proof (sort_by_end_date_Permutation (x :: xs)) as Hp.
    rewrite Hs in Hp. by apply Permutation_nil_cons in Hp.
  - destruct (dedup_keeps_first r l) as (l' & -> & _). done.
Qed.

Lemma try_units_skip cutoff us kinds1 kinds2 :
  (forall u, u ∈ kinds1 -> filter_entries cutoff (default [] (us !! u)) = []) ->
  try_units cutoff us (kinds1 ++ kinds2) = try_units cutoff us kinds2.
Proof.
  induction kinds1 as [|k kinds1 IH]; intros Hnone; [done|].
  cbn [app try_units].
  pose proof (Hnone k ltac:(left)) as Hk.
  rewrite IH by (intros u Hu; apply Hnone; by right).
  destruct (default [] (us !! k)) as [|e es]; [done|].
  by rewrite Hk.
Qed.

Lemma try_units_hit cutoff us u kinds :
  filter_entries cutoff (default [] (us !! u)) <> [] ->
  try_units cutoff us (u :: kinds) =
  Some (sort_dedup (filter_entries cutoff (default [] (us !! u)))).
Proof.
  intros Hne. cbn [try_units].
  destruct (default [] (us !! u)) as [|e es]; [done|].
  by destruct (filter_entries cutoff (e :: es)).
Qed.

Lemma try_units_None cutoff us kinds :
  (forall u, u ∈ kinds -> filter_entries cutoff (default [] (us !! u)) = []) ->
  try_units cutoff us kinds = None.
Proof.
  intros Hnone.
  rewrite <- (app_nil_r kinds). by rewrite try_units_skip.
Qed.

Lemma try_concepts_skip cutoff us_gaap names1 names2 :
  (forall a u, a ∈ names1 -> u ∈ unit_types ->
     filter_entries cutoff (default [] (units_of us_gaap a !! u)) = []) ->
  try_concepts cutoff us_gaap (names1 ++ names2) =
  try_concepts cutoff us_gaap names2.
Proof.
  induction names1 as [|n names1 IH]; intros Hnone; [done|].
  cbn [app try_concepts].
  rewrite try_units_None by (intros u Hu; apply Hnone; [by left|done]).
  apply IH. intros a u Ha Hu. apply Hnone; [by right|done].
Qed.

Lemma first_match now_year facts years names pre a post upre u upost :
  names = (pre ++ a :: post)%list ->
  unit_types = (upre ++ u :: upost)%list ->
  (forall a' u', a' ∈ pre -> u' ∈ unit_types ->
     surviving now_year facts years a' u' = []) ->
  (forall u', u' ∈ upre -> surviving now_year facts years a u' = []) ->
  surviving now_year facts years a u <> [] ->
  _extract_concept_data now_year facts names years =
    sort_dedup (surviving now_year facts years a u) /\
  _extract_concept_data now_year facts names years <> [].
Proof.
  intros -> Hunits Hpre Hupre Hu.
  assert (_extract_concept_data now_year facts (pre ++ a :: post) years =
          sort_dedup (surviving now_year facts years a u)) as Heq.
  { unfold _extract_concept_data.
    rewrite try_concepts_skip by exact Hpre.
    cbn [try_concepts]. rewrite Hunits.
    rewrite try_units_skip by exact Hupre.
    by rewrite try_units_hit. }
  split; [done|]. rewrite Heq. by apply sort_dedup_nonempty.
Qed.

Lemma no_match now_year facts years names :
  (forall a u, a ∈ names -> u ∈ unit_types ->
     surviving now_year facts years a u = []) ->
  _extract_concept_data now_year facts names years = [].
Proof.
  intros Hnone. unfold _extract_concept_data.
  rewrite <- (app_nil_r names). by rewrite try_concepts_skip.
Qed.

Lemma has_data_first_unit now_year facts years a :
  has_data now_year facts years a ->
  exists upre u upost,
    unit_types = (upre ++ u :: upost)%list /\
    (forall u', u' ∈ upre -> surviving now_year facts years a u' = []) /\
    surviving now_year facts years a u <> [].
Proof.
  intros (u0 & Hin & Hne).
  assert (forall kinds, u0 ∈ kinds ->
            exists upre u upost, kinds = (upre ++ u :: upost)%list /\
              (forall u', u' ∈ upre ->
                 surviving now_year facts years a u' = []) /\
              surviving now_year facts years a u <> []) as Hgen.
  { induction kinds as [|k kinds IH]; intros Hk.
    - by apply elem_of_nil in Hk.
    - destruct (decide (surviving now_year facts years a k = [])) as [He|Hn].
      + apply elem_of_cons in Hk as [->|Hk]; [done|].
        destruct (IH Hk) as (upre & u & upost & -> & Hp & Hu).
        exists (k :: upre), u, upost. split; [done|]. split; [|done].
        intros u' [->|Hu']%elem_of_cons; auto.
      + exists [], k, kinds. split; [done|]. split; [|done].
        intros u' Hu'. by apply elem_of_nil in Hu'. }
  by apply Hgen.
Qed.

(** C3. The resolver returns the sorted, deduplicated series of the first
    alias, in list order, that has a surviving observation under some
    unit kind, taking for that alias the first such unit kind in the
    order USD, USD/shares, shares, pure. With no such alias it returns
    the empty list. In particular, for aliases [A; B], the data of [A] is
    returned when [A] has data, and the data of [B] when it has not.
    The function is total: no input makes it raise. *)
Theorem concept_resolver_first_alias_wins
    (now_year : Z) (facts : company_facts) (years : Z) :
  unit_types = ["USD"; "USD/shares"; "shares"; "pure"] /\
  (forall names pre a post upre u upost,
     names = (pre ++ a :: post)%list ->
     unit_types = (upre ++ u :: upost)%list ->
     (forall a' u', a' ∈ pre -> u' ∈ unit_types ->
        surviving now_year facts years a' u' = []) ->
     (forall u', u' ∈ upre -> surviving now_year facts years a u' = []) ->
     surviving now_year facts years a u <> [] ->
     _extract_concept_data now_year facts names years =
       sort_dedup (surviving now_year facts years a u) /\
     _extract_concept_data now_year facts names years <> []) /\
  (forall names,
     (forall a u, a ∈ names -> u ∈ unit_types ->
        surviving now_year facts years a u = []) ->
     _extract_concept_data now_year facts names years = []) /\
  (forall A B,
     ~ has_data now_year facts years A ->
     has_data now_year facts years B ->
     _extract_concept_data now_year facts [A; B] years =
       _extract_concept_data now_year facts [B] years /\
     _extract_concept_data now_year facts [B] years <> []) /\
  (forall A B,
     has_data now_year facts years A ->
     _extract_concept_data now_year facts [A; B] years =
       _extract_concept_data now_year facts [A] years /\
     _extract_concept_data now_year facts [A] years <> []).
Proof.
  split; [done|]. split; [|split; [|split]].
  - intros names pre a post upre u upost. apply first_match.
  - apply no_match.
  - intros A B HA HB.
    destruct (has_data_first_unit _ _ _ _ HB) as (upre & u & upost & Hu & Hp & Hs).
    assert (forall a' u', a' ∈ [A] -> u' ∈ unit_types ->
              surviving now_year facts years a' u' = []) as HnoA.
    { intros a' u' ->%list_elem_of_singleton Hu'.
      destruct (decide (surviving now_year facts years A u' = [])); [done|].
      exfalso. apply HA. by exists u'. }
    destruct (first_match now_year facts years [A; B] [A] B [] upre u upost)
      as [-> _]; [done..|].
    destruct (first_match now_year facts years [B] [] B [] upre u upost)
      as [-> Hne]; [done | done | | done | done |].
    { intros a' u' Ha'. by apply elem_of_nil in Ha'. }
    split; [done|]. by apply sort_dedup_nonempty.
  - intros A B HA.
    destruct (has_data_first_unit _ _ _ _ HA) as (upre & u & upost & Hu & Hp & Hs).
    assert (forall a' u', a' ∈ @nil string -> u' ∈ unit_types ->
              surviving now_year facts years a' u' = []) as Hnil.
    { intros a' u' Ha'. by apply elem_of_nil in Ha'. }
    destruct (first_match now_year facts years [A; B] [] A [B] upre u upost)
      as [-> _]; [done..|].
    destruct (first_match now_year facts years [A] [] A [] upre u upost)
      as [-> Hne]; [done..|].
    split; [done|]. by apply sort_dedup_nonempty.
Qed.

(** A witness of C3 on the amended-filing payload: the first alias is
    unknown to the payload, the second has data. *)
Lemma concept_resolver_first_alias_wins_witness :
  _extract_concept_data 2026 Inputs.amended_facts
    ["NonexistentConcept"; "Revenues"] 5 =
  _extract_concept_data 2026 Inputs.amended_facts ["Revenues"] 5 /\
  _extract_concept_data 2026 Inputs.amended_facts ["Revenues"] 5 <> [].
Proof.
  apply (proj1 (proj2 (proj2 (proj2
           (concept_resolver_first_alias_wins 2026 Inputs.amended_facts 5))))).
  - intros (u & Hin & Hne).
    unfold unit_types in Hin.
    repeat (apply elem_of_cons in Hin as [->|Hin]; [by vm_compute in Hne|]).
    by apply elem_of_nil in Hin.
  - exists "USD". split; [by left|]. by vm_compute.
Defined.

(** *** The derivation engine *)

(** What [float] does: it fails on [None] and on an integer beyond the
    doubles, and on nothing else. *)
Lemma float_cases v :
  match float v with
  | Ok _ => v <> PNone /\ overflows v = false
  | Raise e =>
      (v = PNone /\ e = TypeError) \/
      (overflows v = true /\ e = OverflowError)
  end.
Proof.
  destruct v as [|z|x]; cbn [float overflows]; [by left| |done].
  destruct (f64_of_Z z); try done. by right.
Qed.

Lemma float_Ok v :
  v <> PNone -> overflows v = false -> exists x, float v = Ok x.
Proof.
  intros Hnn Hov. pose proof (float_cases v) as Hc.
  destruct (float v) as [x|e]; [by exists x|].
  destruct Hc as [[? _]|[? _]]; congruence.
Qed.

Lemma float_Raise v e :
  float v = Raise e ->
  (v = PNone /\ e = TypeError) \/ (overflows v = true /\ e = OverflowError).
Proof. intros Hf. pose proof (float_cases v) as Hc. by rewrite Hf in Hc. Qed.

Lemma f64_eqb_zero x :
  f64_eqb x f64_zero = true <-> exists sign, x = S754_zero sign.
Proof.
  destruct x as [s|s| |s m e]; cbn; split; try done; try (by eexists);
    try (by intros [? [=]]); by destruct s.
Qed.

Lemma f64_pos_nonzero x :
  f64_ltb f64_zero x = true -> f64_eqb x f64_zero = false.
Proof. destruct x as [s|s| |s m e]; cbn; try done; by destruct s. Qed.

Lemma f64_abs_zero x : f64_eqb (f64_abs x) f64_zero = f64_eqb x f64_zero.
Proof. destruct x as [s|s| |s m e]; cbn; try done; by destruct s. Qed.

Lemma f64_div_Ok x y :
  f64_eqb y f64_zero = false -> f64_div x y = Ok (SFdiv 53 1024 x y).
Proof. intros Hy. unfold f64_div. by rewrite Hy. Qed.

Lemma truthy_not_none v : truthy v = true -> v <> PNone.
Proof. by destruct v. Qed.

Lemma truthy_not_zero v : truthy v = true <-> v <> PNone /\ ~ is_zero v.
Proof.
  destruct v as [|z|x]; cbn [truthy].
  - split; [done|]. by intros [? _].
  - rewrite negb_true_iff, Z.eqb_neq. split.
    + intros Hz. split; [done|]. intros [[= ->]|(sign & [=])]. done.
    + intros [_ Hz] ->. apply Hz. by left.
  - rewrite negb_true_iff. split.
    + intros Hx. split; [done|]. intros [[=]|(sign & [= ->])].
      by destruct sign.
    + intros [_ Hx]. destruct (f64_eqb x f64_zero) eqn:Heq; [|done].
      exfalso. apply Hx. right.
      apply f64_eqb_zero in Heq as [sign ->]. by exists sign.
Qed.

(** The conversion at the edge of the doubles, and above the 53 bits of
    the mantissa, where it rounds. *)
Example float_range :
  overflows (PInt (2 ^ 1024 - 2 ^ 970 - 1)) = false /\
  overflows (PInt (2 ^ 1024 - 2 ^ 970)) = true /\
  float (PInt (10 ^ 400)) = Raise OverflowError /\
  float (PInt (2 ^ 53 + 1)) = float (PInt (2 ^ 53)).
Proof. vm_compute. by repeat split. Qed.

(** The separator [0x1c] is white space for [strip], not for [int]. *)
Example int_white_space :
  PyStr.int (String (ascii_of_nat 28) "12 ") = None /\
  PyStr.int " 12 " = Some 12 /\
  PyStr.strip (String (ascii_of_nat 28) "12 ") = "12".
Proof. vm_compute. by repeat split. Qed.

(** A strictly positive revenue is truthy. *)
Lemma positive_truthy v x :
  float v = Ok x -> f64_ltb f64_zero x = true -> truthy v = true.
Proof.
  destruct v as [|z|y]; cbn [float truthy]; [done| |].
  - intros Hz Hpos. destruct z; [|done..].
    cbn in Hz. injection Hz as <-. done.
  - intros [= ->] Hpos. by rewrite (f64_pos_nonzero _ Hpos).
Qed.

(** One margin: nothing for a missing, null or zero numerator, the
    figure otherwise, and [OverflowError] for an integer numerator beyond
    the doubles. *)
Lemma margin_of_cases label x rev_val :
  f64_ltb f64_zero rev_val = true ->
  match margin_of label x rev_val with
  | Ok l =>
      (l = [] /\ forall o, x = Some o -> truthy (value o) = false) \/
      (exists o q, x = Some o /\ truthy (value o) = true /\ l = [(label, q)])
  | Raise e =>
      e = OverflowError /\
      exists o, x = Some o /\ overflows (value o) = true
  end.
Proof.
  intros Hpos. destruct x as [o|]; cbn [margin_of]; [|by left].
  destruct (truthy (value o)) eqn:Ht.
  2:{ left. split; [done|]. by intros ? [= <-]. }
  pose proof (float_cases (value o)) as Hc.
  destruct (float (value o)) as [y|e]; cbn [mbind exc_bind].
  - rewrite (f64_div_Ok _ _ (f64_pos_nonzero _ Hpos)). cbn [mbind exc_bind].
    right. by eexists o, _.
  - destruct Hc as [[Hnn _]|[Hov ->]].
    + by apply truthy_not_none in Ht.
    + split; [done|]. by exists o.
Qed.

Lemma margin_of_elem label x rev_val l label' q :
  f64_ltb f64_zero rev_val = true ->
  margin_of label x rev_val = Ok l -> (label', q) ∈ l ->
  label' = label /\ exists o, x = Some o /\ truthy (value o) = true.
Proof.
  intros Hpos Hm Hin. pose proof (margin_of_cases label x rev_val Hpos) as Hc.
  rewrite Hm in Hc. destruct Hc as [[-> _]|(o & q' & -> & Ht & ->)].
  - by apply elem_of_nil in Hin.
  - apply list_elem_of_singleton in Hin as [= -> ->]. split; [done|].
    by exists o.
Qed.

Lemma margin_of_Raise label x rev_val e :
  f64_ltb f64_zero rev_val = true ->
  margin_of label x rev_val = Raise e ->
  e = OverflowError /\ exists o, x = Some o /\ overflows (value o) = true.
Proof.
  intros Hpos Hm. pose proof (margin_of_cases label x rev_val Hpos) as Hc.
  by rewrite Hm in Hc.
Qed.

Lemma margins_block_elem income ms label q :
  margins_block income = Ok ms -> (label, q) ∈ ms ->
  exists metric num,
    (metric, label) ∈ margin_table /\
    latest_of income metric = Some num /\ truthy (value num) = true.
Proof.
  unfold margins_block.
  destruct (latest_of income "revenue") as [rev|];
    [|intros [= <-] Hin; by apply elem_of_nil in Hin].
  destruct (truthy (value rev)) eqn:Ht;
    [|intros [= <-] Hin; by apply elem_of_nil in Hin].
  destruct (float (value rev)) as [rev_val|e]; cbn [mbind exc_bind]; [|done].
  destruct (f64_ltb f64_zero rev_val) eqn:Hpos;
    [|intros [= <-] Hin; by apply elem_of_nil in Hin].
  destruct (margin_of "Gross" _ rev_val) as [gm|] eqn:Hgm;
    cbn [mbind exc_bind]; [|done].
  destruct (margin_of "Operating" _ rev_val) as [om|] eqn:Hom;
    cbn [mbind exc_bind]; [|done].
  destruct (margin_of "Net" _ rev_val) as [nm|] eqn:Hnm;
    cbn [mbind exc_bind mret exc_ret]; [|done].
  intros [= <-] Hin. rewrite !elem_of_app in Hin.
  unfold margin_table.
  destruct Hin as [Hin|[Hin|Hin]].
  - destruct (margin_of_elem _ _ _ _ _ _ Hpos Hgm Hin) as (-> & o & Ho & Hto).
    exists "gross_profit", o. split; [by left|done].
  - destruct (margin_of_elem _ _ _ _ _ _ Hpos Hom Hin) as (-> & o & Ho & Hto).
    exists "operating_income", o. split; [right; by left|done].
  - destruct (margin_of_elem _ _ _ _ _ _ Hpos Hnm Hin) as (-> & o & Ho & Hto).
    exists "net_income", o. split; [right; right; by left|done].
Qed.

(** The margins block raises [OverflowError] only, on the latest revenue
    or on the latest value of a numerator. *)
Lemma margins_block_Raise income e :
  margins_block income = Raise e ->
  e = OverflowError /\
  ((exists rev, latest_of income "revenue" = Some rev /\
                overflows (value rev) = true) \/
   (exists metric label num,
      (metric, label) ∈ margin_table /\
      latest_of income metric = Some num /\ overflows (value num) = true)).
Proof.
  unfold margins_block.
  destruct (latest_of income "revenue") as [rev|]; [|done].
  destruct (truthy (value rev)) eqn:Ht; [|done].
  pose proof (float_cases (value rev)) as Hc.
  destruct (float (value rev)) as [rev_val|e']; cbn [mbind exc_bind].
  2:{ intros [= ->]. destruct Hc as [[Hnn _]|[Hov ->]].
      - by apply truthy_not_none in Ht.
      - split; [done|]. left. by exists rev. }
  destruct (f64_ltb f64_zero rev_val) eqn:Hpos; [|done].
  unfold margin_table.
  destruct (margin_of "Gross" _ rev_val) as [gm|e1] eqn:Hgm;
    cbn [mbind exc_bind].
  2:{ intros [= ->].
      destruct (margin_of_Raise _ _ _ _ Hpos Hgm) as (-> & o & Ho & Hov).
      split; [done|]. right. exists "gross_profit", "Gross", o.
      split; [by left|done]. }
  destruct (margin_of "Operating" _ rev_val) as [om|e2] eqn:Hom;
    cbn [mbind exc_bind].
  2:{ intros [= ->].
      destruct (margin_of_Raise _ _ _ _ Hpos Hom) as (-> & o & Ho & Hov).
      split; [done|]. right. exists "operating_income", "Operating", o.
      split; [right; by left|done]. }
  destruct (margin_of "Net" _ rev_val) as [nm|e3] eqn:Hnm;
    cbn [mbind exc_bind]; [done|].
  intros [= ->].
  destruct (margin_of_Raise _ _ _ _ Hpos Hnm) as (-> & o & Ho & Hov).
  split; [done|]. right. exists "net_income", "Net", o.
  split; [right; right; by left|done].
Qed.

Lemma margin_table_functional metric1 metric2 label :
  (metric1, label) ∈ margin_table -> (metric2, label) ∈ margin_table ->
  metric1 = metric2.
Proof.
  unfold margin_table. intros H1 H2.
  rewrite !elem_of_cons, elem_of_nil in H1, H2.
  destruct H1 as [H1|[H1|[H1|[]]]]; destruct H2 as [H2|[H2|[H2|[]]]];
    by simplify_eq.
Qed.

Lemma is_zero_no_overflow v : is_zero v -> overflows v = false.
Proof. by intros [->|[sign ->]]. Qed.

(** C10. When the latest revenue is strictly positive and the latest
    observation of a margin numerator (gross profit, operating income or
    net income) has a value of exactly zero, no output of the margins
    block holds an entry for that margin. The block returns whenever no
    latest numerator is an integer beyond the doubles; it can only fail
    with [OverflowError], raised by the conversion of such a numerator,
    which is then another one than the zero numerator. More generally a
    margin is emitted only if the latest value of its numerator is
    neither null nor zero. *)
Theorem zero_numerator_margin_omitted
    (income : gmap string (list observation)) :
  (forall rev_latest rev_val metric label num,
     latest_of income "revenue" = Some rev_latest ->
     float (value rev_latest) = Ok rev_val ->
     f64_ltb f64_zero rev_val = true ->
     (metric, label) ∈ margin_table ->
     latest_of income metric = Some num ->
     is_zero (value num) ->
     (forall ms, margins_block income = Ok ms ->
                 forall q, (label, q) ∉ ms) /\
     ((forall metric' label' num',
         (metric', label') ∈ margin_table ->
         latest_of income metric' = Some num' ->
         overflows (value num') = false) ->
      exists ms, margins_block income = Ok ms /\
                 forall q, (label, q) ∉ ms) /\
     (forall e, margins_block income = Raise e ->
        e = OverflowError /\
        exists metric' label' num',
          (metric', label') ∈ margin_table /\ metric' <> metric /\
          latest_of income metric' = Some num' /\
          overflows (value num') = true)) /\
  (forall ms label q,
     margins_block income = Ok ms ->
     (label, q) ∈ ms ->
     exists metric num,
       (metric, label) ∈ margin_table /\
       latest_of income metric = Some num /\
       value num <> PNone /\ ~ is_zero (value num)).
Proof.
  split.
  - intros rev_latest rev_val metric label num Hrev Hfloat _ Hlabel Hnum
      Hzero.
    assert (forall ms, margins_block income = Ok ms ->
                       forall q, (label, q) ∉ ms) as Homit.
    { intros ms Hms q Hin.
      destruct (margins_block_elem _ _ _ _ Hms Hin)
        as (metric' & num' & Hlabel' & Hnum' & Ht).
      rewrite (margin_table_functional _ _ _ Hlabel' Hlabel) in Hnum'.
      rewrite Hnum in Hnum'. injection Hnum' as <-.
      apply truthy_not_zero in Ht as [_ Hnz]. by apply Hnz. }
    assert (forall e, margins_block income = Raise e ->
              e = OverflowError /\
              exists metric' label' num',
                (metric', label') ∈ margin_table /\ metric' <> metric /\
                latest_of income metric' = Some num' /\
                overflows (value num') = true) as Hraise.
    { intros e He.
      destruct (margins_block_Raise _ _ He)
        as (-> & [(rev & Hrev' & Hov)|(m' & l' & n' & Hm' & Hn' & Hov)]).
      - rewrite Hrev in Hrev'. injection Hrev' as <-.
        pose proof (float_cases (value rev_latest)) as Hc.
        rewrite Hfloat in Hc. destruct Hc as [_ Hc]. congruence.
      - split; [done|]. exists m', l', n'. split; [done|].
        split; [|done]. intros ->. rewrite Hnum in Hn'.
        injection Hn' as <-.
        rewrite (is_zero_no_overflow _ Hzero) in Hov. done. }
    split; [done|]. split; [|done].
    intros Hrange. destruct (margins_block income) as [ms|e] eqn:Hms.
    + exists ms. split; [done|]. by apply Homit.
    + destruct (Hraise e eq_refl) as (_ & m' & l' & n' & Hm' & _ & Hn' & Hov).
      rewrite (Hrange _ _ _ Hm' Hn') in Hov. done.
  - intros ms label q Hms Hin.
    destruct (margins_block_elem _ _ _ _ Hms Hin)
      as (metric & num & Hlabel & Hnum & Ht).
    apply truthy_not_zero in Ht as [Hnn Hnz].
    by exists metric, num.
Qed.

(** A witness of C10: revenue 1000, gross profit 0. *)
Lemma zero_numerator_margin_omitted_witness :
  exists ms, margins_block Inputs.zero_gross_income = Ok ms /\
             forall q, ("Gross", q) ∉ ms.
Proof.
  apply (proj1 (proj2
           (proj1 (zero_numerator_margin_omitted Inputs.zero_gross_income)
              (Inputs.obs (PInt 1000) "2024-12-31" "10-K") (f64_of_Z 1000)
              "gross_profit" "Gross"
              (Inputs.obs (PInt 0) "2024-12-31" "10-K")
              ltac:(vm_compute; reflexivity) ltac:(vm_compute; reflexivity)
              ltac:(vm_compute; reflexivity) ltac:(unfold margin_table; left)
              ltac:(vm_compute; reflexivity) ltac:(left; reflexivity)))).
  intros metric' label' num' Hm Hn. unfold margin_table in Hm.
  rewrite !elem_of_cons, elem_of_nil in Hm.
  destruct Hm as [[= -> ->]|[[= -> ->]|[[= -> ->]|[]]]];
    vm_compute in Hn; by simplify_eq.
Defined.

(** With a net income beyond the doubles next to a zero gross profit the
    margins block raises. *)
Example margins_overflow :
  margins_block
    (<["net_income" := [Inputs.obs (PInt (10 ^ 400)) "2024-12-31" "10-K"]]>
       Inputs.zero_gross_income)
  = Raise OverflowError.
Proof. vm_compute. reflexivity. Qed.

(** *** Guards of the ratio and cash flow blocks *)

(** A missing operand, or a null or zero denominator, suppresses the
    debt-to-equity figure. *)
Lemma debt_to_equity_guard liabilities equity :
  liabilities = None \/ equity = None \/
  (exists e, equity = Some e /\ truthy (value e) = false) ->
  debt_to_equity liabilities equity = Ok [].
Proof.
  intros [->|[->|(e & -> & He)]]; unfold debt_to_equity.
  - by destruct equity.
  - done.
  - destruct liabilities; [|done]. by rewrite He.
Qed.

Lemma current_ratio_guard curr_assets curr_liab :
  curr_assets = None \/ curr_liab = None \/
  (exists d, curr_liab = Some d /\ truthy (value d) = false) ->
  current_ratio curr_assets curr_liab = Ok [].
Proof.
  intros [->|[->|(d & -> & Hd)]]; unfold current_ratio.
  - done.
  - by destruct curr_assets.
  - destruct curr_assets; [|done]. by rewrite Hd.
Qed.

Lemma net_debt_guard cash lt_debt :
  cash = None \/ lt_debt = None \/
  (exists d, lt_debt = Some d /\ truthy (value d) = false) ->
  net_debt cash lt_debt = Ok [].
Proof.
  intros [->|[->|(d & -> & Hd)]]; unfold net_debt.
  - done.
  - by destruct cash.
  - destruct cash; [|done]. by rewrite Hd.
Qed.

(** The free cash flow block checks both operands against [None]: it
    raises no [TypeError], and fails only on an integer beyond the
    doubles. *)
Lemma fcf_block_Raise cash_flow e :
  fcf_block cash_flow = Raise e ->
  e = OverflowError /\
  exists metric o,
    metric ∈ ["operating_cash_flow"; "capex"] /\
    latest_of cash_flow metric = Some o /\ overflows (value o) = true.
Proof.
  unfold fcf_block.
  destruct (latest_of cash_flow "operating_cash_flow") as [ocf|] eqn:Hocf;
    [|done].
  destruct (latest_of cash_flow "capex") as [capex|] eqn:Hcapex; [|done].
  destruct (is_not_none (value ocf) && is_not_none (value capex)) eqn:Hnn;
    [|done].
  apply andb_true_iff in Hnn as [Hn1 Hn2].
  pose proof (float_cases (value ocf)) as Hc1.
  destruct (float (value ocf)) as [o|e1]; cbn [mbind exc_bind].
  2:{ intros [= ->]. destruct Hc1 as [[Hv _]|[Hov ->]].
      - by rewrite Hv in Hn1.
      - split; [done|]. exists "operating_cash_flow", ocf.
        split; [by left|done]. }
  pose proof (float_cases (value capex)) as Hc2.
  destruct (float (value capex)) as [c|e2]; cbn [mbind exc_bind]; [done|].
  intros [= ->]. destruct Hc2 as [[Hv _]|[Hov ->]].
  - by rewrite Hv in Hn2.
  - split; [done|]. exists "capex", capex. split; [right; by left|done].
Qed.

(** The numerator of the debt-to-equity figure is not checked: a
    liabilities observation without value next to an equity that is not
    zero makes [float(None)] raise. *)
Lemma debt_to_equity_null_numerator li_o eq_o e :
  value li_o = PNone ->
  truthy (value eq_o) = true ->
  float (value eq_o) = Ok e -> f64_eqb e f64_zero = false ->
  debt_to_equity (Some li_o) (Some eq_o) = Raise TypeError.
Proof.
  intros Hli Ht Heq Hnz. unfold debt_to_equity.
  rewrite Ht, Heq. cbn [mbind exc_bind]. rewrite Hnz. cbn [negb].
  by rewrite Hli.
Qed.

(** C2 (evaluation at the failing input). A facts payload whose
    liabilities record has no value and whose equity is 100 yields a
    metrics document on which the derivation raises [TypeError] instead
    of omitting the debt-to-equity figure. *)
Theorem null_liabilities_raise_type_error :
  derive (extract_financials 2026 (Some Inputs.null_liabilities_facts) 5) =
  Raise TypeError.
Proof. vm_compute. reflexivity. Qed.

End FundamentalsProofs.

(** ** Properties of the gather orchestrator *)

Module OrchestratorProofs.
Import Orchestrator.

(** *** Strings *)

Lemma append_nil_r (s : string) : s ++ EmptyString = s.
Proof.
  induction s as [|c s IH]; [done|].
  change (String c (s ++ EmptyString) = String c s). by rewrite IH.
Qed.

Lemma append_assoc (s1 s2 s3 : string) : (s1 ++ s2) ++ s3 = s1 ++ s2 ++ s3.
Proof.
  induction s1 as [|c s1 IH]; [done|].
  change (String c ((s1 ++ s2) ++ s3) = String c (s1 ++ s2 ++ s3)).
  by rewrite IH.
Qed.

Lemma contains_refl s : PyStr.contains s s.
Proof. exists EmptyString, EmptyString. by rewrite append_nil_r. Qed.

Lemma contains_app_l s t needle :
  PyStr.contains s needle -> PyStr.contains (s ++ t) needle.
Proof.
  intros (pre & post & ->). exists pre, (post ++ t).
  by rewrite !append_assoc.
Qed.

Lemma contains_app_r s t needle :
  PyStr.contains t needle -> PyStr.contains (s ++ t) needle.
Proof.
  intros (pre & post & ->). exists (s ++ pre), post.
  by rewrite !append_assoc.
Qed.

Lemma join_contains sep parts x :
  x ∈ parts -> PyStr.contains (PyStr.join sep parts) x.
Proof.
  induction parts as [|p parts IH]; intros Hin.
  - by apply elem_of_nil in Hin.
  - destruct parts as [|q parts].
    + apply list_elem_of_singleton in Hin as ->. apply contains_refl.
    + change (PyStr.join sep (p :: q :: parts))
        with (p ++ sep ++ PyStr.join sep (q :: parts)).
      apply elem_of_cons in Hin as [->|Hin].
      * apply contains_app_l, contains_refl.
      * by apply contains_app_r, contains_app_r, IH.
Qed.

Section WithEnv.
Context {W : Type} (E : env W).

(** *** [run_source] *)

Lemma run_source_trace s ticker company theme directive w :
  trace_of (run_source E s ticker company theme directive w) = run_events s.
Proof.
  unfold run_source, run_events, bind, emit, call_gather, trace_of.
  destruct (SOURCE_REGISTRY !! s) as [[m f]|]; simpl.
  - by destruct (gather_func E m f ticker company theme directive w)
      as [[payload|msg] w'].
  - done.
Qed.

Lemma run_source_source s ticker company theme directive w :
  source (result_of (run_source E s ticker company theme directive w)) = s.
Proof.
  unfold run_source, bind, emit, call_gather, result_of.
  destruct (SOURCE_REGISTRY !! s) as [[m f]|]; simpl; [|done].
  by destruct (gather_func E m f ticker company theme directive w)
    as [[payload|msg] w'].
Qed.

(** A source that succeeded is a registered one. *)
Lemma run_source_success s ticker company theme directive w :
  success (result_of (run_source E s ticker company theme directive w))
    = true ->
  is_Some (SOURCE_REGISTRY !! s).
Proof.
  unfold run_source, bind, emit, call_gather, result_of.
  destruct (SOURCE_REGISTRY !! s) as [[m f]|]; simpl; [eauto|done].
Qed.

(** C8. For a source identifier outside the registry, [run_source]
    returns at once a failed result naming the unknown source, with
    empty markdown and a metric count of zero; it makes no fetch call
    and leaves the world as it found it. *)
Theorem run_source_unknown
    (s ticker company : string) (theme directive : option string) (w : W) :
  SOURCE_REGISTRY !! s = None ->
  let r := run_source E s ticker company theme directive w in
  result_of r =
    {| source := s; success := false; markdown := EmptyString;
       metric_count := 0; error := Some ("Unknown source: " ++ s) |} /\
  trace_of r = [EvRunSource s] /\
  (forall s', EvFetch s' ∉ trace_of r) /\
  world_of r = w.
Proof.
  intros Hs. simpl.
  unfold run_source, bind, emit, result_of, trace_of, world_of.
  rewrite Hs. simpl. repeat split.
  intros s' Hin. apply list_elem_of_singleton in Hin. done.
Qed.

End WithEnv.

Section Pipeline.
Context {W : Type} (E : env W).

(** *** The gather phase *)

Lemma gather_loop_trace last_source ticker company theme directive srcs w :
  trace_of (gather_loop E last_source ticker company theme directive srcs w)
  = concat (map (fun s => run_events s ++ pacing last_source s)%list srcs).
Proof.
  revert w. induction srcs as [|s srcs IH]; intros w; [done|].
  cbn [gather_loop map concat]. unfold bind at 1.
  pose proof (run_source_trace E s ticker company theme directive w) as Hrun.
  destruct (run_source E s ticker company theme directive w)
    as [[r t] w1]. unfold trace_of in Hrun. simpl in Hrun. subst t.
  unfold bind at 1. unfold pacing.
  destruct (bool_decide (s ≠ last_source)); unfold call_sleep, ret.
  - unfold bind. specialize (IH (sleep E w1)).
    destruct (gather_loop E last_source ticker company theme directive srcs
                (sleep E w1)) as [[rs t'] w2].
    unfold trace_of in *. simpl in *. subst t'.
    by rewrite app_nil_r, <- !app_assoc.
  - unfold bind. specialize (IH w1).
    destruct (gather_loop E last_source ticker company theme directive srcs
                w1) as [[rs t'] w2].
    unfold trace_of in *. simpl in *. subst t'.
    by rewrite !app_nil_r.
Qed.

Lemma gather_loop_sources last_source ticker company theme directive srcs w :
  map source
    (result_of
       (gather_loop E last_source ticker company theme directive srcs w))
  = srcs.
Proof.
  revert w. induction srcs as [|s srcs IH]; intros w; [done|].
  cbn [gather_loop]. unfold bind at 1.
  pose proof (run_source_source E s ticker company theme directive w) as Hrun.
  destruct (run_source E s ticker company theme directive w)
    as [[r t] w1]. unfold result_of in Hrun. simpl in Hrun.
  unfold bind at 1.
  destruct (bool_decide (s ≠ last_source)); unfold call_sleep, ret, bind.
  - specialize (IH (sleep E w1)).
    destruct (gather_loop E last_source ticker company theme directive srcs
                (sleep E w1)) as [[rs t'] w2].
    unfold result_of in *. simpl in *. by rewrite Hrun, IH.
  - specialize (IH w1).
    destruct (gather_loop E last_source ticker company theme directive srcs
                w1) as [[rs t'] w2].
    unfold result_of in *. simpl in *. by rewrite Hrun, IH.
Qed.

(** The gather phase reads only the gather functions and the clock
    pause of the environment. *)
Lemma gather_loop_env (E' : env W) last_source ticker company theme
    directive srcs w :
  gather_func E' = gather_func E -> sleep E' = sleep E ->
  gather_loop E' last_source ticker company theme directive srcs w =
  gather_loop E last_source ticker company theme directive srcs w.
Proof.
  intros Hg Hs.
  assert (forall s, run_source E' s ticker company theme directive =
                    run_source E s ticker company theme directive) as Hrun.
  { intros s. unfold run_source, call_gather. by rewrite Hg. }
  assert (call_sleep E' = call_sleep E) as Hsl.
  { unfold call_sleep. by rewrite Hs. }
  assert (gather_loop E' last_source ticker company theme directive srcs =
          gather_loop E last_source ticker company theme directive srcs)
    as Hloop; [|by rewrite Hloop].
  induction srcs as [|s srcs IH]; [done|].
  cbn [gather_loop]. by rewrite Hrun, Hsl, IH.
Qed.

(** When the last source does not occur earlier in the list, the pause
    falls exactly after every run but the last. *)
Lemma pacing_between init l :
  l ∉ init ->
  concat (map (fun s => run_events s ++ pacing l s)%list (init ++ [l])) =
  (concat (map (fun s => run_events s ++ [EvSleep])%list init)
     ++ run_events l)%list.
Proof.
  induction init as [|s init IH]; intros Hl.
  - cbn [app map concat]. unfold pacing.
    rewrite bool_decide_eq_false_2 by (intros Hne; by apply Hne).
    by rewrite !app_nil_r.
  - apply not_elem_of_cons in Hl as [Hne Hl].
    cbn [app map concat]. rewrite (IH Hl). unfold pacing at 1.
    rewrite bool_decide_eq_true_2 by done.
    by rewrite <- !app_assoc.
Qed.

(** *** The store phase *)

Lemma store_source_result_trace ticker s md ts dry w :
  trace_of (store_source_result E ticker s md ts dry w) =
  if dry then []
  else if reached (upload_to_spaces E md ticker s ts w).1 then [EvUpload s]
       else [].
Proof.
  unfold store_source_result. destruct dry; [done|].
  unfold bind, call_upload, trace_of.
  by destruct (upload_to_spaces E md ticker s ts w) as [[sr| |msg] w'].
Qed.

(** The store phase emits uploads only: those of a part of the storable
    results, in their order; of none of them in a dry run, and of all of
    them when the store module can be imported. *)
Lemma store_loop_trace ticker ts dry any grs w :
  exists ups,
    trace_of (store_loop E ticker ts dry any grs w) = map EvUpload ups /\
    sublist ups (map source (List.filter storable grs)) /\
    (dry = true -> ups = []) /\
    (dry = false -> upload_importable E ->
     ups = map source (List.filter storable grs)).
Proof.
  revert any w. induction grs as [|gr grs IH]; intros any w.
  - exists []. by repeat split.
  - cbn [store_loop List.filter]. fold (storable gr).
    destruct (storable gr).
    + unfold bind at 1.
      pose proof (store_source_result_trace ticker (source gr)
                    (markdown gr) ts dry w) as Hst.
      destruct (store_source_result E ticker (source gr) (markdown gr)
                  ts dry w) as [[sr t] w1].
      unfold trace_of in Hst. cbn [fst snd] in Hst. subst t.
      unfold bind, ret.
      destruct (IH (if sr_success sr then true else any) w1)
        as (ups & Htr & Hsub & Hdry & Hall).
      destruct (store_loop E ticker ts dry
                  (if sr_success sr then true else any) grs w1)
        as [[res t'] w2].
      unfold trace_of in *. cbn [fst snd] in *. subst t'.
      rewrite app_nil_r. cbn [map].
      destruct dry.
      * exists ups. split; [done|]. split; [by apply sublist_cons|].
        split; [done|]. done.
      * destruct (reached _) eqn:Hr.
        -- exists (source gr :: ups). split; [done|].
           split; [by apply sublist_skip|]. split; [done|].
           intros _ Himp. by rewrite (Hall eq_refl Himp).
        -- exists ups. split; [done|]. split; [by apply sublist_cons|].
           split; [done|]. intros _ Himp. by rewrite Himp in Hr.
    + unfold bind, ret.
      destruct (IH any w) as (ups & Htr & Hsub & Hdry & Hall).
      destruct (store_loop E ticker ts dry any grs w) as [[res t'] w2].
      unfold trace_of in *. cbn [fst snd] in *. subst t'.
      exists ups. by rewrite app_nil_r.
Qed.

Lemma store_loop_any ticker ts dry any grs w :
  (result_of (store_loop E ticker ts dry any grs w)).2 =
  any || existsb sr_success
           (result_of (store_loop E ticker ts dry any grs w)).1.
Proof.
  revert any w. induction grs as [|gr grs IH]; intros any w.
  - simpl. by rewrite orb_false_r.
  - cbn [store_loop]. fold (storable gr). destruct (storable gr).
    + unfold bind.
      destruct (store_source_result E ticker (source gr) (markdown gr)
                  ts dry w) as [[sr t] w1].
      specialize (IH (if sr_success sr then true else any) w1).
      destruct (store_loop E ticker ts dry
                  (if sr_success sr then true else any) grs w1)
        as [[res t'] w2].
      unfold result_of, ret in *. simpl in *. rewrite IH.
      by destruct (sr_success sr), any.
    + unfold bind, ret. specialize (IH any w).
      destruct (store_loop E ticker ts dry any grs w) as [[res t'] w2].
      unfold result_of in *. simpl in *. by rewrite IH.
Qed.

(** Without a storable gather result no store result succeeds. *)
Lemma store_loop_nothing_storable ticker ts dry any grs w :
  (forall gr, gr ∈ grs -> storable gr = false) ->
  existsb sr_success (result_of (store_loop E ticker ts dry any grs w)).1
  = false.
Proof.
  revert any w. induction grs as [|gr grs IH]; intros any w Hno; [done|].
  cbn [store_loop]. fold (storable gr).
  rewrite (Hno gr) by left.
  unfold bind, ret.
  assert (forall g, g ∈ grs -> storable g = false) as Hno'
    by (intros g Hg; apply Hno; by right).
  specialize (IH any w Hno').
  destruct (store_loop E ticker ts dry any grs w) as [[res t'] w2].
  unfold result_of in *. simpl in *. done.
Qed.

(** *** The reindex step *)

Lemma reindex_step_trace dry any w :
  trace_of (reindex_step E dry any w) =
  if any && negb dry && reached (trigger_kb_reindex E w).1
  then [EvReindex] else [].
Proof.
  unfold reindex_step, trigger_reindex.
  destruct any; [|done]. destruct dry; [done|].
  unfold bind, call_reindex, trace_of.
  by destruct (trigger_kb_reindex E w) as [[rx| |msg] w'].
Qed.

(** When the reindex sink cannot be imported, the result says so. *)
Lemma trigger_reindex_not_reached w :
  reached (trigger_kb_reindex E w).1 = false ->
  result_of (trigger_reindex E false w) =
  ReindexResult false "store.py not available — cannot trigger reindex".
Proof.
  unfold trigger_reindex, bind, call_reindex, result_of.
  by destruct (trigger_kb_reindex E w) as [[rx| |msg] w'].
Qed.

Lemma reindex_step_result dry any w :
  result_of (reindex_step E dry any w) =
  if any then
    if dry then ReindexResult true "[DRY RUN] Would trigger KB reindex"
    else result_of (trigger_reindex E false w)
  else ReindexResult false "No data stored — skipping reindex".
Proof. unfold reindex_step. destruct any; [|done]. by destruct dry. Qed.

(** *** The whole invocation *)

(** The three phases of an invocation with sources [srcs], and what
    [gather] makes of them. *)
Lemma gather_phases ticker company agent sources theme directive dry w :
  resolve_sources agent sources <> [] ->
  let srcs := resolve_sources agent sources in
  let ts := utc_now_isoformat E w in
  let p1 := gather_loop E (List.last srcs EmptyString) ticker company
              theme directive srcs w in
  let p2 := store_loop E ticker ts dry false (result_of p1) (world_of p1) in
  let p3 := reindex_step E dry (result_of p2).2 (world_of p2) in
  gather E ticker company agent sources theme directive dry w =
  (final_report ticker company agent ts srcs (result_of p1)
     (result_of p2).1 (result_of p3) dry,
   (trace_of p1 ++ trace_of p2 ++ trace_of p3)%list,
   world_of p3).
Proof.
  intros Hne. simpl. unfold gather.
  destruct (resolve_sources agent sources) as [|s0 srcs0] eqn:Hres; [done|].
  unfold bind, ret.
  destruct (gather_loop E _ ticker company theme directive (s0 :: srcs0) w)
    as [[grs t1] w1].
  unfold result_of, world_of, trace_of. simpl.
  destruct (store_loop E ticker (utc_now_isoformat E w) dry false grs w1)
    as [[[srs any] t2] w2]. simpl.
  destruct (reindex_step E dry any w2) as [[rx t3] w3]. simpl.
  by rewrite app_nil_r.
Qed.

(** *** What each phase may emit *)

Lemma gather_loop_trace_events last_source ticker company theme directive
    srcs w e :
  e ∈ trace_of
        (gather_loop E last_source ticker company theme directive srcs w) ->
  (exists s, s ∈ srcs /\ (e = EvRunSource s \/ e = EvFetch s)) \/ e = EvSleep.
Proof.
  rewrite gather_loop_trace. clear w.
  induction srcs as [|s srcs IH]; cbn [map concat].
  - intros He. by apply elem_of_nil in He.
  - rewrite !elem_of_app. intros [[He|He]|He].
    + left. exists s. split; [by left|].
      unfold run_events in He.
      apply elem_of_cons in He as [->|He]; [by left|].
      destruct (decide _); [|by apply elem_of_nil in He].
      apply list_elem_of_singleton in He. by right.
    + unfold pacing in He. destruct (bool_decide _).
      * apply list_elem_of_singleton in He. by right.
      * by apply elem_of_nil in He.
    + destruct (IH He) as [(s' & Hs' & Hes)|Hsl]; [|by right].
      left. exists s'. split; [by right|done].
Qed.

Lemma store_loop_trace_events ticker ts dry any grs w e :
  e ∈ trace_of (store_loop E ticker ts dry any grs w) ->
  dry = false /\
  exists gr, gr ∈ grs /\ storable gr = true /\ e = EvUpload (source gr).
Proof.
  destruct (store_loop_trace ticker ts dry any grs w)
    as (ups & -> & Hsub & Hdry & _).
  intros He. apply list_elem_of_In, in_map_iff in He as (s & <- & Hs).
  destruct dry.
  { rewrite (Hdry eq_refl) in Hs. done. }
  split; [done|].
  apply list_elem_of_In in Hs. apply (sublist_subseteq _ _ Hsub) in Hs.
  apply list_elem_of_In, in_map_iff in Hs as (gr & <- & Hgr).
  apply filter_In in Hgr as [Hin Hst].
  exists gr. by rewrite list_elem_of_In.
Qed.

Lemma reindex_step_trace_events dry any w e :
  e ∈ trace_of (reindex_step E dry any w) ->
  e = EvReindex /\ any = true /\ dry = false.
Proof.
  rewrite reindex_step_trace.
  destruct any, dry, (reached _); simpl; intros He;
    try (by apply elem_of_nil in He).
  by apply list_elem_of_singleton in He.
Qed.

(** *** The digest *)

Lemma succeeded_nonempty grs :
  bool_decide (0 < length (succeeded_of grs))%nat = true <->
  exists gr, gr ∈ grs /\ success gr = true.
Proof.
  rewrite bool_decide_eq_true. unfold succeeded_of. split.
  - destruct (List.filter success grs) as [|gr l] eqn:Hf; simpl; [lia|].
    intros _. exists gr.
    assert (In gr (List.filter success grs)) as Hin by (rewrite Hf; by left).
    apply filter_In in Hin as [Hin Hs]. by rewrite list_elem_of_In.
  - intros (gr & Hin & Hs).
    assert (In gr (List.filter success grs)) as Hin'.
    { apply filter_In. by rewrite <- list_elem_of_In. }
    destruct (List.filter success grs); [done|simpl; lia].
Qed.

Lemma failed_clause_none grs :
  (forall gr, gr ∈ grs -> success gr = true) ->
  failed_clause grs = EmptyString.
Proof.
  intros Hall. unfold failed_clause, failed_of.
  destruct (List.filter _ grs) as [|gr l] eqn:Hf; [done|].
  assert (In gr (List.filter (fun gr => negb (success gr)) grs)) as Hin
    by (rewrite Hf; by left).
  apply filter_In in Hin as [Hin Hs].
  rewrite (Hall gr) in Hs; [done|]. by rewrite list_elem_of_In.
Qed.

Lemma failed_clause_names grs gr :
  gr ∈ grs -> success gr = false ->
  source gr ∈ map source (failed_of grs) /\
  failed_clause grs =
    " (failed: " ++ PyStr.join ", " (map source (failed_of grs)) ++ ")" /\
  PyStr.contains (failed_clause grs) (source gr).
Proof.
  intros Hin Hs.
  assert (In gr (failed_of grs)) as Hf.
  { apply filter_In. rewrite <- list_elem_of_In. by rewrite Hs. }
  assert (source gr ∈ map source (failed_of grs)) as Hname.
  { apply list_elem_of_In, in_map_iff. by exists gr. }
  assert (failed_clause grs =
          " (failed: " ++ PyStr.join ", " (map source (failed_of grs))
          ++ ")") as Hclause.
  { unfold failed_clause. by destruct (failed_of grs). }
  split; [done|]. split; [done|].
  rewrite Hclause.
  by apply contains_app_r, contains_app_l, join_contains.
Qed.

Lemma store_entries_success (srcs : list string) (srs : list store_result) :
  (exists se,
     se ∈ imap (fun i sr =>
                  StoreEntry (default "unknown" (srcs !! i)) (sr_success sr)
                    (default EmptyString (sr_key sr))
                    (default EmptyString (sr_message sr))) srs /\
     se_success se = true) <->
  existsb sr_success srs = true.
Proof.
  rewrite existsb_exists. split.
  - intros (se & Hin & Hs).
    apply elem_of_lookup_imap in Hin as (i & sr & -> & Hsr).
    exists sr. split; [|done].
    apply list_elem_of_In. by eapply list_elem_of_lookup_2.
  - intros (sr & Hin & Hs).
    apply list_elem_of_In, list_elem_of_lookup in Hin as [i Hi].
    eexists. split; [by eapply elem_of_lookup_imap_2|done].
Qed.

End Pipeline.

Lemma result_of_run {A W} (a : A) (t : list event) (w : W) :
  result_of (a, t, w) = a.
Proof. done. Qed.

Lemma trace_of_run {A W} (a : A) (t : list event) (w : W) :
  trace_of (a, t, w) = t.
Proof. done. Qed.

Lemma world_of_run {A W} (a : A) (t : list event) (w : W) :
  world_of (a, t, w) = w.
Proof. done. Qed.

Section Claims.
Context {W : Type} (E : env W).

(** The early return: no phase is run. *)
Lemma gather_empty ticker company agent sources theme directive dry w :
  resolve_sources agent sources = [] ->
  gather E ticker company agent sources theme directive dry w =
  (no_sources_report ticker company agent (utc_now_isoformat E w), [], w).
Proof. intros Hres. unfold gather. by rewrite Hres. Qed.

(** C9. When the resolved source list is empty, [gather] returns at
    once: the success flag is false, the summary contains
    "No sources", no gather or store result is recorded, and no
    collaborator is called (neither the storage sink nor the reindex
    sink). *)
Theorem gather_no_sources
    (ticker company agent : string) (sources : option (list string))
    (theme directive : option string) (dry_run : bool) (w : W) :
  resolve_sources agent sources = [] ->
  let r := gather E ticker company agent sources theme directive dry_run w in
  r_success (result_of r) = false /\
  PyStr.contains (r_summary (result_of r)) "No sources" /\
  r_gather_results (result_of r) = [] /\
  r_store_results (result_of r) = [] /\
  trace_of r = [] /\
  (forall s, EvUpload s ∉ trace_of r) /\
  (EvReindex ∉ trace_of r) /\
  world_of r = w.
Proof.
  intros Hres. cbv zeta. rewrite (gather_empty _ _ _ _ _ _ _ _ Hres).
  rewrite result_of_run, trace_of_run, world_of_run.
  cbn [r_success r_summary r_gather_results r_store_results
       no_sources_report].
  repeat split; try (intros; apply not_elem_of_nil).
  by exists EmptyString, (" configured for agent '" ++ agent ++ "'").
Qed.

(** C4. For a non-empty source list, the success flag of the report is
    true exactly when some source's gather succeeded; it is the same
    whatever the storage and reindex sinks answer and whether or not
    the run is dry. The digest ends with the clause
    " (failed: n1, n2, ...)" listing every failed source, and with
    nothing when no source failed. The storage sink is called only for
    sources whose gather succeeded with non-empty markdown. *)
Theorem gather_partial_success
    (ticker company agent : string) (sources : option (list string))
    (theme directive : option string) (dry_run : bool) (w : W) :
  resolve_sources agent sources <> [] ->
  let srcs := resolve_sources agent sources in
  let grs := result_of (gather_loop E (List.last srcs EmptyString) ticker
                          company theme directive srcs w) in
  let r := gather E ticker company agent sources theme directive dry_run w in
  (r_success (result_of r) = true <->
     exists gr, gr ∈ grs /\ success gr = true) /\
  (r_success (result_of r) = true <->
     exists ge, ge ∈ r_gather_results (result_of r) /\ ge_success ge = true) /\
  (forall (E' : env W) (dry_run' : bool),
     gather_func E' = gather_func E -> sleep E' = sleep E ->
     r_success (result_of (gather E' ticker company agent sources theme
                             directive dry_run' w))
     = r_success (result_of r)) /\
  r_summary (result_of r) = summary_head ticker grs ++ failed_clause grs /\
  ((forall gr, gr ∈ grs -> success gr = true) ->
     failed_clause grs = EmptyString) /\
  (forall gr, gr ∈ grs -> success gr = false ->
     source gr ∈ map source (failed_of grs) /\
     failed_clause grs =
       " (failed: " ++ PyStr.join ", " (map source (failed_of grs)) ++ ")" /\
     PyStr.contains (failed_clause grs) (source gr)) /\
  (forall s, EvUpload s ∈ trace_of r ->
     exists gr, gr ∈ grs /\ source gr = s /\ success gr = true /\
                markdown gr <> EmptyString).
Proof.
  intros Hne. cbv zeta.
  rewrite (gather_phases E ticker company agent sources theme directive
             dry_run w Hne).
  set (srcs := resolve_sources agent sources).
  set (p1 := gather_loop E (List.last srcs EmptyString) ticker company
               theme directive srcs w).
  set (p2 := store_loop E ticker (utc_now_isoformat E w) dry_run false
               (result_of p1) (world_of p1)).
  set (p3 := reindex_step E dry_run (result_of p2).2 (world_of p2)).
  rewrite !result_of_run, !trace_of_run.
  cbn [r_success r_summary r_gather_results final_report].
  split; [|split; [|split; [|split; [|split; [|split]]]]].
  - apply succeeded_nonempty.
  - rewrite succeeded_nonempty. split.
    + intros (gr & Hin & Hs).
      exists (GatherEntry (source gr) (success gr) (metric_count gr) (error gr)).
      split; [|done]. apply list_elem_of_In, in_map_iff.
      exists gr. by rewrite <- list_elem_of_In.
    + intros (ge & Hin & Hs).
      apply list_elem_of_In, in_map_iff in Hin as (gr & <- & Hin).
      exists gr. by rewrite list_elem_of_In.
  - intros E' dry_run' Hg Hs.
    rewrite (gather_phases E' ticker company agent sources theme directive
               dry_run' w Hne).
    rewrite result_of_run. cbn [r_success final_report].
    fold srcs. by rewrite (gather_loop_env E E' _ _ _ _ _ _ _ Hg Hs).
  - done.
  - apply failed_clause_none.
  - apply failed_clause_names.
  - intros s. rewrite !elem_of_app. intros [Hin|[Hin|Hin]].
    + apply gather_loop_trace_events in Hin
        as [(s' & _ & [[=]|[=]])|[=]].
    + apply store_loop_trace_events in Hin as (_ & gr & Hgr & Hst & [= ->]).
      exists gr. unfold storable in Hst.
      apply andb_true_iff in Hst as [Hs Hmd].
      apply negb_true_iff, bool_decide_eq_false in Hmd. done.
    + apply reindex_step_trace_events in Hin as ([=] & _).
Qed.

(** C5 (amended). The reindex sink is called only in a run that is not
    dry and in which some store result succeeded, and then at most once,
    however many sources were stored. In such a run it is called unless
    its import from the store module fails, which the recorded result
    then says; so when the sink can be imported and the run is not dry,
    it is called if and only if some store result succeeded. In a dry
    run it is never called; a simulated result is recorded instead when
    some store result succeeded. When no store result succeeded, in
    particular when every source failed or produced empty content, the
    sink is not called and a made-up result is recorded:
    "No data stored — skipping reindex", or "No sources to gather" when
    the source list is empty. *)
Theorem reindex_once_when_stored
    (ticker company agent : string) (sources : option (list string))
    (theme directive : option string) (dry_run : bool) (w : W) :
  let srcs := resolve_sources agent sources in
  let grs := result_of (gather_loop E (List.last srcs EmptyString) ticker
                          company theme directive srcs w) in
  let r := gather E ticker company agent sources theme directive dry_run w in
  let stored := (exists se, se ∈ r_store_results (result_of r) /\
                            se_success se = true) in
  (EvReindex ∈ trace_of r -> dry_run = false /\ stored) /\
  (dry_run = false -> stored ->
     EvReindex ∈ trace_of r \/
     r_reindex (result_of r) =
       ReindexResult false
         "store.py not available — cannot trigger reindex") /\
  (dry_run = false -> reindex_importable E -> reindex_iff_stored r) /\
  (dry_run = true -> EvReindex ∉ trace_of r) /\
  (dry_run = true -> stored ->
     r_reindex (result_of r) =
       ReindexResult true "[DRY RUN] Would trigger KB reindex") /\
  (count_occ event_eq_dec (trace_of r) EvReindex <= 1)%nat /\
  (EvReindex ∈ trace_of r ->
     count_occ event_eq_dec (trace_of r) EvReindex = 1%nat) /\
  (~ stored ->
     (EvReindex ∉ trace_of r) /\
     r_reindex (result_of r) =
       ReindexResult false
         (if decide (srcs = []) then "No sources to gather"
          else "No data stored — skipping reindex")) /\
  ((forall gr, gr ∈ grs -> success gr = false \/ markdown gr = EmptyString) ->
     ~ stored).
Proof.
  cbv zeta. unfold reindex_iff_stored.
  destruct (decide (resolve_sources agent sources = [])) as [Hres|Hne].
  { rewrite (gather_empty _ _ _ _ _ _ _ _ Hres).
    rewrite !result_of_run, !trace_of_run.
    cbn [r_store_results r_reindex no_sources_report count_occ].
    assert (~ exists se : store_entry, se ∈ @nil store_entry /\
                                       se_success se = true) as Hno.
    { intros (se & Hin & _). by apply elem_of_nil in Hin. }
    split; [|split; [|split; [|split; [|split; [|split; [|split; [|split]]]]]]].
    - intros Hin. by apply elem_of_nil in Hin.
    - intros _ Hst'. by apply Hno in Hst'.
    - intros _ _. split; [intros Hin; by apply elem_of_nil in Hin|done].
    - intros _. apply not_elem_of_nil.
    - intros _ Hst'. by apply Hno in Hst'.
    - lia.
    - intros Hin. by apply elem_of_nil in Hin.
    - intros _. split; [apply not_elem_of_nil|done].
    - done. }
  rewrite (gather_phases E ticker company agent sources theme directive
             dry_run w Hne).
  set (srcs := resolve_sources agent sources).
  set (p1 := gather_loop E (List.last srcs EmptyString) ticker company
               theme directive srcs w).
  set (p2 := store_loop E ticker (utc_now_isoformat E w) dry_run false
               (result_of p1) (world_of p1)).
  set (p3 := reindex_step E dry_run (result_of p2).2 (world_of p2)).
  rewrite !result_of_run, !trace_of_run.
  cbn [r_store_results r_reindex final_report].
  rewrite store_entries_success.
  assert ((result_of p2).2 = existsb sr_success (result_of p2).1) as Hany
    by (unfold p2; by rewrite store_loop_any at 1).
  assert (forall e, e ∈ trace_of p1 -> e <> EvReindex) as H1.
  { intros e He ->.
    by apply gather_loop_trace_events in He as [(s & _ & [[=]|[=]])|[=]]. }
  assert (forall e, e ∈ trace_of p2 -> e <> EvReindex) as H2.
  { intros e He ->.
    by apply store_loop_trace_events in He as (_ & gr & _ & _ & [=]). }
  set (called := (result_of p2).2 && negb dry_run
                 && reached (trigger_kb_reindex E (world_of p2)).1).
  assert (trace_of p3 = if called then [EvReindex] else []) as Hp3.
  { unfold p3. by rewrite reindex_step_trace. }
  assert (EvReindex ∈ (trace_of p1 ++ trace_of p2 ++ trace_of p3)%list <->
          called = true) as Hmem.
  { rewrite !elem_of_app, Hp3. split.
    - intros [Hin|[Hin|Hin]]; [by apply H1 in Hin | by apply H2 in Hin |].
      destruct called; [done|by apply elem_of_nil in Hin].
    - intros ->. right. right. by left. }
  assert (count_occ event_eq_dec
            (trace_of p1 ++ trace_of p2 ++ trace_of p3)%list EvReindex =
          if called then 1%nat else 0%nat)
    as Hcount.
  { rewrite !count_occ_app.
    rewrite (proj1 (count_occ_not_In event_eq_dec (trace_of p1) EvReindex)).
    2:{ intros Hin%list_elem_of_In. by apply H1 in Hin. }
    rewrite (proj1 (count_occ_not_In event_eq_dec (trace_of p2) EvReindex)).
    2:{ intros Hin%list_elem_of_In. by apply H2 in Hin. }
    rewrite Hp3. destruct called; [|done]. cbn [count_occ].
    by destruct (event_eq_dec EvReindex EvReindex). }
  rewrite Hmem, Hcount. unfold called. rewrite <- Hany.
  destruct (decide (srcs = [])) as [Hs|_]; [by destruct Hne|].
  split; [|split; [|split; [|split; [|split; [|split; [|split; [|split]]]]]]].
  - intros Hc. apply andb_true_iff in Hc as [Hc _].
    apply andb_true_iff in Hc as [Hst Hdry].
    split; [by destruct dry_run|done].
  - intros -> Hst. rewrite Hst. cbn [andb negb].
    destruct (reached _) eqn:Hr; [by left|right].
    unfold p3. rewrite reindex_step_result, Hst.
    by apply trigger_reindex_not_reached.
  - intros -> Himp. rewrite Himp. by rewrite !andb_true_r.
  - intros ->. by rewrite andb_false_r.
  - intros -> Hst. unfold p3. rewrite reindex_step_result. by rewrite Hst.
  - destruct (_ && _ && _); lia.
  - by intros ->.
  - intros Hst. apply not_true_is_false in Hst.
    split; [by rewrite Hst|].
    unfold p3. rewrite reindex_step_result. by rewrite Hst.
  - intros Hall. rewrite Hany. unfold p2.
    rewrite store_loop_nothing_storable; [done|].
    intros gr Hgr. unfold storable.
    destruct (Hall gr Hgr) as [->| ->]; [done|].
    rewrite bool_decide_eq_true_2 by done. apply andb_false_r.
Qed.

(** C6 (evaluation at the failing input). With the source list
    [web, web] both runs take place and no pause is made between them:
    the loop compares each source name with the name of the last
    source, so a name equal to the last one never pauses. *)
Theorem duplicate_source_skips_pacing
    (theme directive : option string) (dry_run : bool) (w : W) :
  let r := gather E "CAKE" "The Cheesecake Factory" "nova"
             (Some ["web"; "web"]) theme directive dry_run w in
  (EvSleep ∉ trace_of r) /\
  exists rest,
    trace_of r =
      ([EvRunSource "web"; EvFetch "web"; EvRunSource "web"; EvFetch "web"]
         ++ rest)%list.
Proof.
  cbv zeta.
  assert (resolve_sources "nova" (Some ["web"; "web"]) <> []) as Hne by done.
  rewrite (gather_phases E _ _ _ _ theme directive dry_run w Hne).
  rewrite !trace_of_run.
  cbn [resolve_sources List.last].
  rewrite gather_loop_trace.
  assert (concat (map (fun s => run_events s ++ pacing "web" s)%list
                    ["web"; "web"]) =
          [EvRunSource "web"; EvFetch "web"; EvRunSource "web";
           EvFetch "web"]) as -> by (vm_compute; reflexivity).
  split; [|by eexists].
  rewrite !elem_of_app. intros [Hin|[Hin|Hin]].
  - repeat (apply elem_of_cons in Hin as [[=]|Hin]).
    by apply elem_of_nil in Hin.
  - by apply store_loop_trace_events in Hin as (_ & gr & _ & _ & [=]).
  - by apply reindex_step_trace_events in Hin as ([=] & _).
Qed.

End Claims.

(** A witness of C8 on a source name that is not registered. *)
Lemma run_source_unknown_witness :
  let r := run_source Worlds.all_up "nonexistent" "CAKE" "Cheesecake Factory"
             None None tt in
  result_of r =
    {| source := "nonexistent"; success := false; markdown := EmptyString;
       metric_count := 0;
       error := Some "Unknown source: nonexistent" |} /\
  trace_of r = [EvRunSource "nonexistent"] /\
  (forall s', EvFetch s' ∉ trace_of r) /\
  world_of r = tt.
Proof.
  apply (run_source_unknown Worlds.all_up "nonexistent" "CAKE"
           "Cheesecake Factory" None None tt).
  vm_compute. reflexivity.
Defined.


(** A witness of C9: agent max has no default source. *)
Lemma gather_no_sources_witness :
  resolve_sources "max" None = [] /\
  let r := gather Worlds.all_up "CAKE" "The Cheesecake Factory" "max" None
             None None true tt in
  r_success (result_of r) = false /\
  PyStr.contains (r_summary (result_of r)) "No sources" /\
  r_gather_results (result_of r) = [] /\
  r_store_results (result_of r) = [] /\
  trace_of r = [] /\
  (forall s, EvUpload s ∉ trace_of r) /\
  (EvReindex ∉ trace_of r) /\
  world_of r = tt.
Proof.
  split; [reflexivity|].
  apply (gather_no_sources Worlds.all_up "CAKE" "The Cheesecake Factory"
           "max" None None None true tt).
  reflexivity.
Defined.

(** A witness of C4: the web gatherer is down, fundamentals answers. *)
Lemma gather_partial_success_witness :
  resolve_sources "nova" None <> [] /\
  r_success
    (result_of (gather Worlds.web_down "CAKE" "The Cheesecake Factory"
                  "nova" None None None false tt)) = true /\
  r_summary
    (result_of (gather Worlds.web_down "CAKE" "The Cheesecake Factory"
                  "nova" None None None false tt))
  = "$CAKE: 16 financial metrics (failed: web)".
Proof.
  assert (resolve_sources "nova" None <> []) as Hne by (vm_compute; discriminate).
  split; [exact Hne|].
  destruct (gather_partial_success Worlds.web_down "CAKE"
              "The Cheesecake Factory" "nova" None None None false tt Hne)
    as (Hsucc & _ & _ & Hsum & _).
  split.
  - apply Hsucc.
    exists (GatherResult "fundamentals" true "# Report" 16 None).
    split; [|reflexivity]. vm_compute. right. left.
  - rewrite Hsum. vm_compute. reflexivity.
Defined.

(** The counterexample to C5 as stated: in a dry run a (simulated) store
    result succeeds although the reindex sink is not called. *)
Lemma dry_run_reindex_counterexample :
  ~ reindex_iff_stored
      (gather Worlds.all_up "CAKE" "The Cheesecake Factory" "nova"
         (Some ["web"]) None None true tt).
Proof.
  intros [_ Hstored].
  assert (EvReindex ∈
            trace_of (gather Worlds.all_up "CAKE" "The Cheesecake Factory"
                        "nova" (Some ["web"]) None None true tt)) as Hin.
  { apply Hstored.
    exists (StoreEntry "web" true "research/2026-11-03/CAKE_web.md"
              "[DRY RUN] Would upload to research/2026-11-03/CAKE_web.md").
    split; [|reflexivity]. vm_compute. left. }
  vm_compute in Hin.
  repeat (apply elem_of_cons in Hin as [[=]|Hin]).
  by apply elem_of_nil in Hin.
Qed.

(** A witness of C5 (amended): a regular run in which everything
    succeeds. *)
Lemma reindex_once_when_stored_witness :
  reindex_iff_stored
    (gather Worlds.all_up "CAKE" "The Cheesecake Factory" "nova" None None
       None false tt).
Proof.
  apply (proj1 (proj2 (proj2
           (reindex_once_when_stored Worlds.all_up "CAKE"
              "The Cheesecake Factory" "nova" None None None false tt)))).
  - reflexivity.
  - intros w. reflexivity.
Defined.

(** The digest of the specification's example: web with five items and
    fundamentals with sixteen. *)
Example digest_all_up :
  r_summary
    (result_of (gather Worlds.all_up "CAKE" "The Cheesecake Factory" "nova"
                  None None None true tt))
  = "$CAKE: 5 articles/filings, 16 financial metrics".
Proof. vm_compute. reflexivity. Qed.

(** With distinct sources the pause falls between the two runs. *)
Example pacing_all_up :
  trace_of (gather Worlds.all_up "CAKE" "The Cheesecake Factory" "nova"
              None None None true tt)
  = [EvRunSource "web"; EvFetch "web"; EvSleep;
     EvRunSource "fundamentals"; EvFetch "fundamentals"].
Proof. vm_compute. reflexivity. Qed.

End OrchestratorProofs.

Module OrchestratorExtras.
Import Orchestrator OrchestratorProofs Traces Cli.

Section Extras.
Context {W : Type} (E : env W).

Lemma runs_app t1 t2 : runs (t1 ++ t2) = (runs t1 ++ runs t2)%list.
Proof. apply omap_app. Qed.

Lemma fetches_app t1 t2 : fetches (t1 ++ t2) = (fetches t1 ++ fetches t2)%list.
Proof. apply omap_app. Qed.

Lemma uploads_app t1 t2 : uploads (t1 ++ t2) = (uploads t1 ++ uploads t2)%list.
Proof. apply omap_app. Qed.

Lemma run_events_runs s : runs (run_events s) = [s].
Proof. unfold run_events. by destruct (decide _). Qed.

Lemma run_events_fetches s :
  fetches (run_events s) = if registered s then [s] else [].
Proof.
  unfold run_events, registered.
  destruct (decide (is_Some (SOURCE_REGISTRY !! s))) as [H|H].
  - by rewrite bool_decide_eq_true_2.
  - by rewrite bool_decide_eq_false_2.
Qed.

Lemma run_events_uploads s : uploads (run_events s) = [].
Proof. unfold run_events. by destruct (decide _). Qed.

Lemma pacing_quiet last_source s :
  runs (pacing last_source s) = [] /\ fetches (pacing last_source s) = [] /\
  uploads (pacing last_source s) = [].
Proof. unfold pacing. by destruct (bool_decide _). Qed.

Lemma gather_trace_runs last_source srcs :
  runs (concat (map (fun s => run_events s ++ pacing last_source s)%list srcs))
  = srcs.
Proof.
  induction srcs as [|s srcs IH]; [done|].
  cbn [map concat]. rewrite !runs_app, run_events_runs, IH.
  by rewrite (proj1 (pacing_quiet last_source s)).
Qed.

Lemma gather_trace_fetches last_source srcs :
  fetches (concat (map (fun s => run_events s ++ pacing last_source s)%list srcs))
  = List.filter registered srcs.
Proof.
  induction srcs as [|s srcs IH]; [done|].
  cbn [map concat List.filter]. rewrite !fetches_app, run_events_fetches, IH.
  rewrite (proj1 (proj2 (pacing_quiet last_source s))).
  by destruct (registered s).
Qed.

Lemma gather_trace_uploads last_source srcs :
  uploads (concat (map (fun s => run_events s ++ pacing last_source s)%list srcs))
  = [].
Proof.
  induction srcs as [|s srcs IH]; [done|].
  cbn [map concat]. rewrite !uploads_app, run_events_uploads, IH.
  by rewrite (proj2 (proj2 (pacing_quiet last_source s))).
Qed.

Lemma upload_events ups :
  runs (map EvUpload ups) = [] /\ fetches (map EvUpload ups) = [] /\
  uploads (map EvUpload ups) = ups.
Proof.
  induction ups as [|s ups (IH1 & IH2 & IH3)]; [done|].
  split; [exact IH1|]. split; [exact IH2|].
  change (s :: uploads (map EvUpload ups) = s :: ups). by rewrite IH3.
Qed.

Lemma store_trace_quiet ticker ts dry any grs w :
  runs (trace_of (store_loop E ticker ts dry any grs w)) = [] /\
  fetches (trace_of (store_loop E ticker ts dry any grs w)) = [].
Proof.
  destruct (store_loop_trace E ticker ts dry any grs w) as (ups & -> & _).
  by destruct (upload_events ups) as (-> & -> & _).
Qed.

Lemma store_trace_uploads ticker ts dry any grs w :
  sublist (uploads (trace_of (store_loop E ticker ts dry any grs w)))
    (map source (List.filter storable grs)) /\
  (dry = true ->
   uploads (trace_of (store_loop E ticker ts dry any grs w)) = []) /\
  (dry = false -> upload_importable E ->
   uploads (trace_of (store_loop E ticker ts dry any grs w)) =
   map source (List.filter storable grs)).
Proof.
  destruct (store_loop_trace E ticker ts dry any grs w)
    as (ups & -> & Hsub & Hdry & Hall).
  by destruct (upload_events ups) as (_ & _ & ->).
Qed.

Lemma reindex_trace_quiet dry any w :
  runs (trace_of (reindex_step E dry any w)) = [] /\
  fetches (trace_of (reindex_step E dry any w)) = [] /\
  uploads (trace_of (reindex_step E dry any w)) = [].
Proof. rewrite reindex_step_trace. by destruct (_ && _ && _). Qed.

Lemma gather_runs_fetches ticker company agent sources theme directive
    dry_run w :
  runs (trace_of (gather E ticker company agent sources theme directive
                    dry_run w))
  = resolve_sources agent sources /\
  fetches (trace_of (gather E ticker company agent sources theme directive
                       dry_run w))
  = List.filter registered (resolve_sources agent sources).
Proof.
  destruct (decide (resolve_sources agent sources = [])) as [Hres|Hne].
  - rewrite (gather_empty E _ _ _ _ _ _ _ _ Hres), trace_of_run, Hres. done.
  - rewrite (gather_phases E _ _ _ _ _ _ _ _ Hne), trace_of_run.
    rewrite !runs_app, !fetches_app, gather_loop_trace.
    rewrite gather_trace_runs, gather_trace_fetches.
    destruct (store_trace_quiet ticker (utc_now_isoformat E w) dry_run false
                (result_of (gather_loop E
                   (List.last (resolve_sources agent sources) EmptyString)
                   ticker company theme directive
                   (resolve_sources agent sources) w))
                (world_of (gather_loop E
                   (List.last (resolve_sources agent sources) EmptyString)
                   ticker company theme directive
                   (resolve_sources agent sources) w))) as [-> ->].
    match goal with
    | |- context [reindex_step E ?d ?a ?w'] =>
        destruct (reindex_trace_quiet d a w') as (-> & -> & _)
    end.
    by rewrite !app_nil_r.
Qed.

(** X1. Every source of the list is run once, in the order of the list,
    whatever the earlier sources did. The [try] body of [run_source],
    which imports the module of the source and calls its gather
    function, is entered once for each registered source of the list, in
    order, and never for another name: an attempt is not repeated after
    a failure, and none is made for an unknown source. *)
Theorem every_source_runs_once
    (ticker company agent : string) (sources : option (list string))
    (theme directive : option string) (dry_run : bool) (w : W) :
  let r := gather E ticker company agent sources theme directive dry_run w in
  runs (trace_of r) = resolve_sources agent sources /\
  fetches (trace_of r) = List.filter registered (resolve_sources agent sources).
Proof. apply gather_runs_fetches. Qed.

Lemma report_success_entries ticker company agent sources theme directive
    dry_run w :
  r_success (result_of (gather E ticker company agent sources theme directive
                          dry_run w)) = true <->
  exists ge,
    ge ∈ r_gather_results
           (result_of (gather E ticker company agent sources theme directive
                         dry_run w)) /\
    ge_success ge = true.
Proof.
  destruct (decide (resolve_sources agent sources = [])) as [Hres|Hne].
  - rewrite (gather_empty E _ _ _ _ _ _ _ _ Hres), result_of_run.
    cbn [r_success r_gather_results no_sources_report]. split; [done|].
    intros (ge & Hin & _). by apply elem_of_nil in Hin.
  - rewrite (gather_phases E _ _ _ _ _ _ _ _ Hne), result_of_run.
    cbn [r_success r_gather_results final_report].
    rewrite succeeded_nonempty. split.
    + intros (gr & Hin & Hs).
      exists (GatherEntry (source gr) (success gr) (metric_count gr) (error gr)).
      split; [|done]. apply list_elem_of_In, in_map_iff.
      exists gr. by rewrite <- list_elem_of_In.
    + intros (ge & Hin & Hs).
      apply list_elem_of_In, in_map_iff in Hin as (gr & <- & Hin).
      exists gr. by rewrite list_elem_of_In.
Qed.

(** *** Results of the phases *)

Lemma gather_loop_length last_source ticker company theme directive srcs w :
  length (result_of
            (gather_loop E last_source ticker company theme directive srcs w))
  = length srcs.
Proof.
  rewrite <- (gather_loop_sources E last_source ticker company theme directive
                srcs w) at 2.
  by rewrite length_map.
Qed.

(** Each store result answers the gather result at the same position. *)
Lemma store_loop_results ticker ts dry any grs w :
  Forall2 (fun gr sr =>
             if storable gr
             then dry = true -> sr = dry_result ticker ts gr
             else sr = skipped_result gr)
    grs (result_of (store_loop E ticker ts dry any grs w)).1.
Proof.
  revert any w. induction grs as [|gr grs IH]; intros any w.
  - constructor.
  - cbn [store_loop]. destruct (storable gr) eqn:Hst.
    + unfold bind.
      assert (dry = true ->
              result_of (store_source_result E ticker (source gr)
                           (markdown gr) ts dry w) = dry_result ticker ts gr)
        as Hdry by (by intros ->).
      destruct (store_source_result E ticker (source gr) (markdown gr)
                  ts dry w) as [[sr t] w1].
      specialize (IH (if sr_success sr then true else any) w1).
      destruct (store_loop E ticker ts dry
                  (if sr_success sr then true else any) grs w1)
        as [[res t'] w2].
      unfold result_of, ret in *. simpl in *.
      constructor; [by rewrite Hst|done].
    + unfold bind, ret. specialize (IH any w).
      destruct (store_loop E ticker ts dry any grs w) as [[res t'] w2].
      unfold result_of in *. simpl in *.
      constructor; [by rewrite Hst|done].
Qed.

Lemma store_loop_length ticker ts dry any grs w :
  length (result_of (store_loop E ticker ts dry any grs w)).1 = length grs.
Proof.
  symmetry. eapply Forall2_length, store_loop_results.
Qed.

(** A dry run does not touch the world in its store phase. *)
Lemma store_loop_dry_world ticker ts any grs w :
  world_of (store_loop E ticker ts true any grs w) = w.
Proof.
  revert any. induction grs as [|gr grs IH]; intros any; [done|].
  cbn [store_loop]. destruct (storable gr).
  - unfold bind. cbn [store_source_result]. unfold ret at 1.
    cbn [sr_success]. specialize (IH true).
    destruct (store_loop E ticker ts true true grs w) as [[res t'] w2].
    unfold world_of, ret in *. simpl in *. done.
  - unfold bind, ret. specialize (IH any).
    destruct (store_loop E ticker ts true any grs w) as [[res t'] w2].
    unfold world_of in *. simpl in *. done.
Qed.

Lemma imap_entries (srcs : list string) (srs : list store_result) :
  length srs = length srcs ->
  imap (fun i sr => entry_of (default "unknown" (srcs !! i)) sr) srs =
  zip_with entry_of srcs srs.
Proof.
  revert srcs. induction srs as [|sr srs IH]; intros [|s srcs] Hlen;
    try done.
  rewrite imap_cons. cbn [zip_with lookup list_lookup default from_option id].
  f_equal. rewrite <- IH by (simpl in Hlen; lia).
  by apply imap_ext.
Qed.

Lemma zip_entries_sources (srcs : list string) (srs : list store_result) :
  length srs = length srcs ->
  map se_source (zip_with entry_of srcs srs) = srcs.
Proof.
  revert srs. induction srcs as [|s srcs IH]; intros [|sr srs] Hlen; try done.
  cbn [zip_with map]. f_equal. apply IH. simpl in Hlen. lia.
Qed.

Lemma Forall2_eq_map {A B} (f : A -> B) (l : list A) (k : list B) :
  Forall2 (fun a b => b = f a) l k -> k = map f l.
Proof. induction 1 as [|a b l k -> _ IH]; [done|]. cbn [map]. by rewrite IH. Qed.

Lemma zip_entries_map (f : gather_result -> store_result) grs :
  zip_with entry_of (map source grs) (map f grs) =
  map (fun gr => entry_of (source gr) (f gr)) grs.
Proof. induction grs as [|gr grs IH]; [done|]. cbn [map zip_with]. by rewrite IH. Qed.

Lemma reindex_step_dry_world any w :
  world_of (reindex_step E true any w) = w.
Proof. unfold reindex_step. by destruct any. Qed.

(** The store entries of a report, read off the store phase. *)
Lemma report_store_entries ticker company agent sources theme directive dry w :
  resolve_sources agent sources <> [] ->
  let srcs := resolve_sources agent sources in
  let p1 := gather_loop E (List.last srcs EmptyString) ticker company
              theme directive srcs w in
  let p2 := store_loop E ticker (utc_now_isoformat E w) dry false
              (result_of p1) (world_of p1) in
  r_store_results
    (result_of (gather E ticker company agent sources theme directive dry w))
  = zip_with entry_of (map source (result_of p1)) (result_of p2).1.
Proof.
  intros Hne. cbv zeta.
  rewrite (gather_phases E _ _ _ _ _ _ _ _ Hne), result_of_run.
  cbn [r_store_results final_report].
  rewrite gather_loop_sources.
  apply (imap_entries (resolve_sources agent sources)).
  by rewrite store_loop_length, gather_loop_length.
Qed.

(** *** Properties *)

(** X2. The result of [run_source] always names its source; it succeeds
    exactly when the source is registered and its gather function
    returned; a success carries no error, a failure carries an error
    message, empty markdown and a count of zero. *)
Theorem run_source_result_shape
    (s ticker company : string) (theme directive : option string) (w : W) :
  let gr := result_of (run_source E s ticker company theme directive w) in
  source gr = s /\
  (success gr = true <->
     exists m f payload w',
       SOURCE_REGISTRY !! s = Some (m, f) /\
       gather_func E m f ticker company theme directive w
         = (Returned payload, w')) /\
  (success gr = true -> error gr = None) /\
  (success gr = false ->
     (exists msg, error gr = Some msg) /\ markdown gr = EmptyString /\
     metric_count gr = 0).
Proof.
  cbv zeta. unfold run_source, bind, emit, call_gather, result_of.
  destruct (SOURCE_REGISTRY !! s) as [[m f]|] eqn:Hs; simpl.
  - destruct (gather_func E m f ticker company theme directive w)
      as [[payload|msg] w'] eqn:Hg; simpl.
    + repeat split; try done. intros _. by exists m, f, payload, w'.
    + repeat split; try done.
      * intros (m' & f' & payload & w'' & [= <- <-] & Hg'). congruence.
      * by eexists.
  - repeat split; try done.
    + by intros (m & f & payload & w' & [=] & _).
    + by eexists.
Qed.

(** X3. The lists of the report follow the source list: one gather entry and
    one store entry per source, in the order of the sources, each under
    the name of its source. *)
Theorem report_lists_follow_sources
    (ticker company agent : string) (sources : option (list string))
    (theme directive : option string) (dry_run : bool) (w : W) :
  let srcs := resolve_sources agent sources in
  let r := gather E ticker company agent sources theme directive dry_run w in
  r_sources (result_of r) = srcs /\
  map ge_source (r_gather_results (result_of r)) = srcs /\
  map se_source (r_store_results (result_of r)) = srcs.
Proof.
  cbv zeta.
  destruct (decide (resolve_sources agent sources = [])) as [Hres|Hne].
  - rewrite (gather_empty E _ _ _ _ _ _ _ _ Hres), result_of_run, Hres. done.
  - rewrite (report_store_entries _ _ _ _ _ _ _ _ Hne).
    rewrite (gather_phases E _ _ _ _ _ _ _ _ Hne), result_of_run.
    cbn [r_sources r_gather_results final_report].
    split; [done|]. split.
    + rewrite map_map. cbn [ge_source]. apply gather_loop_sources.
    + rewrite zip_entries_sources; [apply gather_loop_sources|].
      by rewrite store_loop_length, length_map.
Qed.

(** X4. A store entry that succeeded stands at the position of a gather
    result that succeeded with non-empty markdown, and bears its source
    name. *)
Theorem stored_only_after_gathered
    (ticker company agent : string) (sources : option (list string))
    (theme directive : option string) (dry_run : bool) (w : W)
    (i : nat) (se : store_entry) :
  let srcs := resolve_sources agent sources in
  let grs := result_of (gather_loop E (List.last srcs EmptyString) ticker
                          company theme directive srcs w) in
  let r := gather E ticker company agent sources theme directive dry_run w in
  r_store_results (result_of r) !! i = Some se ->
  se_success se = true ->
  exists gr, grs !! i = Some gr /\ source gr = se_source se /\
             success gr = true /\ markdown gr <> EmptyString.
Proof.
  cbv zeta. intros Hse Hok.
  destruct (decide (resolve_sources agent sources = [])) as [Hres|Hne].
  { rewrite (gather_empty E _ _ _ _ _ _ _ _ Hres), result_of_run in Hse.
    done. }
  rewrite (report_store_entries _ _ _ _ _ _ _ _ Hne) in Hse.
  apply lookup_zip_with_Some in Hse as (src & sr & -> & Hsrc & Hsr).
  pose proof (store_loop_results ticker (utc_now_isoformat E w) dry_run false
                (result_of (gather_loop E
                   (List.last (resolve_sources agent sources) EmptyString)
                   ticker company theme directive
                   (resolve_sources agent sources) w))
                (world_of (gather_loop E
                   (List.last (resolve_sources agent sources) EmptyString)
                   ticker company theme directive
                   (resolve_sources agent sources) w))) as Hall.
  destruct (Forall2_lookup_r _ _ _ _ _ Hall Hsr) as (gr & Hgr & Hrel).
  exists gr. split; [done|].
  assert (src = source gr) as ->.
  { change (map source ?l) with (source <$> l) in Hsrc.
    rewrite list_lookup_fmap, Hgr in Hsrc. by injection Hsrc. }
  split; [done|].
  destruct (storable gr) eqn:Hst.
  - unfold storable in Hst. apply andb_true_iff in Hst as [Hs Hmd].
    split; [done|]. by apply negb_true_iff, bool_decide_eq_false in Hmd.
  - subst sr. done.
Qed.

(** X5. In a dry run no sink is contacted: nothing is uploaded, the reindex
    sink is not called, and the world is left as the gather phase left
    it. Each store entry is either the simulated success, with the key
    research/<date>/<ticker>_<source>.md, or the skipped record. *)
Theorem dry_run_contacts_no_sink
    (ticker company agent : string) (sources : option (list string))
    (theme directive : option string) (w : W) :
  let srcs := resolve_sources agent sources in
  let p1 := gather_loop E (List.last srcs EmptyString) ticker company theme
              directive srcs w in
  let ts := utc_now_isoformat E w in
  let r := gather E ticker company agent sources theme directive true w in
  uploads (trace_of r) = [] /\
  (EvReindex ∉ trace_of r) /\
  world_of r = world_of p1 /\
  r_store_results (result_of r) =
    map (fun gr =>
           entry_of (source gr)
             (if storable gr then dry_result ticker ts gr
              else skipped_result gr))
      (result_of p1).
Proof.
  cbv zeta.
  destruct (decide (resolve_sources agent sources = [])) as [Hres|Hne].
  { rewrite (gather_empty E _ _ _ _ _ _ _ _ Hres).
    rewrite result_of_run, trace_of_run, world_of_run, Hres.
    repeat split; try done. apply not_elem_of_nil. }
  rewrite (report_store_entries _ _ _ _ _ _ _ _ Hne).
  rewrite (gather_phases E _ _ _ _ _ _ _ _ Hne), trace_of_run, world_of_run.
  set (srcs := resolve_sources agent sources).
  set (p1 := gather_loop E (List.last srcs EmptyString) ticker company theme
               directive srcs w).
  set (p2 := store_loop E ticker (utc_now_isoformat E w) true false
               (result_of p1) (world_of p1)).
  split; [|split; [|split]].
  - rewrite !uploads_app. unfold p1. rewrite gather_loop_trace.
    rewrite gather_trace_uploads. unfold p2.
    rewrite (proj1 (proj2 (store_trace_uploads _ _ _ _ _ _)) eq_refl).
    by rewrite (proj2 (proj2 (reindex_trace_quiet true _ _))).
  - rewrite !elem_of_app. intros [Hin|[Hin|Hin]].
    + by apply gather_loop_trace_events in Hin as [(s & _ & [[=]|[=]])|[=]].
    + by apply store_loop_trace_events in Hin as ([=] & _).
    + by apply reindex_step_trace_events in Hin as (_ & _ & [=]).
  - rewrite reindex_step_dry_world. unfold p2. apply store_loop_dry_world.
  - rewrite <- zip_entries_map. f_equal.
    apply Forall2_eq_map.
    eapply Forall2_impl; [apply store_loop_results|].
    intros gr sr Hrel. cbv beta in Hrel.
    destruct (storable gr); [by apply Hrel|done].
Qed.



Lemma filter_none {A} (f : A -> bool) (l : list A) :
  (forall x, x ∈ l -> f x = false) -> List.filter f l = [].
Proof.
  induction l as [|x l IH]; intros Hall; [done|].
  cbn [List.filter]. rewrite (Hall x) by left.
  apply IH. intros y Hy. apply Hall. by right.
Qed.

Lemma run_events_paced s :
  List.filter run_or_sleep (run_events s) = [EvRunSource s].
Proof. unfold run_events. by destruct (decide _). Qed.

Lemma gather_trace_paced init l :
  l ∉ init ->
  List.filter run_or_sleep
    (concat (map (fun s => run_events s ++ pacing l s)%list (init ++ [l]))) =
  (concat (map (fun s => [EvRunSource s; EvSleep]) init)
     ++ [EvRunSource l])%list.
Proof.
  induction init as [|s init IH]; intros Hl.
  - cbn [app map concat]. rewrite app_nil_r, List.filter_app, run_events_paced.
    unfold pacing. by rewrite bool_decide_eq_false_2 by (intros Hne; by apply Hne).
  - apply not_elem_of_cons in Hl as [Hne Hl].
    cbn [app map concat]. rewrite !List.filter_app, run_events_paced, (IH Hl).
    unfold pacing. by rewrite bool_decide_eq_true_2 by done.
Qed.

(** X7. When the name of the last source does not occur earlier in the list
    (in particular when the sources are pairwise distinct), the pause
    follows every run but the last: the runs and pauses alternate, starting
    and ending with a run. *)
Theorem pause_between_consecutive_runs
    (ticker company agent : string) (sources : option (list string))
    (theme directive : option string) (dry_run : bool) (w : W)
    (init : list string) (l : string) :
  resolve_sources agent sources = (init ++ [l])%list ->
  l ∉ init ->
  let r := gather E ticker company agent sources theme directive dry_run w in
  List.filter run_or_sleep (trace_of r) =
  (concat (map (fun s => [EvRunSource s; EvSleep]) init)
     ++ [EvRunSource l])%list.
Proof.
  intros Hres Hl. cbv zeta.
  assert (resolve_sources agent sources <> []) as Hne.
  { rewrite Hres. by destruct init. }
  rewrite (gather_phases E _ _ _ _ _ _ _ _ Hne), trace_of_run.
  rewrite Hres, last_last, !List.filter_app, gather_loop_trace.
  rewrite (gather_trace_paced _ _ Hl).
  rewrite (filter_none run_or_sleep (trace_of (store_loop _ _ _ _ _ _ _))).
  2:{ intros e He. by apply store_loop_trace_events in He
                      as (_ & gr & _ & _ & ->). }
  rewrite (filter_none run_or_sleep (trace_of (reindex_step _ _ _ _))).
  2:{ intros e He. by apply reindex_step_trace_events in He as (-> & _). }
  by rewrite !app_nil_r.
Qed.

Lemma store_loop_all_skipped ticker ts dry any grs w :
  (forall gr, gr ∈ grs -> storable gr = false) ->
  (result_of (store_loop E ticker ts dry any grs w)).1 =
  map skipped_result grs.
Proof.
  revert any w. induction grs as [|gr grs IH]; intros any w Hno; [done|].
  cbn [store_loop]. rewrite (Hno gr) by left.
  unfold bind, ret.
  assert (forall g, g ∈ grs -> storable g = false) as Hno'
    by (intros g Hg; apply Hno; by right).
  specialize (IH any w Hno').
  destruct (store_loop E ticker ts dry any grs w) as [[res t'] w2].
  unfold result_of in *. simpl in *. by rewrite IH.
Qed.

Lemma filter_all {A} (f : A -> bool) (l : list A) :
  (forall x, x ∈ l -> f x = true) -> List.filter f l = l.
Proof.
  induction l as [|x l IH]; intros Hall; [done|].
  cbn [List.filter]. rewrite (Hall x) by left.
  f_equal. apply IH. intros y Hy. apply Hall. by right.
Qed.

(** X8. When no source succeeded, the report says so: the success flag is
    false, the digest is "$TICKER: no data gathered" followed by the
    clause naming every source, every store entry is the skipped record,
    nothing is uploaded and the reindex sink is not called. *)
Theorem nothing_gathered
    (ticker company agent : string) (sources : option (list string))
    (theme directive : option string) (dry_run : bool) (w : W) :
  let srcs := resolve_sources agent sources in
  let grs := result_of (gather_loop E (List.last srcs EmptyString) ticker
                          company theme directive srcs w) in
  let r := gather E ticker company agent sources theme directive dry_run w in
  srcs <> [] ->
  (forall gr, gr ∈ grs -> success gr = false) ->
  r_success (result_of r) = false /\
  r_summary (result_of r) =
    "$" ++ ticker ++ ": no data gathered"
    ++ " (failed: " ++ PyStr.join ", " srcs ++ ")" /\
  r_store_results (result_of r) = map skipped_entry srcs /\
  r_reindex (result_of r) =
    ReindexResult false "No data stored — skipping reindex" /\
  uploads (trace_of r) = [] /\
  (EvReindex ∉ trace_of r).
Proof.
  cbv zeta. intros Hne Hfail.
  rewrite (report_store_entries _ _ _ _ _ _ _ _ Hne).
  rewrite (gather_phases E _ _ _ _ _ _ _ _ Hne), result_of_run, trace_of_run.
  set (srcs := resolve_sources agent sources) in *.
  set (p1 := gather_loop E (List.last srcs EmptyString) ticker company theme
               directive srcs w) in *.
  set (p2 := store_loop E ticker (utc_now_isoformat E w) dry_run false
               (result_of p1) (world_of p1)).
  cbn [r_success r_summary r_reindex final_report].
  assert (map source (result_of p1) = srcs) as Hsrc
    by apply gather_loop_sources.
  assert (succeeded_of (result_of p1) = []) as Hsucc.
  { apply filter_none. exact Hfail. }
  assert (failed_of (result_of p1) = result_of p1) as Hfailed.
  { apply filter_all. intros gr Hgr. by rewrite (Hfail gr Hgr). }
  assert (forall gr, gr ∈ result_of p1 -> storable gr = false) as Hst.
  { intros gr Hgr. unfold storable. by rewrite (Hfail gr Hgr). }
  assert ((result_of p2).2 = false) as Hany.
  { unfold p2. rewrite store_loop_any.
    by rewrite store_loop_nothing_storable. }
  split; [|split; [|split; [|split; [|split]]]].
  - by rewrite Hsucc.
  - unfold build_summary, summary_head, failed_clause.
    rewrite Hsucc, Hfailed. cbn [map].
    destruct (result_of p1) as [|gr grs] eqn:Hp1.
    + simpl in Hsrc. congruence.
    + rewrite <- Hsrc. cbn [map]. by rewrite !append_assoc.
  - unfold p2. rewrite (store_loop_all_skipped _ _ _ _ _ _ Hst).
    rewrite zip_entries_map, <- Hsrc, map_map. done.
  - unfold p2 at 1. fold p2. rewrite reindex_step_result. by rewrite Hany.
  - rewrite !uploads_app. unfold p1. rewrite gather_loop_trace.
    rewrite gather_trace_uploads. fold p1.
    rewrite (proj2 (proj2 (reindex_trace_quiet _ _ _))).
    destruct (store_trace_uploads ticker (utc_now_isoformat E w) dry_run
                false (result_of p1) (world_of p1)) as (Hsub & _).
    rewrite (filter_none storable _ Hst) in Hsub.
    apply sublist_nil_r in Hsub. fold p2 in Hsub. by rewrite Hsub.
  - rewrite !elem_of_app. intros [Hin|[Hin|Hin]].
    + by apply gather_loop_trace_events in Hin as [(s & _ & [[=]|[=]])|[=]].
    + by apply store_loop_trace_events in Hin as (_ & gr & _ & _ & [=]).
    + apply reindex_step_trace_events in Hin as (_ & Hany' & _). congruence.
Qed.

(** *** Labels *)

Lemma registered_names s :
  is_Some (SOURCE_REGISTRY !! s) ->
  s = "web" \/ s = "fundamentals" \/ s = "social" \/ s = "technicals".
Proof.
  intros [x Hx]. unfold SOURCE_REGISTRY, list_to_map in Hx.
  cbn [foldr fst snd] in Hx.
  repeat (apply lookup_insert_Some in Hx as [ [ <- _ ] | [ _ Hx ] ]; [tauto|]).
  by rewrite lookup_empty in Hx.
Qed.

Lemma gather_loop_succeeded_registered last_source ticker company theme
    directive srcs w :
  Forall (fun gr => success gr = true -> is_Some (SOURCE_REGISTRY !! source gr))
    (result_of
       (gather_loop E last_source ticker company theme directive srcs w)).
Proof.
  revert w. induction srcs as [|s srcs IH]; intros w; [constructor|].
  cbn [gather_loop]. unfold bind at 1.
  pose proof (run_source_source E s ticker company theme directive w) as Hsrc.
  pose proof (run_source_success E s ticker company theme directive w) as Hok.
  destruct (run_source E s ticker company theme directive w) as [[r t] w1].
  unfold result_of in Hsrc, Hok. simpl in Hsrc, Hok.
  unfold bind at 1.
  destruct (bool_decide (s ≠ last_source)); unfold call_sleep, ret, bind.
  - specialize (IH (sleep E w1)).
    destruct (gather_loop E last_source ticker company theme directive srcs
                (sleep E w1)) as [[rs t'] w2].
    unfold result_of in *. simpl in *.
    constructor; [by rewrite Hsrc|done].
  - specialize (IH w1).
    destruct (gather_loop E last_source ticker company theme directive srcs
                w1) as [[rs t'] w2].
    unfold result_of in *. simpl in *.
    constructor; [by rewrite Hsrc|done].
Qed.

(** X9. The labels of a digest are the four fixed ones: a source that
    succeeded is a registered source, so its label is its count followed
    by the wording of its kind, and the fallback wording for other names
    never appears. *)
Theorem digest_labels_are_fixed
    (ticker company agent : string) (sources : option (list string))
    (theme directive : option string) (w : W) :
  let srcs := resolve_sources agent sources in
  let grs := result_of (gather_loop E (List.last srcs EmptyString) ticker
                          company theme directive srcs w) in
  forall gr, gr ∈ grs -> success gr = true ->
    exists suffix,
      suffix ∈ label_suffixes /\
      _source_label (source gr) (metric_count gr) =
        pretty (metric_count gr) ++ suffix.
Proof.
  cbv zeta. intros gr Hgr Hok.
  pose proof (gather_loop_succeeded_registered
                (List.last (resolve_sources agent sources) EmptyString)
                ticker company theme directive
                (resolve_sources agent sources) w) as Hall.
  rewrite Forall_forall in Hall.
  destruct (registered_names _ (Hall gr Hgr Hok)) as [ -> | [ -> | [ -> | -> ] ] ];
    unfold label_suffixes.
  - exists " articles/filings". split; [by left|done].
  - exists " financial metrics". split; [right; by left|done].
  - exists " social posts". split; [right; right; by left|done].
  - exists " technical signals". split; [right; right; right; by left|done].
Qed.

(** *** The command line *)

Lemma invalid_sources_nil l :
  invalid_sources l = [] -> List.filter registered l = l.
Proof.
  unfold invalid_sources. induction l as [|s l IH]; [done|].
  cbn [List.filter]. destruct (registered s); [|done].
  cbn [negb]. intros Hl. by rewrite IH.
Qed.

Lemma agent_defaults_registered agent :
  List.filter registered (default [] (AGENT_SOURCES !! agent)) =
  default [] (AGENT_SOURCES !! agent).
Proof.
  destruct (AGENT_SOURCES !! agent) as [l|] eqn:Hl; [|done].
  unfold AGENT_SOURCES, list_to_map in Hl. cbn [foldr fst snd] in Hl.
  repeat (apply lookup_insert_Some in Hl as [ [ _ <- ] | [ _ Hl ] ]; [done|]).
  by rewrite lookup_empty in Hl.
Qed.

(** X11. The exit status of [main] is 2 exactly when the agent is not one
    of [VALID_AGENTS]. For such an agent, and for a source of [--sources]
    that is not registered, [main] ends before anything is run: no source
    is entered, no sink is called, the world is unchanged and the status
    is not 0. Otherwise [main] behaves as [gather] on the normalised
    ticker; every source it runs is a registered one, so every run
    attempts the import and the call of its gather function, and the
    exit status is 0 when some source succeeded and 1 when none did. *)
Theorem main_exit_status (args : cli_args) (w : W) :
  let sources := parse_sources (a_sources args) in
  let invalid := invalid_sources (default [] sources) in
  let g := gather E (cli_ticker args) (a_name args) (a_agent args)
             sources (a_theme args) (a_directive args) (a_dry_run args) w in
  let r := main E args w in
  (result_of r = 2 <-> a_agent args ∉ VALID_AGENTS) /\
  ((a_agent args ∉ VALID_AGENTS) \/ invalid <> [] ->
     trace_of r = [] /\ world_of r = w /\ result_of r <> 0) /\
  (a_agent args ∈ VALID_AGENTS -> invalid = [] ->
     trace_of r = trace_of g /\ world_of r = world_of g /\
     fetches (trace_of r) = runs (trace_of r) /\
     (result_of r = 0 <->
        exists ge, ge ∈ r_gather_results (result_of g) /\
                   ge_success ge = true) /\
     (result_of r <> 0 -> result_of r = 1)).
Proof.
  cbv zeta. unfold main.
  pose proof (gather_runs_fetches (cli_ticker args) (a_name args)
                (a_agent args) (parse_sources (a_sources args)) (a_theme args)
                (a_directive args) (a_dry_run args) w) as [Hruns Hfetch].
  pose proof (report_success_entries (cli_ticker args) (a_name args)
                (a_agent args) (parse_sources (a_sources args)) (a_theme args)
                (a_directive args) (a_dry_run args) w) as Hsucc.
  case_bool_decide as Hagent.
  2:{ unfold ret. rewrite result_of_run, trace_of_run, world_of_run.
      split; [done|]. split; [done|]. by intros ?. }
  destruct (invalid_sources _) as [|s l] eqn:Hinv.
  - unfold bind, ret.
    destruct (gather E (cli_ticker args) (a_name args) (a_agent args)
                (parse_sources (a_sources args)) (a_theme args)
                (a_directive args) (a_dry_run args) w) as [[rep t] w'].
    rewrite !result_of_run, !trace_of_run, !world_of_run in *.
    split; [|split].
    + split; [by destruct (r_success rep)|done].
    + by intros [?|?].
    + intros _ _. split; [by rewrite app_nil_r|]. split; [done|].
      split; [|split].
      * rewrite app_nil_r, Hruns, Hfetch.
        destruct (parse_sources (a_sources args)) as [l|];
          cbn [resolve_sources].
        -- by apply invalid_sources_nil.
        -- apply agent_defaults_registered.
      * rewrite <- Hsucc. by destruct (r_success rep).
      * by destruct (r_success rep).
  - unfold ret. rewrite result_of_run, trace_of_run, world_of_run.
    split; [done|]. split; [done|]. by intros _ ?.
Qed.

End Extras.

(** Witnesses. *)

Lemma stored_only_after_gathered_witness :
  exists gr,
    result_of (gather_loop Worlds.all_up "fundamentals" "CAKE"
                 "The Cheesecake Factory" None None ["web"; "fundamentals"] tt)
      !! 0%nat = Some gr /\
    source gr = "web" /\ success gr = true /\ markdown gr <> EmptyString.
Proof.
  apply (stored_only_after_gathered Worlds.all_up "CAKE"
           "The Cheesecake Factory" "nova" None None None false tt 0
           (StoreEntry "web" true "research/2026-11-03/CAKE_web.md" "Uploaded")).
  - vm_compute. reflexivity.
  - reflexivity.
Defined.

Lemma pause_between_consecutive_runs_witness :
  List.filter run_or_sleep
    (trace_of (gather Worlds.web_down "CAKE" "The Cheesecake Factory" "nova"
                 None None None false tt))
  = [EvRunSource "web"; EvSleep; EvRunSource "fundamentals"].
Proof.
  apply (pause_between_consecutive_runs Worlds.web_down "CAKE"
           "The Cheesecake Factory" "nova" None None None false tt
           ["web"] "fundamentals").
  - vm_compute. reflexivity.
  - intros Hin. apply list_elem_of_singleton in Hin. discriminate.
Defined.

Lemma nothing_gathered_witness :
  r_success
    (result_of (gather MoreWorlds.all_down "CAKE" "The Cheesecake Factory"
                  "nova" None None None false tt)) = false /\
  r_summary
    (result_of (gather MoreWorlds.all_down "CAKE" "The Cheesecake Factory"
                  "nova" None None None false tt))
  = "$CAKE: no data gathered (failed: web, fundamentals)".
Proof.
  assert (resolve_sources "nova" None <> []) as Hne by (vm_compute; discriminate).
  destruct (nothing_gathered MoreWorlds.all_down "CAKE"
              "The Cheesecake Factory" "nova" None None None false tt Hne)
    as (Hs & Hsum & _).
  - intros gr Hgr. vm_compute in Hgr.
    repeat (apply elem_of_cons in Hgr as [->|Hgr]; [reflexivity|]).
    by apply elem_of_nil in Hgr.
  - split; [exact Hs|]. rewrite Hsum. vm_compute. reflexivity.
Defined.

Lemma digest_labels_are_fixed_witness :
  exists suffix,
    suffix ∈ label_suffixes /\
    _source_label "fundamentals" 16 = pretty (16 : Z) ++ suffix.
Proof.
  apply (digest_labels_are_fixed Worlds.all_up "CAKE" "The Cheesecake Factory"
           "nova" None None None tt
           (GatherResult "fundamentals" true "# Report" 16 None)).
  - vm_compute. right. left.
  - reflexivity.
Defined.

(** Without a store module no sink is reached; the report says why
    nothing was stored. *)
Example store_missing_run :
  let r := gather MoreWorlds.store_missing "CAKE" "The Cheesecake Factory"
             "nova" None None None false tt in
  trace_of r =
    [EvRunSource "web"; EvFetch "web"; EvSleep;
     EvRunSource "fundamentals"; EvFetch "fundamentals"] /\
  map se_message (r_store_results (result_of r)) =
    ["store.py not available — cannot upload to Spaces";
     "store.py not available — cannot upload to Spaces"] /\
  r_reindex (result_of r) =
    ReindexResult false "No data stored — skipping reindex".
Proof. vm_compute. by repeat split. Qed.

(** When the reindex sink cannot be imported after a successful upload,
    it is not called and the report says so. *)
Example reindex_missing_run :
  let r := gather MoreWorlds.reindex_missing "CAKE" "The Cheesecake Factory"
             "nova" None None None false tt in
  uploads (trace_of r) = ["web"; "fundamentals"] /\
  count_occ event_eq_dec (trace_of r) EvReindex = 0%nat /\
  r_reindex (result_of r) =
    ReindexResult false "store.py not available — cannot trigger reindex".
Proof. vm_compute. by repeat split. Qed.

(** An agent that [--agent] does not accept: status 2, nothing run. *)
Example main_unknown_agent :
  main Worlds.all_up
    (CliArgs "CAKE" "The Cheesecake Factory" "bob" (Some "newsletter") None
       None false) tt
  = (2, [], tt).
Proof. vm_compute. reflexivity. Qed.

Lemma main_exit_status_witness :
  result_of (main Worlds.web_down
               (CliArgs "$cake" "The Cheesecake Factory" "nova"
                  (Some "web, fundamentals") None None true) tt) = 0.
Proof.
  destruct (proj2 (proj2
              (main_exit_status Worlds.web_down
                 (CliArgs "$cake" "The Cheesecake Factory" "nova"
                    (Some "web, fundamentals") None None true) tt)))
    as (_ & _ & _ & Hok & _).
  - unfold VALID_AGENTS. cbn [a_agent]. left.
  - vm_compute. reflexivity.
  - apply Hok. exists (GatherEntry "fundamentals" true 16 None).
    split; [|reflexivity]. vm_compute. right. left.
Defined.

End OrchestratorExtras.

Module FundamentalsExtras.
Import Fundamentals FundamentalsProofs FundamentalsMore.

(** *** The extractor *)

Lemma find_filter_end k (l : list observation) :
  find (has_key k) l =
  find (has_key k) (List.filter (fun x => String.eqb (end_date x) k.1) l).
Proof.
  induction l as [|r l IH]; [done|].
  cbn [find List.filter]. unfold has_key at 1.
  destruct (String.eqb_spec (end_date r) k.1) as [He|He].
  - cbn [find]. unfold has_key at 2. by rewrite IH.
  - rewrite bool_decide_eq_false_2; [done|].
    intros <-. by apply He.
Qed.

(** X12. For every key, sorting and deduplicating keeps the observation that
    comes first in the list handed in: the first reported entry of a
    period and form wins, and no key is lost. *)
Theorem first_reported_entry_is_kept
    (results : list observation) (k : string * string) :
  find (has_key k) (sort_dedup results) = find (has_key k) results.
Proof.
  unfold sort_dedup, has_key. rewrite dedup_first_wins.
  fold (has_key k).
  rewrite find_filter_end, (find_filter_end k results).
  by rewrite sort_by_end_date_stable.
Qed.

Lemma extract_entry_Some cutoff e o :
  extract_entry cutoff e = Some o ->
  form o ∈ accepted_forms /\ end_date o <> EmptyString /\
  (exists y, PyStr.int (PyStr.take 4 (end_date o)) = Some y /\ cutoff <= y) /\
  value o = e_val e /\ e_end e = Some (end_date o) /\ e_form e = Some (form o).
Proof.
  unfold extract_entry.
  case_bool_decide as Hform; [|done].
  case_bool_decide as Hend; [done|].
  destruct (PyStr.int _) as [y|] eqn:Hy; [|done].
  destruct (y <? cutoff) eqn:Hlt; [done|].
  intros [= <-]. cbn [form end_date value].
  apply Z.ltb_ge in Hlt.
  split; [done|]. split; [done|]. split; [by exists y|]. split; [done|].
  split.
  - destruct (e_end e); [done|]. by destruct Hend.
  - destruct (e_form e) as [f|]; [done|].
    exfalso. unfold accepted_forms in Hform. simpl in Hform.
    repeat (apply elem_of_cons in Hform as [Hform|Hform]; [done|]).
    by apply elem_of_nil in Hform.
Qed.

Lemma sort_dedup_subset results o : o ∈ sort_dedup results -> o ∈ results.
Proof.
  intros Hin. unfold sort_dedup, dedup in Hin.
  apply (sublist_subseteq _ _ (dedup_loop_sublist _ _)) in Hin.
  by rewrite sort_by_end_date_Permutation in Hin.
Qed.

Lemma try_units_source cutoff us kinds d :
  try_units cutoff us kinds = Some d ->
  exists u, u ∈ kinds /\
            filter_entries cutoff (default [] (us !! u)) <> [] /\
            d = sort_dedup (filter_entries cutoff (default [] (us !! u))).
Proof.
  induction kinds as [|u kinds IH]; cbn [try_units]; [done|].
  destruct (default [] (us !! u)) as [|e es] eqn:Hu.
  { intros Hd. destruct (IH Hd) as (u' & ? & ?). exists u'. split; [by right|done]. }
  destruct (filter_entries cutoff (e :: es)) as [|r rs] eqn:Hf.
  { intros Hd. destruct (IH Hd) as (u' & ? & ?). exists u'. split; [by right|done]. }
  intros [= <-]. exists u. rewrite Hu, Hf. split; [by left|done].
Qed.

Lemma try_concepts_source cutoff us_gaap names :
  try_concepts cutoff us_gaap names = [] \/
  exists a u, a ∈ names /\ u ∈ unit_types /\
    filter_entries cutoff (default [] (units_of us_gaap a !! u)) <> [] /\
    try_concepts cutoff us_gaap names =
      sort_dedup (filter_entries cutoff (default [] (units_of us_gaap a !! u))).
Proof.
  induction names as [|n names IH]; cbn [try_concepts]; [by left|].
  destruct (try_units _ _ _) as [d|] eqn:Hu.
  - right. apply try_units_source in Hu as (u & Hin & Hne & ->).
    exists n, u. split; [by left|done].
  - destruct IH as [IH|(a & u & Ha & ?)]; [by left|].
    right. exists a, u. split; [by right|done].
Qed.

(** X13. The series returned for a metric is drawn from one alias and one
    unit kind: it is never a blend of several aliases or units. Either it
    is empty, or it is the sorted, deduplicated list of the surviving
    observations of a single alias of the list under a single unit kind,
    and every observation of it is one of these. *)
Theorem series_from_one_alias_and_unit
    (now_year : Z) (facts : company_facts) (concept_names : list string)
    (years : Z) :
  let out := _extract_concept_data now_year facts concept_names years in
  out = [] \/
  exists a u,
    a ∈ concept_names /\ u ∈ unit_types /\
    out = sort_dedup (surviving now_year facts years a u) /\
    forall o, o ∈ out -> o ∈ surviving now_year facts years a u.
Proof.
  cbv zeta. unfold _extract_concept_data, surviving.
  destruct (try_concepts_source (now_year - years) (us_gaap_of facts)
              concept_names) as [->|(a & u & Ha & Hu & _ & Heq)]; [by left|].
  right. exists a, u. split; [done|]. split; [done|]. split; [done|].
  intros o Ho. rewrite Heq in Ho. by apply sort_dedup_subset in Ho.
Qed.

(** X14. Every observation returned comes from a 10-K, 10-Q, 10-K/A or 10-Q/A
    record with a non-empty period end whose first four characters read
    as a year not before the current year minus the window. *)
Theorem extracted_observations_pass_filters
    (now_year : Z) (facts : company_facts) (concept_names : list string)
    (years : Z) (o : observation) :
  o ∈ _extract_concept_data now_year facts concept_names years ->
  form o ∈ accepted_forms /\ end_date o <> EmptyString /\
  exists y, PyStr.int (PyStr.take 4 (end_date o)) = Some y /\
            now_year - years <= y.
Proof.
  intros Ho. unfold _extract_concept_data in Ho.
  destruct (try_concepts_source (now_year - years) (us_gaap_of facts)
              concept_names) as [Hnil|(a & u & _ & _ & _ & Heq)].
  { rewrite Hnil in Ho. by apply elem_of_nil in Ho. }
  rewrite Heq in Ho. apply sort_dedup_subset in Ho.
  unfold filter_entries in Ho.
  apply list_elem_of_omap in Ho as (e & _ & He).
  apply extract_entry_Some in He as (? & ? & ? & _). done.
Qed.

Lemma extracted_observations_pass_filters_witness :
  form (Inputs.obs (PInt 100) "2024-12-31" "10-K") ∈ accepted_forms /\
  end_date (Inputs.obs (PInt 100) "2024-12-31" "10-K") <> EmptyString /\
  exists y,
    PyStr.int
      (PyStr.take 4 (end_date (Inputs.obs (PInt 100) "2024-12-31" "10-K")))
    = Some y /\ 2026 - 5 <= y.
Proof.
  apply (extracted_observations_pass_filters 2026 Inputs.amended_facts
           ["Revenues"] 5).
  assert (_extract_concept_data 2026 Inputs.amended_facts ["Revenues"] 5 =
          [Inputs.obs (PInt 100) "2024-12-31" "10-K"]) as ->
    by (by vm_compute).
  by left.
Defined.

(** *** [_get_latest_value] *)

Lemma last_filter_split {A} (f : A -> bool) (l : list A) (x : A) :
  last (List.filter f l) = Some x ->
  exists pre post, l = (pre ++ x :: post)%list /\ f x = true /\
                   forall y, y ∈ post -> f y = false.
Proof.
  induction l as [|a l IH]; [done|].
  cbn [List.filter]. destruct (f a) eqn:Hfa.
  - destruct (List.filter f l) as [|b k] eqn:Hfl.
    + intros [= <-]. exists [], l. split; [done|]. split; [done|].
      intros y Hy. destruct (f y) eqn:Hfy; [|done].
      assert (In y (List.filter f l)) as Hin.
      { apply filter_In. by rewrite <- list_elem_of_In. }
      by rewrite Hfl in Hin.
    + rewrite last_cons_cons. intros Hlast.
      destruct (IH Hlast) as (pre & post & -> & Hx & Hpost).
      by exists (a :: pre), post.
  - intros Hlast. destruct (IH Hlast) as (pre & post & -> & Hx & Hpost).
    by exists (a :: pre), post.
Qed.

(** X15. [_get_latest_value] returns nothing only for an empty series, and
    otherwise an observation of the series: the last one whose form,
    amendment suffix removed, is the preferred form when there is one,
    and the last observation of any form when there is none. *)
Theorem latest_value_prefers_form
    (data_points : list observation) (form_filter : string) :
  (_get_latest_value data_points form_filter = None <-> data_points = []) /\
  (forall o, _get_latest_value data_points form_filter = Some o ->
     o ∈ data_points) /\
  ((exists d, d ∈ data_points /\ PyStr.replace_amend (form d) = form_filter) ->
     exists o pre post,
       _get_latest_value data_points form_filter = Some o /\
       data_points = (pre ++ o :: post)%list /\
       PyStr.replace_amend (form o) = form_filter /\
       forall d, d ∈ post -> PyStr.replace_amend (form d) <> form_filter) /\
  ((forall d, d ∈ data_points ->
      PyStr.replace_amend (form d) <> form_filter) ->
     _get_latest_value data_points form_filter = last data_points).
Proof.
  set (f := fun d => String.eqb (PyStr.replace_amend (form d)) form_filter).
  assert (forall o, last (List.filter f data_points) = Some o ->
            o ∈ data_points) as Hfilter_in.
  { intros o Ho. apply last_Some_elem_of in Ho.
    apply list_elem_of_In, filter_In in Ho as [Ho _].
    by apply list_elem_of_In. }
  unfold _get_latest_value. fold f.
  destruct data_points as [|x l] eqn:Hdata.
  { split; [done|]. split; [done|]. split.
    - intros (d & Hd & _). by apply elem_of_nil in Hd.
    - done. }
  rewrite <- Hdata in *.
  assert (data_points <> []) as Hne by (by rewrite Hdata).
  destruct (List.filter f data_points) as [|y k] eqn:Hf.
  - split; [|split; [|split]].
    + rewrite last_None. done.
    + intros o Ho. by apply last_Some_elem_of.
    + intros (d & Hd & Hform). exfalso.
      assert (In d (List.filter f data_points)) as Hin.
      { apply filter_In. rewrite <- list_elem_of_In. split; [done|].
        unfold f. by apply String.eqb_eq. }
      by rewrite Hf in Hin.
    + done.
  - rewrite <- Hf in *.
    assert (is_Some (last (List.filter f data_points))) as [o Ho].
    { apply last_is_Some. by rewrite Hf. }
    rewrite Ho. split; [|split; [|split]].
    + split; [done|]. intros ->. done.
    + intros o' [= <-]. by apply Hfilter_in.
    + intros _. destruct (last_filter_split f _ _ Ho)
        as (pre & post & Hsplit & Ho_f & Hpost).
      exists o, pre, post. split; [done|]. split; [done|].
      split; [by apply String.eqb_eq|].
      intros d Hd Hform. apply Hpost in Hd. unfold f in Hd.
      apply String.eqb_neq in Hd. done.
    + intros Hnone. exfalso.
      apply last_Some_elem_of in Ho.
      apply list_elem_of_In, filter_In in Ho as [Hin Ho_f].
      apply (Hnone o); [by apply list_elem_of_In|].
      by apply String.eqb_eq.
Qed.

(** *** The metric aggregator *)

Lemma aliases_of_None table metric :
  metric ∉ map fst table -> aliases_of table metric = None.
Proof.
  induction table as [|[m names] table IH]; [done|].
  cbn [map fst aliases_of]. intros Hnot.
  apply not_elem_of_cons in Hnot as [Hne Hnot].
  rewrite bool_decide_eq_false_2 by done. by apply IH.
Qed.

Lemma extract_category_lookup now_year facts years table metric :
  NoDup (map fst table) ->
  extract_category now_year facts years table !! metric =
  expected_series now_year facts years table metric.
Proof.
  unfold extract_category, expected_series.
  assert (forall acc : gmap string (list observation),
            NoDup (map fst table) ->
            foldl (fun acc entry =>
                     match _extract_concept_data now_year facts entry.2 years with
                     | [] => acc
                     | data => <[entry.1 := data]> acc
                     end) acc table !! metric =
            match aliases_of table metric with
            | Some names =>
                match _extract_concept_data now_year facts names years with
                | [] => acc !! metric
                | data => Some data
                end
            | None => acc !! metric
            end) as Hgen.
  { induction table as [|[m names] table IH]; intros acc Hnd; [done|].
    cbn [foldl aliases_of fst snd map] in *.
    apply NoDup_cons in Hnd as [Hm Hnd].
    rewrite (IH _ Hnd). case_bool_decide as Hmm.
    - subst m. rewrite (aliases_of_None _ _ Hm).
      destruct (_extract_concept_data now_year facts names years); [done|].
      apply lookup_insert_eq.
    - assert ((match _extract_concept_data now_year facts names years with
               | [] => acc
               | data => <[m := data]> acc
               end) !! metric = acc !! metric) as ->; [|done].
      destruct (_extract_concept_data now_year facts names years); [done|].
      by apply lookup_insert_ne. }
  intros Hnd. rewrite (Hgen ∅ Hnd), lookup_empty.
  destruct (aliases_of table metric) as [names|]; [|done].
  by destruct (_extract_concept_data now_year facts names years).
Qed.

Lemma extract_category_size now_year facts years table :
  (size (extract_category now_year facts years table) <= length table)%nat.
Proof.
  unfold extract_category.
  assert (forall acc : gmap string (list observation),
            (size (foldl (fun acc entry =>
                     match _extract_concept_data now_year facts entry.2 years with
                     | [] => acc
                     | data => <[entry.1 := data]> acc
                     end) acc table) <= size acc + length table)%nat) as Hgen.
  { induction table as [|[m names] table IH]; intros acc; cbn [foldl length].
    - lia.
    - etrans; [apply IH|]. cbn [fst snd].
      destruct (_extract_concept_data now_year facts names years)
        as [|o os]; [lia|].
      pose proof (map_size_insert m (o :: os) acc) as Hs.
      destruct (acc !! m); cbn [id] in Hs; lia. }
  specialize (Hgen ∅). by rewrite map_size_empty in Hgen.
Qed.

(** X16. A category of the metrics document holds a metric exactly when the
    aliases of the metric yield data, and then it holds that data; a
    metric outside the table of the category, or one without data, has no
    entry, and no entry is an empty series. A missing payload gives three
    empty categories. *)
Theorem metric_present_iff_data
    (now_year : Z) (facts : company_facts) (years : Z) (metric : string) :
  let fin := extract_financials now_year (Some facts) years in
  income fin !! metric =
    expected_series now_year facts years INCOME_CONCEPTS metric /\
  balance_sheet fin !! metric =
    expected_series now_year facts years BALANCE_SHEET_CONCEPTS metric /\
  cash_flow fin !! metric =
    expected_series now_year facts years CASH_FLOW_CONCEPTS metric /\
  income fin !! metric <> Some [] /\
  balance_sheet fin !! metric <> Some [] /\
  cash_flow fin !! metric <> Some [] /\
  extract_financials now_year None years = Financials ∅ ∅ ∅.
Proof.
  cbv zeta. cbn [extract_financials income balance_sheet cash_flow].
  assert (forall table, expected_series now_year facts years table metric
                        <> Some []) as Hne.
  { intros table. unfold expected_series.
    destruct (aliases_of table metric) as [names|]; [|done].
    by destruct (_extract_concept_data now_year facts names years). }
  rewrite !extract_category_lookup;
    [|by apply (bool_decide_unpack _)..].
  repeat split; apply Hne.
Qed.

(** X17. The metric count reported by [gather_fundamentals] is the number of
    metrics with data; it never exceeds nineteen, the number of metrics
    of the three tables, and it is zero for a missing payload. *)
Theorem metric_count_bound
    (now_year : Z) (facts : option company_facts) (years : Z) :
  (metric_count_of (extract_financials now_year facts years) <= 19)%nat /\
  metric_count_of (extract_financials now_year None years) = 0%nat.
Proof.
  split; [|done]. unfold metric_count_of.
  destruct facts as [facts|]; [|cbn; rewrite !map_size_empty; lia].
  cbn [extract_financials income balance_sheet cash_flow].
  pose proof (extract_category_size now_year facts years INCOME_CONCEPTS).
  pose proof (extract_category_size now_year facts years BALANCE_SHEET_CONCEPTS).
  pose proof (extract_category_size now_year facts years CASH_FLOW_CONCEPTS).
  cbn [length INCOME_CONCEPTS BALANCE_SHEET_CONCEPTS CASH_FLOW_CONCEPTS] in *.
  lia.
Qed.

(** *** What the rendering calls raise *)

Lemma is_not_none_true v : is_not_none v = true <-> v <> PNone.
Proof. by destruct v. Qed.

(** [_format_number] lets one exception through: the [OverflowError] of
    an integer beyond the doubles. *)
Lemma format_number_cases v :
  match _format_number v with
  | Ok _ => overflows v = false
  | Raise e => e = OverflowError /\ overflows v = true
  end.
Proof.
  destruct v as [|z|x]; [done| |done].
  unfold _format_number, float, overflows.
  by destruct (f64_of_Z z).
Qed.

Lemma format_number_Raise v e :
  _format_number v = Raise e -> e = OverflowError /\ overflows v = true.
Proof.
  intros Hf. pose proof (format_number_cases v) as Hc. by rewrite Hf in Hc.
Qed.

Lemma format_number_float x : _format_number (PFloat x) = Ok tt.
Proof. done. Qed.

(** *** The trend *)

Lemma format_trend_spec
    (data_points : list observation) (form_filter : string) :
  let filtered :=
    List.filter
      (fun d => String.eqb (PyStr.replace_amend (form d)) form_filter)
      data_points in
  match _format_trend data_points form_filter with
  | Ok (Some (arrow, pct)) =>
      exists pre prev curr p c,
        filtered = (pre ++ [prev; curr])%list /\
        float (value prev) = Ok p /\ float (value curr) = Ok c /\
        f64_eqb p f64_zero = false /\
        pct = f64_mul (SFdiv 53 1024 (f64_sub c p) (f64_abs p)) f64_hundred /\
        arrow = (if f64_ltb f64_zero pct then Up
                 else if f64_ltb pct f64_zero then Down else Flat)
  | Ok None =>
      (length filtered < 2)%nat \/
      exists pre prev curr,
        filtered = (pre ++ [prev; curr])%list /\
        (value prev = PNone \/ value curr = PNone \/
         exists p, float (value prev) = Ok p /\ f64_eqb p f64_zero = true /\
                   overflows (value curr) = false)
  | Raise e =>
      e = OverflowError /\
      exists pre prev curr,
        filtered = (pre ++ [prev; curr])%list /\
        value prev <> PNone /\ value curr <> PNone /\
        (overflows (value prev) = true \/ overflows (value curr) = true)
  end.
Proof.
  cbv zeta. unfold _format_trend.
  set (filtered := List.filter _ data_points).
  pose proof (reverse_involutive filtered) as Hf.
  destruct (reverse filtered) as [|curr [|prev rest]].
  - left. rewrite <- Hf. simpl. lia.
  - left. rewrite <- Hf. simpl. lia.
  - rewrite !reverse_cons, <- !app_assoc in Hf. cbn [app] in Hf.
    symmetry in Hf.
    destruct (is_not_none (value prev) && is_not_none (value curr)) eqn:Hnn.
    2:{ right. exists (reverse rest), prev, curr. split; [done|].
        apply andb_false_iff in Hnn as [Hn|Hn].
        - left. by destruct (value prev).
        - right. left. by destruct (value curr). }
    apply andb_true_iff in Hnn as [Hp Hc].
    apply is_not_none_true in Hp, Hc.
    pose proof (float_cases (value prev)) as Hcp.
    pose proof (float_cases (value curr)) as Hcc.
    destruct (float (value prev)) as [p|ep] eqn:Hfp; cbn [mbind exc_bind].
    2:{ destruct Hcp as [[Hv _]|[Hov ->]]; [done|].
        split; [done|]. exists (reverse rest), prev, curr.
        split; [done|]. split; [done|]. split; [done|]. by left. }
    destruct (float (value curr)) as [c|ec] eqn:Hfc;
      cbn [mbind exc_bind mret exc_ret].
    2:{ destruct Hcc as [[Hv _]|[Hov ->]]; [done|].
        split; [done|]. exists (reverse rest), prev, curr.
        split; [done|]. split; [done|]. split; [done|]. by right. }
    destruct (f64_eqb p f64_zero) eqn:Hz.
    + right. exists (reverse rest), prev, curr. split; [done|].
      right. right. exists p. split; [done|]. split; [done|]. apply Hcc.
    + rewrite f64_div_Ok by (by rewrite f64_abs_zero).
      cbn [mbind exc_bind mret exc_ret].
      by exists (reverse rest), prev, curr, p, c.
Qed.

(** Two revenues that differ by one above the 53 bits of the mantissa
    are the same double: the trend is flat. *)
Example trend_rounds_to_flat :
  _format_trend
    [Inputs.obs (PInt (2 ^ 53)) "2023-12-31" "10-K";
     Inputs.obs (PInt (2 ^ 53 + 1)) "2024-12-31" "10-K"] "10-K"
  = Ok (Some (Flat, S754_zero false)).
Proof. vm_compute. reflexivity. Qed.

(** X19. [_format_trend] reads the last two observations of the filtered
    form. It renders a trend exactly when both carry a value, both
    convert to a double and the earlier one is not zero: the percentage
    is the double [(curr - prev) / abs(prev) * 100] and the arrow is
    its sign, flat when it is neither above nor below zero. It renders
    nothing when there are fewer than two such observations, when one of
    the two values is null, or when the earlier value is zero. Its
    [except] clause does not catch [OverflowError]: the call raises it
    when both values are there and one is an integer beyond the doubles,
    and it raises nothing else. *)
Theorem trend_follows_last_two
    (data_points : list observation) (form_filter : string) :
  let filtered :=
    List.filter
      (fun d => String.eqb (PyStr.replace_amend (form d)) form_filter)
      data_points in
  match _format_trend data_points form_filter with
  | Ok (Some (arrow, pct)) =>
      exists pre prev curr p c,
        filtered = (pre ++ [prev; curr])%list /\
        float (value prev) = Ok p /\ float (value curr) = Ok c /\
        f64_eqb p f64_zero = false /\
        pct = f64_mul (SFdiv 53 1024 (f64_sub c p) (f64_abs p)) f64_hundred /\
        arrow = (if f64_ltb f64_zero pct then Up
                 else if f64_ltb pct f64_zero then Down else Flat)
  | Ok None =>
      (length filtered < 2)%nat \/
      exists pre prev curr,
        filtered = (pre ++ [prev; curr])%list /\
        (value prev = PNone \/ value curr = PNone \/
         exists p, float (value prev) = Ok p /\ f64_eqb p f64_zero = true /\
                   overflows (value curr) = false)
  | Raise e =>
      e = OverflowError /\
      exists pre prev curr,
        filtered = (pre ++ [prev; curr])%list /\
        value prev <> PNone /\ value curr <> PNone /\
        (overflows (value prev) = true \/ overflows (value curr) = true)
  end.
Proof. apply format_trend_spec. Qed.

Lemma format_trend_Raise data_points form_filter e :
  _format_trend data_points form_filter = Raise e ->
  e = OverflowError /\
  exists o, o ∈ data_points /\ overflows (value o) = true.
Proof.
  intros Ht. pose proof (format_trend_spec data_points form_filter) as Hs.
  cbv zeta in Hs. rewrite Ht in Hs.
  destruct Hs as (-> & pre & prev & curr & Hf & _ & _ & Hov).
  split; [done|].
  assert (forall o, o ∈ [prev; curr] -> o ∈ data_points) as Hin.
  { intros o Ho.
    assert (o ∈ List.filter
                  (fun d => String.eqb (PyStr.replace_amend (form d))
                              form_filter) data_points) as Ho'.
    { rewrite Hf. apply elem_of_app. by right. }
    apply list_elem_of_In, filter_In in Ho' as [Ho' _].
    by apply list_elem_of_In. }
  destruct Hov as [Hov|Hov].
  - exists prev. split; [apply Hin; by left|done].
  - exists curr. split; [apply Hin; right; by left|done].
Qed.

(** *** The metric lines *)

Lemma latest_value_elem data_points form_filter o :
  _get_latest_value data_points form_filter = Some o -> o ∈ data_points.
Proof.
  unfold _get_latest_value. destruct data_points as [|d l]; [done|].
  set (dp := d :: l).
  destruct (List.filter _ dp) as [|f fs] eqn:Hf.
  - intros Hl. apply last_Some in Hl as [l' ->].
    apply elem_of_app. right. by left.
  - rewrite <- Hf. intros Hl. apply last_Some in Hl as [l' Hl].
    assert (In o (List.filter
                    (fun d0 => String.eqb (PyStr.replace_amend (form d0))
                                 form_filter) dp)) as Hin.
    { rewrite Hl. apply in_or_app. right. by left. }
    apply filter_In in Hin as [Hin _]. by apply list_elem_of_In.
Qed.

Lemma default_elem (section : gmap string (list observation)) metric o :
  o ∈ default [] (section !! metric) ->
  exists data, section !! metric = Some data /\ o ∈ data.
Proof.
  destruct (section !! metric) as [data|]; cbn [default from_option id].
  - intros Ho. by exists data.
  - intros Ho. by apply elem_of_nil in Ho.
Qed.

Lemma latest_of_elem (section : gmap string (list observation)) metric o :
  latest_of section metric = Some o ->
  exists data, section !! metric = Some data /\ o ∈ data.
Proof.
  unfold latest_of. intros Hl. apply latest_value_elem in Hl.
  by apply default_elem.
Qed.

Lemma for_each_Raise {A} (f : A -> exc unit) (l : list A) e :
  for_each f l = Raise e -> exists x, x ∈ l /\ f x = Raise e.
Proof.
  induction l as [|x l IH]; [done|]. cbn [for_each].
  destruct (f x) as [[]|e'] eqn:Hx; cbn [mbind exc_bind].
  - intros Hl. destruct (IH Hl) as (y & Hy & Hfy).
    exists y. split; [by right|done].
  - intros [= ->]. exists x. split; [by left|done].
Qed.

Lemma metric_line_Raise (section : gmap string (list observation)) metric e :
  metric_line section metric = Raise e ->
  e = OverflowError /\
  exists data o,
    section !! metric = Some data /\ o ∈ data /\ overflows (value o) = true.
Proof.
  unfold metric_line.
  destruct (section !! metric) as [data|] eqn:Hs;
    cbn [default from_option id]; [|done].
  destruct data as [|d l]; [done|]. set (data := d :: l) in *.
  destruct (_get_latest_value data "10-K") as [latest|] eqn:Hl; [|done].
  destruct (_format_trend data "10-K") as [t|e'] eqn:Ht;
    cbn [mbind exc_bind].
  - intros Hn. apply format_number_Raise in Hn as [-> Hov].
    split; [done|]. exists data, latest. split; [done|].
    split; [by apply latest_value_elem in Hl|done].
  - intros [= ->]. apply format_trend_Raise in Ht as (-> & o & Ho & Hov).
    split; [done|]. by exists data, o.
Qed.

Lemma metric_lines_Raise (section : gmap string (list observation))
    metrics e :
  for_each (metric_line section) metrics = Raise e ->
  e = OverflowError /\
  exists metric data o,
    section !! metric = Some data /\ o ∈ data /\ overflows (value o) = true.
Proof.
  intros Hf. apply for_each_Raise in Hf as (metric & _ & Hm).
  apply metric_line_Raise in Hm as (-> & data & o & Hd & Ho & Hov).
  split; [done|]. by exists metric, data, o.
Qed.

(** *** The key ratios *)

Lemma debt_to_equity_Raise li eq e :
  debt_to_equity li eq = Raise e ->
  (e = TypeError /\ exists o, li = Some o /\ value o = PNone) \/
  (e = OverflowError /\
   exists o, (li = Some o \/ eq = Some o) /\ overflows (value o) = true).
Proof.
  unfold debt_to_equity.
  destruct eq as [eq_o|], li as [li_o|]; try done.
  destruct (truthy (value eq_o)) eqn:Ht; [|done].
  pose proof (float_cases (value eq_o)) as Hce.
  destruct (float (value eq_o)) as [x|e1]; cbn [mbind exc_bind].
  2:{ intros [= ->]. destruct Hce as [[Hv _]|[Hov ->]].
      - by apply truthy_not_none in Ht.
      - right. split; [done|]. exists eq_o. split; [by right|done]. }
  destruct (f64_eqb x f64_zero) eqn:Hz; cbn [negb]; [done|].
  pose proof (float_cases (value li_o)) as Hcl.
  destruct (float (value li_o)) as [l|e2]; cbn [mbind exc_bind].
  - by rewrite (f64_div_Ok _ _ Hz).
  - intros [= ->]. destruct Hcl as [[Hv ->]|[Hov ->]].
    + left. split; [done|]. by exists li_o.
    + right. split; [done|]. exists li_o. split; [by left|done].
Qed.

Lemma current_ratio_Raise ca cl e :
  current_ratio ca cl = Raise e ->
  (e = TypeError /\ exists o, ca = Some o /\ value o = PNone) \/
  (e = OverflowError /\
   exists o, (ca = Some o \/ cl = Some o) /\ overflows (value o) = true).
Proof.
  unfold current_ratio.
  destruct ca as [ca_o|], cl as [cl_o|]; try done.
  destruct (truthy (value cl_o)) eqn:Ht; [|done].
  pose proof (float_cases (value cl_o)) as Hcd.
  destruct (float (value cl_o)) as [x|e1]; cbn [mbind exc_bind].
  2:{ intros [= ->]. destruct Hcd as [[Hv _]|[Hov ->]].
      - by apply truthy_not_none in Ht.
      - right. split; [done|]. exists cl_o. split; [by right|done]. }
  destruct (f64_eqb x f64_zero) eqn:Hz; cbn [negb]; [done|].
  pose proof (float_cases (value ca_o)) as Hca.
  destruct (float (value ca_o)) as [a|e2]; cbn [mbind exc_bind].
  - by rewrite (f64_div_Ok _ _ Hz).
  - intros [= ->]. destruct Hca as [[Hv ->]|[Hov ->]].
    + left. split; [done|]. by exists ca_o.
    + right. split; [done|]. exists ca_o. split; [by left|done].
Qed.

Lemma net_debt_Raise cash debt e :
  net_debt cash debt = Raise e ->
  (e = TypeError /\ exists o, cash = Some o /\ value o = PNone) \/
  (e = OverflowError /\
   exists o, (cash = Some o \/ debt = Some o) /\ overflows (value o) = true).
Proof.
  unfold net_debt.
  destruct cash as [cash_o|], debt as [debt_o|]; try done.
  destruct (truthy (value debt_o)) eqn:Ht; [|done].
  pose proof (float_cases (value debt_o)) as Hcd.
  destruct (float (value debt_o)) as [d|e1]; cbn [mbind exc_bind].
  2:{ intros [= ->]. destruct Hcd as [[Hv _]|[Hov ->]].
      - by apply truthy_not_none in Ht.
      - right. split; [done|]. exists debt_o. split; [by right|done]. }
  pose proof (float_cases (value cash_o)) as Hcc.
  destruct (float (value cash_o)) as [c|e2]; cbn [mbind exc_bind].
  - by rewrite format_number_float.
  - intros [= ->]. destruct Hcc as [[Hv ->]|[Hov ->]].
    + left. split; [done|]. by exists cash_o.
    + right. split; [done|]. exists cash_o. split; [by left|done].
Qed.

Lemma ratios_block_Raise balance e :
  ratios_block balance = Raise e ->
  (e = TypeError /\
   exists m o, m ∈ ratio_numerators /\ latest_of balance m = Some o /\
               value o = PNone) \/
  (e = OverflowError /\
   exists m o, latest_of balance m = Some o /\ overflows (value o) = true).
Proof.
  unfold ratios_block, ratio_numerators. cbv zeta.
  destruct (debt_to_equity _ _) as [de|e1] eqn:Hde; cbn [mbind exc_bind].
  2:{ intros [= ->].
      apply debt_to_equity_Raise in Hde
        as [(-> & o & Ho & Hv)|(-> & o & [Ho|Ho] & Hov)].
      - left. split; [done|]. exists "total_liabilities", o.
        split; [by left|done].
      - right. split; [done|]. by exists "total_liabilities", o.
      - right. split; [done|]. by exists "stockholders_equity", o. }
  destruct (current_ratio _ _) as [cr|e2] eqn:Hcr; cbn [mbind exc_bind].
  2:{ intros [= ->].
      apply current_ratio_Raise in Hcr
        as [(-> & o & Ho & Hv)|(-> & o & [Ho|Ho] & Hov)].
      - left. split; [done|]. exists "current_assets", o.
        split; [right; by left|done].
      - right. split; [done|]. by exists "current_assets", o.
      - right. split; [done|]. by exists "current_liabilities", o. }
  destruct (net_debt _ _) as [nd|e3] eqn:Hnd; cbn [mbind exc_bind]; [done|].
  intros [= ->].
  apply net_debt_Raise in Hnd
    as [(-> & o & Ho & Hv)|(-> & o & [Ho|Ho] & Hov)].
  - left. split; [done|]. exists "cash", o.
    split; [right; right; by left|done].
  - right. split; [done|]. by exists "cash", o.
  - right. split; [done|]. by exists "long_term_debt", o.
Qed.

End FundamentalsExtras.

Module HistoryProofs.
Import Fundamentals FundamentalsProofs FundamentalsMore.

(** What the loop over the annual observations keeps true of
    [seen_years], [processed] being the observations met so far. *)
Record seen_inv (seen : list (Z * observation)) (processed : list observation)
  : Prop := SeenInv {
  inv_nodup : NoDup (map fst seen);
  inv_from : forall k v, (k, v) ∈ seen ->
               v ∈ processed /\ fiscal_year v = Some k;
  inv_prefers_fy : forall k v, (k, v) ∈ seen -> fiscal_period v <> "FY" ->
               forall d, d ∈ processed -> fiscal_year d = Some k ->
                         fiscal_period d <> "FY";
  inv_covers : forall d k, d ∈ processed -> fiscal_year d = Some k ->
               k ∈ map fst seen
}.

Lemma dict_set_fresh fy d seen :
  fy ∉ map fst seen -> dict_set fy d seen = (seen ++ [(fy, d)])%list.
Proof.
  induction seen as [|[k v] seen IH]; [done|].
  cbn [map fst dict_set app]. intros Hnot.
  apply not_elem_of_cons in Hnot as [Hne Hnot].
  rewrite bool_decide_eq_false_2 by done. by rewrite IH.
Qed.

Lemma dict_set_keys fy d seen :
  fy ∈ map fst seen -> map fst (dict_set fy d seen) = map fst seen.
Proof.
  induction seen as [|[k v] seen IH]; intros Hin.
  - by apply elem_of_nil in Hin.
  - cbn [map fst dict_set]. case_bool_decide as Hk; [done|].
    cbn [map fst]. f_equal. apply IH.
    apply elem_of_cons in Hin as [Hin|Hin]; [|done]. by destruct Hk.
Qed.

Lemma dict_set_elem fy d seen k v :
  NoDup (map fst seen) -> fy ∈ map fst seen ->
  (k, v) ∈ dict_set fy d seen ->
  (k = fy /\ v = d) \/ (k <> fy /\ (k, v) ∈ seen).
Proof.
  induction seen as [|[k0 v0] seen IH]; intros Hnd Hin Hkv.
  - by apply elem_of_nil in Hin.
  - cbn [map fst] in Hnd, Hin. apply NoDup_cons in Hnd as [Hk0 Hnd].
    cbn [dict_set] in Hkv. case_bool_decide as Hk.
    + subst k0. apply elem_of_cons in Hkv as [[= -> ->]|Hkv]; [by left|].
      right. split; [|by right].
      intros ->. apply Hk0. apply list_elem_of_In, in_map_iff.
      exists (fy, v). by rewrite <- list_elem_of_In.
    + apply elem_of_cons in Hin as [Hin|Hin]; [by destruct Hk|].
      apply elem_of_cons in Hkv as [[= -> ->]|Hkv].
      * right. split; [done|by left].
      * destruct (IH Hnd Hin Hkv) as [?|[? ?]]; [by left|].
        right. split; [done|by right].
Qed.

Lemma key_of_elem (seen : list (Z * observation)) k v :
  (k, v) ∈ seen -> k ∈ map fst seen.
Proof.
  intros Hin. apply list_elem_of_In, in_map_iff.
  exists (k, v). by rewrite <- list_elem_of_In.
Qed.

Lemma seen_years_step_inv seen processed d :
  seen_inv seen processed ->
  seen_inv (seen_years_step seen d) (processed ++ [d]).
Proof.
  intros [Hnd Hfrom Hfy Hcov]. unfold seen_years_step.
  destruct (fiscal_year d) as [fy|] eqn:Hd.
  2:{ split; [done|..].
      - intros k v Hkv. destruct (Hfrom k v Hkv). split; [|done].
        apply elem_of_app. by left.
      - intros k v Hkv Hv d' [Hd'|Hd']%elem_of_app Hk; [by eapply Hfy|].
        apply list_elem_of_singleton in Hd' as ->. congruence.
      - intros d' k [Hd'|Hd']%elem_of_app Hk; [by eapply Hcov|].
        apply list_elem_of_singleton in Hd' as ->. congruence. }
  unfold dict_has. case_bool_decide as Hhas; cbn [negb orb].
  - destruct (String.eqb_spec (fiscal_period d) "FY") as [Hp|Hp].
    + (* the key is there and [d] is a full-year entry: it replaces *)
      split.
      * by rewrite dict_set_keys.
      * intros k v Hkv.
        destruct (dict_set_elem _ _ _ _ _ Hnd Hhas Hkv) as [[-> ->]|[Hne Hin]].
        -- split; [|done]. apply elem_of_app. right. by left.
        -- destruct (Hfrom k v Hin). split; [|done].
           apply elem_of_app. by left.
      * intros k v Hkv Hv d' Hd' Hk.
        destruct (dict_set_elem _ _ _ _ _ Hnd Hhas Hkv) as [[-> ->]|[Hne Hin]];
          [done|].
        apply elem_of_app in Hd' as [Hd'|Hd']; [by eapply Hfy|].
        apply list_elem_of_singleton in Hd' as ->. congruence.
      * intros d' k Hd' Hk. rewrite dict_set_keys by done.
        apply elem_of_app in Hd' as [Hd'|Hd']; [by eapply Hcov|].
        apply list_elem_of_singleton in Hd' as ->. congruence.
    + (* the key is there and [d] is not a full-year entry: no change *)
      split; [done|..].
      * intros k v Hkv. destruct (Hfrom k v Hkv). split; [|done].
        apply elem_of_app. by left.
      * intros k v Hkv Hv d' [Hd'|Hd']%elem_of_app Hk; [by eapply Hfy|].
        apply list_elem_of_singleton in Hd' as ->. done.
      * intros d' k [Hd'|Hd']%elem_of_app Hk; [by eapply Hcov|].
        apply list_elem_of_singleton in Hd' as ->. congruence.
  - (* a new key *)
    rewrite dict_set_fresh by done. split.
    + rewrite map_app. cbn [map fst]. apply NoDup_app. split; [done|].
      split; [|apply NoDup_singleton].
      intros k Hk ->%list_elem_of_singleton. done.
    + intros k v [Hkv|Hkv]%elem_of_app.
      * destruct (Hfrom k v Hkv). split; [|done]. apply elem_of_app. by left.
      * apply list_elem_of_singleton in Hkv as [= -> ->].
        split; [|done]. apply elem_of_app. right. by left.
    + intros k v [Hkv|Hkv]%elem_of_app Hv d' Hd' Hk.
      * apply elem_of_app in Hd' as [Hd'|Hd']; [by eapply Hfy|].
        apply list_elem_of_singleton in Hd' as ->.
        assert (k = fy) as -> by congruence.
        destruct Hhas. by eapply key_of_elem.
      * apply list_elem_of_singleton in Hkv as [= -> ->].
        apply elem_of_app in Hd' as [Hd'|Hd'].
        -- destruct Hhas. by eapply Hcov.
        -- by apply list_elem_of_singleton in Hd' as ->.
    + intros d' k Hd' Hk. rewrite map_app. apply elem_of_app.
      apply elem_of_app in Hd' as [Hd'|Hd']; [left; by eapply Hcov|].
      apply list_elem_of_singleton in Hd' as ->. right.
      assert (k = fy) as -> by congruence. by left.
Qed.

Lemma seen_years_loop_inv rest seen processed :
  seen_inv seen processed ->
  seen_inv (foldl seen_years_step seen rest) (processed ++ rest).
Proof.
  revert seen processed. induction rest as [|d rest IH]; intros seen processed.
  - by rewrite app_nil_r.
  - intros Hinv. cbn [foldl].
    replace (processed ++ d :: rest)%list with ((processed ++ [d]) ++ rest)%list
      by (by rewrite <- app_assoc).
    by apply IH, seen_years_step_inv.
Qed.

Lemma seen_years_inv annual_data :
  seen_inv (foldl seen_years_step [] annual_data) annual_data.
Proof.
  apply (seen_years_loop_inv annual_data [] []).
  split; [constructor|..]; intros; by (exfalso; eapply not_elem_of_nil).
Qed.

(** *** The sort by fiscal year *)

Lemma insert_by_fy_Permutation d l : insert_by_fy d l ≡ₚ d :: l.
Proof.
  induction l as [|x l IH]; simpl; [done|].
  destruct (_ <=? _); [done|]. rewrite IH. apply Permutation_swap.
Qed.

Lemma sort_by_fy_Permutation l : sort_by_fy l ≡ₚ l.
Proof.
  induction l as [|x l IH]; simpl; [done|].
  by rewrite insert_by_fy_Permutation, IH.
Qed.

Lemma insert_by_fy_sorted d l :
  StronglySorted (fun a b => fy_key a <= fy_key b) l ->
  StronglySorted (fun a b => fy_key a <= fy_key b) (insert_by_fy d l).
Proof.
  induction 1 as [|x l Hs IH Hall]; simpl.
  - repeat constructor.
  - destruct (fy_key d <=? fy_key x) eqn:Hle.
    + apply Z.leb_le in Hle. constructor; [by constructor|].
      constructor; [done|].
      eapply Forall_impl; [exact Hall|]. intros y Hy. simpl in *. lia.
    + apply Z.leb_gt in Hle. constructor; [done|].
      rewrite insert_by_fy_Permutation. constructor; [lia|done].
Qed.

Lemma sort_by_fy_sorted l :
  StronglySorted (fun a b => fy_key a <= fy_key b) (sort_by_fy l).
Proof. induction l; simpl; [constructor | by apply insert_by_fy_sorted]. Qed.

Lemma sorted_distinct_strict (l : list observation) :
  StronglySorted (fun a b => fy_key a <= fy_key b) l ->
  NoDup (map fy_key l) ->
  StronglySorted (fun a b => fy_key a < fy_key b) l.
Proof.
  induction 1 as [|x l Hs IH Hall]; intros Hnd; [constructor|].
  cbn [map] in Hnd. apply NoDup_cons in Hnd as [Hx Hnd].
  constructor; [by apply IH|].
  apply Forall_forall. intros y Hy.
  rewrite Forall_forall in Hall. specialize (Hall y Hy). simpl in Hall.
  assert (fy_key x <> fy_key y); [|lia].
  intros Heq. apply Hx. rewrite Heq.
  apply list_elem_of_In, in_map. by rewrite <- list_elem_of_In.
Qed.

Lemma seen_values_keys seen processed :
  seen_inv seen processed -> map fy_key (map snd seen) = map fst seen.
Proof.
  intros Hinv.
  assert (forall k v, (k, v) ∈ seen -> fy_key v = k) as Hkey.
  { intros k v Hkv. destruct (inv_from _ _ Hinv k v Hkv) as [_ Hfy].
    unfold fy_key. by rewrite Hfy. }
  clear Hinv. induction seen as [|[k v] seen IH]; [done|].
  cbn [map fst snd]. rewrite (Hkey k v) by left.
  f_equal. apply IH. intros k' v' Hin. apply Hkey. by right.
Qed.

(** The observations of [annual_history], with what the loop guarantees
    for each. *)
Lemma annual_history_elem rev_data o :
  o ∈ annual_history rev_data ->
  o ∈ rev_data /\ PyStr.replace_amend (form o) = "10-K" /\
  is_Some (fiscal_year o) /\
  (fiscal_period o <> "FY" ->
   forall d, d ∈ rev_data -> PyStr.replace_amend (form d) = "10-K" ->
             fiscal_year d = fiscal_year o -> fiscal_period d <> "FY").
Proof.
  unfold annual_history. cbv zeta.
  set (annual_data := List.filter _ rev_data).
  pose proof (seen_years_inv annual_data) as Hinv.
  rewrite sort_by_fy_Permutation. intros Ho.
  apply list_elem_of_In, in_map_iff in Ho as ([k v] & <- & Hkv).
  apply list_elem_of_In in Hkv. cbn [snd].
  destruct (inv_from _ _ Hinv k v Hkv) as [Hv Hfy].
  apply list_elem_of_In, filter_In in Hv as [Hv Hform].
  apply String.eqb_eq in Hform. apply list_elem_of_In in Hv.
  split; [done|]. split; [done|]. split; [by rewrite Hfy|].
  intros Hp d Hd Hdform Hdfy.
  apply (inv_prefers_fy _ _ Hinv k v Hkv Hp).
  - apply list_elem_of_In, filter_In. rewrite <- list_elem_of_In.
    split; [done|]. by apply String.eqb_eq.
  - by rewrite Hdfy.
Qed.

Lemma annual_history_sorted rev_data :
  StronglySorted (fun a b => fy_key a < fy_key b) (annual_history rev_data).
Proof.
  unfold annual_history. cbv zeta.
  set (annual_data := List.filter _ rev_data).
  pose proof (seen_years_inv annual_data) as Hinv.
  apply sorted_distinct_strict; [apply sort_by_fy_sorted|].
  rewrite sort_by_fy_Permutation, (seen_values_keys _ _ Hinv).
  apply (inv_nodup _ _ Hinv).
Qed.

Lemma last_five_length {A} (l : list A) :
  (2 <= length l)%nat ->
  (2 <= length (last_five l) <= 5)%nat.
Proof. intros Hl. unfold last_five. rewrite length_drop. lia. Qed.

(** X20. The table of the annual revenue history has no row, or between two
    and five rows. Its rows are in strictly increasing order of fiscal
    year, so no fiscal year appears twice. Each row shows an annual
    revenue observation of the series that has a fiscal year, and a row
    shows an observation that is not marked FY only when no annual
    observation of that fiscal year is marked FY. *)
Theorem annual_history_rows (income : gmap string (list observation)) :
  let rev_data := default [] (income !! "revenue") in
  let rows := history_rows income in
  (rows = [] \/ (2 <= length rows <= 5)%nat) /\
  StronglySorted
    (fun a b => fy_key (row_revenue a) < fy_key (row_revenue b)) rows /\
  forall row, row ∈ rows ->
    row_revenue row ∈ rev_data /\
    PyStr.replace_amend (form (row_revenue row)) = "10-K" /\
    is_Some (fiscal_year (row_revenue row)) /\
    (fiscal_period (row_revenue row) <> "FY" ->
     forall d, d ∈ rev_data -> PyStr.replace_amend (form d) = "10-K" ->
               fiscal_year d = fiscal_year (row_revenue row) ->
               fiscal_period d <> "FY").
Proof.
  cbv zeta. unfold history_rows. cbv zeta.
  set (rev_data := default [] (income !! "revenue")).
  destruct (2 <=? length (annual_history rev_data))%nat eqn:Hlen.
  2:{ split; [by left|]. split; [constructor|].
      intros row Hrow. by apply elem_of_nil in Hrow. }
  apply Nat.leb_le in Hlen.
  split; [|split].
  - right. rewrite length_map. by apply last_five_length.
  - assert (StronglySorted (fun a b => fy_key a < fy_key b)
              (last_five (annual_history rev_data))) as Hs.
    { eapply StronglySorted_sublist; [apply sublist_drop|].
      apply annual_history_sorted. }
    induction Hs as [|x l Hs IH Hall]; cbn [map]; constructor; [done|].
    apply Forall_forall. intros row Hrow.
    apply list_elem_of_In, in_map_iff in Hrow as (y & <- & Hy).
    rewrite Forall_forall in Hall. apply Hall. by apply list_elem_of_In.
  - intros row Hrow.
    apply list_elem_of_In, in_map_iff in Hrow as (o & <- & Ho).
    cbn [row_revenue]. apply annual_history_elem.
    apply list_elem_of_In in Ho.
    by apply (sublist_subseteq _ _ (sublist_drop _ _)) in Ho.
Qed.

End HistoryProofs.

Module CikProofs.
Import Cli Cik.

Lemma zeros_length n : String.length (zeros n) = n.
Proof. induction n; simpl; congruence. Qed.

Lemma string_app_length (s1 s2 : string) :
  String.length (s1 ++ s2) = (String.length s1 + String.length s2)%nat.
Proof.
  induction s1 as [|c s1 IH]; [done|].
  change (String c s1 ++ s2) with (String c (s1 ++ s2)).
  cbn [String.length]. by rewrite IH.
Qed.

Lemma zfill_length width s :
  String.length (zfill width s) = (width `max` String.length s)%nat.
Proof.
  unfold zfill. destruct s as [|c rest].
  - rewrite zeros_length. cbn [String.length]. lia.
  - destruct (_ || _).
    + cbn [String.length]. rewrite string_app_length, zeros_length.
      cbn [String.length]. lia.
    + rewrite string_app_length, zeros_length. lia.
Qed.

Lemma fill_cache_padded items cache :
  padded cache -> padded (fill_cache items cache).2.
Proof.
  revert cache. induction items as [|[t c|] items IH]; intros cache Hp;
    cbn [fill_cache snd]; [done| |done].
  apply IH. intros k v Hk.
  destruct (decide (k = upper (default EmptyString t))) as [->|Hne].
  - rewrite lookup_insert_eq in Hk. injection Hk as <-.
    rewrite zfill_length. lia.
  - rewrite lookup_insert_ne in Hk by done. by apply (Hp k).
Qed.

Lemma fill_cache_keeps items cache k :
  is_Some (cache !! k) -> is_Some ((fill_cache items cache).2 !! k).
Proof.
  revert cache. induction items as [|[t c|] items IH]; intros cache Hk;
    cbn [fill_cache snd]; [done| |done].
  apply IH.
  destruct (decide (k = upper (default EmptyString t))) as [->|Hne].
  - rewrite lookup_insert_eq. by eexists.
  - by rewrite lookup_insert_ne.
Qed.

(** X21. A CIK that a call returns is in the cache after the call, so a later
    call for the same ticker, in upper or lower case, returns it without
    a request, whatever the response would be. *)
Theorem resolved_cik_is_cached (resp resp' : response)
    (cache : gmap string string) (ticker ticker' cik : string) :
  l_cik (resolve_cik resp cache ticker) = Some cik ->
  upper ticker' = upper ticker ->
  resolve_cik resp' (l_cache (resolve_cik resp cache ticker)) ticker' =
  Lookup (Some cik) (l_cache (resolve_cik resp cache ticker)) 0.
Proof.
  intros Hres Hup.
  assert (l_cache (resolve_cik resp cache ticker) !! upper ticker = Some cik)
    as Hc.
  { unfold resolve_cik in *. cbv zeta in *.
    destruct (cache !! upper ticker) as [v|] eqn:Hhit.
    - cbn [l_cik l_cache] in *. congruence.
    - destruct resp as [|items]; [done|].
      destruct (fill_cache items cache) as [[|] cache'];
        cbn [l_cik l_cache] in *; done. }
  unfold resolve_cik at 1. cbv zeta. by rewrite Hup, Hc.
Qed.

Lemma resolved_cik_is_cached_witness :
  resolve_cik RequestFailed
    (l_cache (resolve_cik sample_tickers ∅ "cake")) "Cake" =
  Lookup (Some "0000887596")
    (l_cache (resolve_cik sample_tickers ∅ "cake")) 0.
Proof.
  apply (resolved_cik_is_cached sample_tickers RequestFailed ∅ "cake" "Cake"
           "0000887596").
  - by vm_compute.
  - by vm_compute.
Defined.

(** X22. Padding is kept: on a cache whose CIKs have ten characters or more,
    a call leaves such a cache, and the CIK it returns has ten characters
    or more, so it is never the empty string. *)
Theorem resolve_cik_keeps_padding (resp : response)
    (cache : gmap string string) (ticker : string) :
  padded cache ->
  padded (l_cache (resolve_cik resp cache ticker)) /\
  forall cik, l_cik (resolve_cik resp cache ticker) = Some cik ->
              (10 <= String.length cik)%nat /\ cik <> EmptyString.
Proof.
  intros Hp.
  assert (padded (l_cache (resolve_cik resp cache ticker))) as Hp'.
  { unfold resolve_cik. cbv zeta.
    destruct (cache !! upper ticker); [done|].
    destruct resp as [|items]; [done|].
    pose proof (fill_cache_padded items cache Hp) as Hf.
    by destruct (fill_cache items cache) as [? cache']. }
  split; [done|]. intros cik Hres.
  assert (10 <= String.length cik)%nat as Hlen.
  { apply (Hp' (upper ticker)).
    unfold resolve_cik in *. cbv zeta in *.
    destruct (cache !! upper ticker) as [v|] eqn:Hhit.
    - cbn [l_cik l_cache] in *. congruence.
    - destruct resp as [|items]; [done|].
      destruct (fill_cache items cache) as [[|] cache'];
        cbn [l_cik l_cache] in *; done. }
  split; [done|]. intros ->. cbn in Hlen. lia.
Qed.

Lemma resolve_cik_keeps_padding_witness :
  padded (l_cache (resolve_cik sample_tickers ∅ "CAKE")) /\
  forall cik, l_cik (resolve_cik sample_tickers ∅ "CAKE") = Some cik ->
              (10 <= String.length cik)%nat /\ cik <> EmptyString.
Proof.
  apply (resolve_cik_keeps_padding sample_tickers ∅ "CAKE").
  intros t cik Hl. by rewrite lookup_empty in Hl.
Defined.

(** X23. A call sends one request at most, and none exactly when the ticker in
    upper case is in the cache. No ticker leaves the cache, and a failed
    request leaves the cache as it was and gives no CIK. *)
Theorem resolve_cik_requests (resp : response) (cache : gmap string string)
    (ticker : string) :
  let out := resolve_cik resp cache ticker in
  (l_requests out <= 1)%nat /\
  (l_requests out = 0%nat <-> is_Some (cache !! upper ticker)) /\
  (forall t, is_Some (cache !! t) -> is_Some (l_cache out !! t)) /\
  (resp = RequestFailed -> l_cache out = cache /\
     (l_cik out = None <-> cache !! upper ticker = None)).
Proof.
  cbv zeta. unfold resolve_cik. cbv zeta.
  destruct (cache !! upper ticker) as [v|] eqn:Hhit.
  - cbn [l_requests l_cache l_cik]. split; [lia|]. split; [by split; eauto|].
    split; [done|]. intros _. split; [done|]. by split.
  - destruct resp as [|items].
    + cbn [l_requests l_cache l_cik]. split; [lia|].
      split; [split; [done|by intros [? ?]]|]. split; [done|]. done.
    + pose proof (fill_cache_keeps items cache) as Hk.
      destruct (fill_cache items cache) as [completed cache'].
      cbn [l_requests l_cache l_cik snd] in *. split; [lia|].
      split; [split; [done|by intros [? ?]]|]. split; [done|]. done.
Qed.

End CikProofs.

(** ** Failures of the report sections *)

Module ReportProofs.
Import Fundamentals FundamentalsProofs FundamentalsMore FundamentalsExtras.
Import HistoryProofs.

Lemma match_annual_elem data period_end v :
  match_annual data period_end = Some v ->
  exists o, o ∈ data /\ value o = v.
Proof.
  unfold match_annual. destruct (find _ data) as [o|] eqn:Hf; [|done].
  intros [= <-]. apply find_some in Hf as [Hin _].
  exists o. by rewrite list_elem_of_In.
Qed.

(** The values a row of the history table shows are values of the
    revenue, net income and EPS series. *)
Lemma history_rows_elem income row :
  row ∈ history_rows income ->
  row_revenue row ∈ default [] (income !! "revenue") /\
  (forall v, row_net_income row = Some v ->
     exists o, o ∈ default [] (income !! "net_income") /\ value o = v) /\
  (forall v, row_eps row = Some v ->
     exists o, o ∈ default [] (income !! "eps_diluted") /\ value o = v).
Proof.
  unfold history_rows. cbv zeta.
  destruct (2 <=? _)%nat; [|by intros ?%elem_of_nil].
  intros Hrow. apply list_elem_of_In, in_map_iff in Hrow as (o & <- & Ho).
  cbn [row_revenue row_net_income row_eps]. split.
  { apply list_elem_of_In in Ho.
    apply (sublist_subseteq _ _ (sublist_drop _ _)) in Ho.
    by apply annual_history_elem in Ho as [? _]. }
  split; intros v Hv; by apply match_annual_elem in Hv.
Qed.

Lemma history_line_Raise row e :
  history_line row = Raise e ->
  e = OverflowError /\
  (overflows (value (row_revenue row)) = true \/
   (exists v, row_net_income row = Some v /\ overflows v = true) \/
   (exists v, row_eps row = Some v /\ overflows v = true)).
Proof.
  unfold history_line.
  destruct (_format_number (value (row_revenue row))) as [[]|e1] eqn:H1;
    cbn [mbind exc_bind].
  2:{ intros [= ->]. apply format_number_Raise in H1 as [-> Hov].
      split; [done|]. by left. }
  destruct (row_net_income row) as [ni|]; cbn [from_option].
  - destruct (_format_number ni) as [[]|e2] eqn:H2; cbn [mbind exc_bind].
    2:{ intros [= ->]. apply format_number_Raise in H2 as [-> Hov].
        split; [done|]. right. left. by exists ni. }
    destruct (row_eps row) as [eps|]; cbn [from_option]; [|done].
    intros H3. apply format_number_Raise in H3 as [-> Hov].
    split; [done|]. right. right. by exists eps.
  - cbn [mret exc_ret mbind exc_bind].
    destruct (row_eps row) as [eps|]; cbn [from_option]; [|done].
    intros H3. apply format_number_Raise in H3 as [-> Hov].
    split; [done|]. right. right. by exists eps.
Qed.

(** The income section fails only on an integer beyond the doubles. *)
Lemma income_section_Raise income e :
  income_section income = Raise e ->
  e = OverflowError /\
  exists metric data o,
    income !! metric = Some data /\ o ∈ data /\ overflows (value o) = true.
Proof.
  unfold income_section. case_decide; [done|].
  destruct (for_each (metric_line income) INCOME_LINES) as [[]|e1] eqn:H1;
    cbn [mbind exc_bind].
  2:{ intros [= ->]. by apply metric_lines_Raise in H1. }
  destruct (margins_block income) as [m|e2] eqn:H2; cbn [mbind exc_bind].
  2:{ intros [= ->].
      apply margins_block_Raise in H2
        as (-> & [(rev & Hrev & Hov)|(metric & label & num & _ & Hnum & Hov)]);
        (split; [done|]).
      - apply latest_of_elem in Hrev as (data & Hd & Ho).
        by exists "revenue", data, rev.
      - apply latest_of_elem in Hnum as (data & Hd & Ho).
        by exists metric, data, num. }
  destruct (for_each history_line (history_rows income)) as [[]|e3] eqn:H3;
    cbn [mbind exc_bind]; [done|].
  intros [= ->]. apply for_each_Raise in H3 as (row & Hrow & Hline).
  apply history_line_Raise in Hline as (-> & Hcause). split; [done|].
  apply history_rows_elem in Hrow as (Hrev & Hni & Heps).
  destruct Hcause as [Hov|[(v & Hv & Hov)|(v & Hv & Hov)]].
  - apply default_elem in Hrev as (data & Hd & Ho).
    by exists "revenue", data, (row_revenue row).
  - destruct (Hni v Hv) as (o & Ho & <-).
    apply default_elem in Ho as (data & Hd & Ho).
    by exists "net_income", data, o.
  - destruct (Heps v Hv) as (o & Ho & <-).
    apply default_elem in Ho as (data & Hd & Ho).
    by exists "eps_diluted", data, o.
Qed.

(** The balance sheet section fails on a ratio numerator without value,
    or on an integer beyond the doubles. *)
Lemma balance_section_Raise balance e :
  balance_section balance = Raise e ->
  (e = TypeError /\
   exists m o, m ∈ ratio_numerators /\ latest_of balance m = Some o /\
               value o = PNone) \/
  (e = OverflowError /\
   exists metric data o,
     balance !! metric = Some data /\ o ∈ data /\
     overflows (value o) = true).
Proof.
  unfold balance_section. case_decide; [done|].
  destruct (for_each (metric_line balance) BALANCE_SHEET_LINES)
    as [[]|e1] eqn:H1; cbn [mbind exc_bind].
  2:{ intros [= ->]. right. by apply metric_lines_Raise in H1. }
  intros Hr.
  apply ratios_block_Raise in Hr as [Hty|(-> & m & o & Hl & Hov)].
  - by left.
  - right. split; [done|]. apply latest_of_elem in Hl as (data & Hd & Ho).
    by exists m, data, o.
Qed.

(** The cash flow section fails only on an integer beyond the doubles. *)
Lemma cash_flow_section_Raise cash_flow e :
  cash_flow_section cash_flow = Raise e ->
  e = OverflowError /\
  exists metric data o,
    cash_flow !! metric = Some data /\ o ∈ data /\
    overflows (value o) = true.
Proof.
  unfold cash_flow_section. case_decide; [done|].
  destruct (for_each (metric_line cash_flow) CASH_FLOW_LINES)
    as [[]|e1] eqn:H1; cbn [mbind exc_bind].
  2:{ intros [= ->]. by apply metric_lines_Raise in H1. }
  intros Hr. apply fcf_block_Raise in Hr as (-> & m & o & _ & Hl & Hov).
  split; [done|]. apply latest_of_elem in Hl as (data & Hd & Ho).
  by exists m, data, o.
Qed.

(** X18. The sections of the report that read the metrics document can
    fail in two ways only: with [TypeError], when the latest observation
    of a ratio numerator (total liabilities, current assets or cash)
    carries no value, and with [OverflowError], when the value of some
    observation of the document is an integer beyond the doubles. When
    the three numerators carry a value whenever they are present and no
    value of the document is such an integer, all derived figures are
    computed. *)
Theorem derive_failure_causes (fin : financials) :
  (forall e, derive fin = Raise e ->
     (e = TypeError /\
      exists m o, m ∈ ratio_numerators /\
                  latest_of (balance_sheet fin) m = Some o /\
                  value o = PNone) \/
     (e = OverflowError /\
      exists o, observation_of fin o /\ overflows (value o) = true)) /\
  ((forall m o, m ∈ ratio_numerators ->
      latest_of (balance_sheet fin) m = Some o -> value o <> PNone) ->
   (forall o, observation_of fin o -> overflows (value o) = false) ->
   exists d, derive fin = Ok d).
Proof.
  assert (forall e, derive fin = Raise e ->
     (e = TypeError /\
      exists m o, m ∈ ratio_numerators /\
                  latest_of (balance_sheet fin) m = Some o /\
                  value o = PNone) \/
     (e = OverflowError /\
      exists o, observation_of fin o /\ overflows (value o) = true))
    as Hraise.
  { intros e. unfold derive, observation_of.
    destruct (income_section (income fin)) as [m|e1] eqn:H1;
      cbn [mbind exc_bind].
    2:{ intros [= ->].
        apply income_section_Raise in H1 as (-> & metric & data & o & Hd & Ho
                                             & Hov).
        right. split; [done|]. exists o. split; [|done].
        exists (income fin), metric, data. split; [by left|done]. }
    destruct (balance_section (balance_sheet fin)) as [r|e2] eqn:H2;
      cbn [mbind exc_bind].
    2:{ intros [= ->].
        apply balance_section_Raise in H2
          as [Hty|(-> & metric & data & o & Hd & Ho & Hov)]; [by left|].
        right. split; [done|]. exists o. split; [|done].
        exists (balance_sheet fin), metric, data.
        split; [right; by left|done]. }
    destruct (cash_flow_section (cash_flow fin)) as [f|e3] eqn:H3;
      cbn [mbind exc_bind]; [done|].
    intros [= ->].
    apply cash_flow_section_Raise in H3 as (-> & metric & data & o & Hd & Ho
                                            & Hov).
    right. split; [done|]. exists o. split; [|done].
    exists (cash_flow fin), metric, data.
    split; [right; right; by left|done]. }
  split; [exact Hraise|].
  intros Hnum Hrange. destruct (derive fin) as [d|e] eqn:Hd; [by exists d|].
  destruct (Hraise e eq_refl) as [(_ & m & o & Hm & Hl & Hv)
                                 |(_ & o & Ho & Hov)].
  - by destruct (Hnum m o Hm Hl).
  - rewrite (Hrange o Ho) in Hov. done.
Qed.

End ReportProofs.
